(** * Superposition: session persistence and transport stack

    A shallow embedding of the Go sources of the supervisor ("shepherd"),
    its client, the local PTY manager, the WebSocket bridge, the gateway
    proxy and the reverse-tunnel client, followed by the properties of the
    specification that are stated about them.

    Conventions.
    - A Go [[]byte] is a [list byte]; a Go [string] (an immutable byte
      sequence) is a Rocq [string], converted with [list_byte_of_string]
      and [string_of_list_byte] where the source converts.
    - Go integers are [Z]; a conversion to a fixed width is written out
      ([uint32], [byte_of_Z]).
    - A Go map is a [gmap]; a map used as a set of pointers or channels is
      a [gmap] keyed by the identity of the object.
    - A buffered channel is the list of values waiting in it, with its
      capacity; a [select] with a [default] branch is a total function. *)

From Stdlib Require Import ZArith Lia List String Ascii.
From Stdlib Require Import Init.Byte.
From stdpp Require Import base option list gmap strings pretty.

Open Scope Z_scope.

(** ** Results of fallible calls *)

Inductive error : Type :=
| EOF
| ErrUnexpectedEOF
| ErrEmptyFrame
| ErrFrameTooLarge (length : Z)
| ErrDataPayloadTooShort
| ErrDataPayloadTooShortForID
| ErrNoTunnel
| ErrSessionShutdown
| ErrClientClosed
| ErrShepherd (msg : string)
| ErrSessionNotFound (id : string)
| ErrSpawn (msg : string).

Inductive result (A : Type) : Type :=
| Ok (a : A)
| Err (e : error).
Arguments Ok {A} a.
Arguments Err {A} e.

(** ** Bytes and fixed-width integers *)

(** [byte(v)]: the low eight bits of an integer. *)
Definition byte_of_Z (z : Z) : byte :=
  match Byte.of_N (Z.to_N (z mod 256)) with
  | Some b => b
  | None => x00
  end.

Definition Z_of_byte (b : byte) : Z := Z.of_N (Byte.to_N b).

#[global] Instance byte_eq_decision : EqDecision byte := Byte.byte_eq_dec.

(** [uint32(v)]: conversion of an [int] to 32 bits. *)
Definition uint32 (z : Z) : Z := z mod 2 ^ 32.

(** [len(s)] as a Go [int]. *)
Definition len {A : Type} (l : list A) : Z := Z.of_nat (length l).

(** The double quote character, for JSON literals. *)
Definition dq : string := String (ascii_of_nat 34) EmptyString.

(** * internal/shepherd/protocol.go *)
Module Protocol.

Definition frameControl : byte := x01.
Definition frameData : byte := x02.
Definition frameInput : byte := x03.

Definition cmdStart : string := "start".
Definition cmdStop : string := "stop".
Definition cmdResize : string := "resize".
Definition cmdReplay : string := "replay".
Definition cmdSubscribe : string := "subscribe".
Definition cmdList : string := "list".
Definition cmdPing : string := "ping".
Definition cmdStopAll : string := "stop_all".

Definition evtStarted : string := "started".
Definition evtStopped : string := "stopped".
Definition evtError : string := "error".
Definition evtReplay : string := "replay".
Definition evtList : string := "list".
Definition evtPong : string := "pong".
Definition evtExited : string := "exited".
Definition evtStopDone : string := "stop_done".

Record Request : Type := mkRequest {
  req_ID : string;
  req_Command : string;
  req_SessionID : string;
  req_CLIType : string;
  req_WorkDir : string;
  req_Rows : Z;
  req_Cols : Z
}.

Record Response : Type := mkResponse {
  resp_ID : string;
  resp_Event : string;
  resp_PID : Z;
  resp_Error : string;
  resp_SessionID : string;
  resp_Data : list byte;
  resp_Sessions : list string
}.

(** The zero values [Request{}] and [Response{}]. *)
Definition Request0 : Request := mkRequest "" "" "" "" "" 0 0.
Definition Response0 : Response := mkResponse "" "" 0 "" "" [] [].

(** [binary.BigEndian.PutUint32] and [binary.BigEndian.Uint32]. *)
Definition putUint32 (v : Z) : list byte :=
  [ byte_of_Z (Z.shiftr v 24); byte_of_Z (Z.shiftr v 16);
    byte_of_Z (Z.shiftr v 8); byte_of_Z v ].

Definition getUint32 (b : list byte) : Z :=
  match b with
  | [b0; b1; b2; b3] =>
      Z.lor (Z.lor (Z.lor (Z_of_byte b3) (Z.shiftl (Z_of_byte b2) 8))
               (Z.shiftl (Z_of_byte b1) 16))
        (Z.shiftl (Z_of_byte b0) 24)
  | _ => 0
  end.

(** [io.ReadFull] on a reader holding the bytes [r]: exactly [n] bytes,
    or [EOF] when none is left and [ErrUnexpectedEOF] when too few are. *)
Definition readFull (r : list byte) (n : Z) : result (list byte * list byte) :=
  if n <=? len r then Ok (take (Z.to_nat n) r, drop (Z.to_nat n) r)
  else match r with
       | [] => Err EOF
       | _ => Err ErrUnexpectedEOF
       end.

(** [writeFrame] on a writer that has received [w] so far and whose
    writes succeed; the result is everything the writer has received. *)
Definition writeFrame (w : list byte) (frameType : byte) (payload : list byte)
  : list byte :=
  let length := uint32 (1 + len payload) in
  let w := w ++ putUint32 length in
  let w := w ++ [frameType] in
  w ++ payload.

(** The payload that [writeDataFrame] builds with [make] and two [copy]s. *)
Definition dataFramePayload (sessionID : string) (data : list byte) : list byte :=
  let idBytes := list_byte_of_string sessionID in
  byte_of_Z (len idBytes) :: idBytes ++ data.

Definition writeDataFrame (w : list byte) (frameType : byte)
    (sessionID : string) (data : list byte) : list byte :=
  writeFrame w frameType (dataFramePayload sessionID data).

(** [readFrame]: the frame type, the payload and what is left to read. *)
Definition readFrame (r : list byte) : result (byte * list byte * list byte) :=
  match readFull r 4 with
  | Err e => Err e
  | Ok (hdr, r) =>
      let length := getUint32 hdr in
      if length =? 0 then Err ErrEmptyFrame
      else if length >? 10 * 1024 * 1024 then Err (ErrFrameTooLarge length)
      else match readFull r length with
           | Err e => Err e
           | Ok (buf, r) =>
               match buf with
               | [] => Err ErrEmptyFrame
               | b0 :: rest => Ok (b0, rest, r)
               end
           end
  end.

Definition parseDataPayload (payload : list byte) : result (string * list byte) :=
  match payload with
  | [] => Err ErrDataPayloadTooShort
  | p0 :: _ =>
      let idLen := Z_of_byte p0 in
      if len payload <? 1 + idLen then Err ErrDataPayloadTooShortForID
      else
        let sessionID :=
          string_of_list_byte (take (Z.to_nat idLen) (drop 1 payload)) in
        let data := drop (Z.to_nat (1 + idLen)) payload in
        Ok (sessionID, data)
  end.

(** The JSON text of [Request{ID: "r1", Command: "ping"}]. *)
Definition ping_json : string :=
  "{" ++ dq ++ "id" ++ dq ++ ":" ++ dq ++ "r1" ++ dq ++ ","
      ++ dq ++ "command" ++ dq ++ ":" ++ dq ++ "ping" ++ dq ++ "}".

Definition ping_payload : list byte := list_byte_of_string ping_json.

(** The reading loop shared by [handleConn] and [readLoop]: frames are read
    from the connection and handed to [dispatch] until [readFrame] fails;
    the result is the state reached and the error that ended the loop.
    [fuel] bounds the number of frames read. *)
Fixpoint readFrames {S : Type} (dispatch : byte -> list byte -> S -> S)
    (fuel : nat) (r : list byte) (s : S) : S * option error :=
  match fuel with
  | O => (s, None)
  | Datatypes.S fuel =>
      match readFrame r with
      | Err e => (s, Some e)
      | Ok (frameType, payload, r) =>
          readFrames dispatch fuel r (dispatch frameType payload s)
      end
  end.

(** What a sequence of [writeFrame] calls leaves on the wire. *)
Definition writeFrames (w : list byte) (frames : list (byte * list byte)) : list byte :=
  foldl (fun w f => writeFrame w f.1 f.2) w frames.

End Protocol.

(** * Go channels

    A buffered channel of output chunks is its queue, its capacity and
    whether it has been closed. Channels are objects: they live in a heap
    and are shared by identity between the producer's subscriber set and
    the consumer that holds the receiving end. *)
Module Chan.

Definition chunk : Type := list byte.

Record chan : Type := mkChan {
  buf : list chunk;
  cap : Z;
  closed : bool
}.

Abbreviation heap := (gmap positive chan).

(** [make(chan []byte, n)] *)
Definition make (n : Z) : chan := mkChan [] n false.

Inductive sendResult : Type := Sent | Dropped | PanicClosed.

(** [select { case ch <- v: default: }]: the value is queued when the
    buffer has room, otherwise the [default] branch runs and nothing
    changes; the statement never waits. *)
Definition trySend (c : chan) (v : chunk) : chan * sendResult :=
  if closed c then (c, PanicClosed)
  else if len (buf c) <? cap c
       then (mkChan (buf c ++ [v]) (cap c) (closed c), Sent)
       else (c, Dropped).

Inductive recvResult : Type :=
| Received (v : chunk)
| WouldBlock
| EndOfStream.

(** One iteration of [for v := range ch]. *)
Definition recv (c : chan) : chan * recvResult :=
  match buf c with
  | v :: rest => (mkChan rest (cap c) (closed c), Received v)
  | [] => (c, if closed c then EndOfStream else WouldBlock)
  end.

Definition close (c : chan) : chan := mkChan (buf c) (cap c) true.

(** Allocation of a new channel object. *)
Definition alloc (h : heap) (c : chan) : positive * heap :=
  let l := fresh (dom h) in (l, <[l := c]> h).

(** The non-blocking send applied to the channel at address [l]. *)
Definition trySendAt (v : chunk) (l : positive) (h : heap) : heap :=
  alter (fun c => fst (trySend c v)) l h.

Definition closeAt (l : positive) (h : heap) : heap := alter close l h.

End Chan.

(** The operating system as seen by [pty.StartWithSize]: whether the
    command can be spawned in the working directory, and with which pid. *)
Record OS : Type := mkOS {
  startWithSize : string -> string -> result Z
}.

(** * internal/shepherd/shepherd.go *)
Module Shepherd.
Import Protocol Chan.

Definition replayBufSize : Z := 100 * 1024.

Record session : Type := mkSession {
  id : string;
  pid : Z;
  signalled : bool;  (* SIGTERM was sent to the child *)
  ptmxClosed : bool;
  done : bool;       (* the done channel is closed *)
  stopped : bool;
  replayBuf : list byte;
  subscribers : gset positive
}.

Definition set_replayBuf (b : list byte) (s : session) : session :=
  mkSession (id s) (pid s) (signalled s) (ptmxClosed s) (done s) (stopped s)
    b (subscribers s).
Definition set_subscribers (x : gset positive) (s : session) : session :=
  mkSession (id s) (pid s) (signalled s) (ptmxClosed s) (done s) (stopped s)
    (replayBuf s) x.
Definition set_stopped (b : bool) (s : session) : session :=
  mkSession (id s) (pid s) (signalled s) (ptmxClosed s) (done s) b
    (replayBuf s) (subscribers s).
Definition set_done (b : bool) (s : session) : session :=
  mkSession (id s) (pid s) (signalled s) (ptmxClosed s) b (stopped s)
    (replayBuf s) (subscribers s).
(** [Process.Signal(SIGTERM)] followed by [ptmx.Close()]. *)
Definition terminate (s : session) : session :=
  mkSession (id s) (pid s) true true (done s) (stopped s)
    (replayBuf s) (subscribers s).

Definition appendReplay (data : list byte) (s : session) : session :=
  let b := replayBuf s ++ data in
  if len b >? replayBufSize
  then set_replayBuf (drop (Z.to_nat (len b - replayBufSize)) b) s
  else set_replayBuf b s.

Definition getReplay (s : session) : list byte := replayBuf s.

(** [subscribe]: a new channel of capacity 256 joins the subscriber set. *)
Definition subscribe (s : session) (h : heap) : positive * session * heap :=
  let '(ch, h) := alloc h (make 256) in
  (ch, set_subscribers ({[ch]} ∪ subscribers s) s, h).

(** The [unsub] closure returned by [subscribe]. *)
Definition unsub (ch : positive) (s : session) : session :=
  set_subscribers (subscribers s ∖ {[ch]}) s.

(** [broadcast]: one non-blocking send per subscriber. *)
Definition broadcast (data : chunk) (s : session) (h : heap) : heap :=
  set_fold (trySendAt data) h (subscribers s).

(** What a connection has been sent. Control messages are kept as the
    values that [json.Marshal] is applied to. *)
Inductive frame : Type :=
| FControl (resp : Response)
| FBytes (frameType : byte) (payload : list byte).

Record connWriter : Type := mkConn {
  sent : list frame;
  connClosed : bool
}.

(** A write on a closed connection fails and leaves it unchanged. *)
Definition connWrite (f : frame) (c : connWriter) : connWriter :=
  if connClosed c then c else mkConn (sent c ++ [f]) (connClosed c).

Record Shepherd : Type := mkShepherd {
  heap_ : heap;                      (* subscriber channels *)
  objs : gmap positive session;      (* session objects, by address *)
  sessions : gmap string positive;   (* the session table *)
  clients : gset positive;           (* connected clients *)
  conns : gmap positive connWriter   (* connections, by address *)
}.

Definition set_heap (h : heap) (s : Shepherd) : Shepherd :=
  mkShepherd h (objs s) (sessions s) (clients s) (conns s).
Definition set_objs (o : gmap positive session) (s : Shepherd) : Shepherd :=
  mkShepherd (heap_ s) o (sessions s) (clients s) (conns s).
Definition set_sessions (t : gmap string positive) (s : Shepherd) : Shepherd :=
  mkShepherd (heap_ s) (objs s) t (clients s) (conns s).
Definition set_clients (c : gset positive) (s : Shepherd) : Shepherd :=
  mkShepherd (heap_ s) (objs s) (sessions s) c (conns s).
Definition set_conns (c : gmap positive connWriter) (s : Shepherd) : Shepherd :=
  mkShepherd (heap_ s) (objs s) (sessions s) (clients s) c.

(** The state built by [Run]. *)
Definition new : Shepherd := mkShepherd ∅ ∅ ∅ ∅ ∅.

Definition writeControl (cw : positive) (resp : Response) (s : Shepherd) : Shepherd :=
  set_conns (alter (connWrite (FControl resp)) cw (conns s)) s.

Definition writeDataFrame (cw : positive) (frameType : byte) (sessionID : string)
    (data : list byte) (s : Shepherd) : Shepherd :=
  set_conns
    (alter (connWrite (FBytes frameType (dataFramePayload sessionID data))) cw
       (conns s)) s.

Definition sendResponse (cw : positive) (resp : Response) (s : Shepherd) : Shepherd :=
  writeControl cw resp s.

(** [handleConn], on accept: the connection joins the client set. *)
Definition accept (s : Shepherd) : positive * Shepherd :=
  let cw := fresh (dom (conns s)) in
  (cw, set_clients ({[cw]} ∪ clients s)
         (set_conns (<[cw := mkConn [] false]> (conns s)) s)).

(** [handleConn], deferred on return: the connection leaves the client
    set and is closed. *)
Definition disconnect (cw : positive) (s : Shepherd) : Shepherd :=
  set_conns (alter (fun c => mkConn (sent c) true) cw (conns s))
    (set_clients (clients s ∖ {[cw]}) s).

(** [broadcastExit]: the client set is copied under the lock, then the
    notification is written to every connection of the copy. *)
Definition broadcastExit (sessionID : string) (s : Shepherd) : Shepherd :=
  let resp := mkResponse "" evtExited 0 "" sessionID [] [] in
  let clients := elements (clients s) in
  foldl (fun s c => writeControl c resp s) s clients.

(** The goroutine started by [handleStart] that waits for the child:
    its four steps after [cmd.Wait()] returns, in program order. *)
Inductive exitStep : Type :=
| MarkStopped
| CloseDone
| BroadcastExit
| DeleteSession.

Definition exitMonitor : list exitStep :=
  [MarkStopped; CloseDone; BroadcastExit; DeleteSession].

Definition execExit (sess : positive) (sessionID : string) (st : exitStep)
    (s : Shepherd) : Shepherd :=
  match st with
  | MarkStopped => set_objs (alter (set_stopped true) sess (objs s)) s
  | CloseDone => set_objs (alter (set_done true) sess (objs s)) s
  | BroadcastExit => broadcastExit sessionID s
  | DeleteSession => set_sessions (delete sessionID (sessions s)) s
  end.

Definition runExit (sess : positive) (sessionID : string)
    (steps : list exitStep) (s : Shepherd) : Shepherd :=
  foldl (fun s st => execExit sess sessionID st s) s steps.

(** [cmd.Wait()] has returned for the session object [sess] that was
    started under [sessionID]. *)
Definition reap (sess : positive) (sessionID : string) (s : Shepherd) : Shepherd :=
  runExit sess sessionID exitMonitor s.

(** One iteration of the PTY reader goroutine with [n > 0] bytes read. *)
Definition ptyRead (sess : positive) (data : list byte) (s : Shepherd) : Shepherd :=
  match objs s !! sess with
  | None => s
  | Some o =>
      let o := appendReplay data o in
      set_heap (broadcast data o (heap_ s)) (set_objs (<[sess := o]> (objs s)) s)
  end.

(** The PTY reader goroutine after its loop: every subscriber channel is
    closed and removed. *)
Definition ptyEOF (sess : positive) (s : Shepherd) : Shepherd :=
  match objs s !! sess with
  | None => s
  | Some o =>
      set_heap (set_fold closeAt (heap_ s) (subscribers o))
        (set_objs (<[sess := set_subscribers ∅ o]> (objs s)) s)
  end.

Definition handleStart (os : OS) (cw : positive) (req : Request) (s : Shepherd)
  : Shepherd :=
  match startWithSize os (req_CLIType req) (req_WorkDir req) with
  | Err e =>
      let msg := match e with ErrSpawn m => m | _ => ""%string end in
      sendResponse cw (mkResponse (req_ID req) evtError 0 msg "" [] []) s
  | Ok child =>
      let sess := fresh (dom (objs s)) in
      let o := mkSession (req_SessionID req) child false false false false [] ∅ in
      let s := set_objs (<[sess := o]> (objs s)) s in
      let s := set_sessions (<[req_SessionID req := sess]> (sessions s)) s in
      sendResponse cw
        (mkResponse (req_ID req) evtStarted child "" (req_SessionID req) [] []) s
  end.

(** The body shared by [handleStop] and [stopAll] for one session. *)
Definition stopSession (o : session) : session :=
  if stopped o then o else terminate o.

Definition handleStop (cw : positive) (req : Request) (s : Shepherd) : Shepherd :=
  match sessions s !! req_SessionID req with
  | None => sendResponse cw (mkResponse (req_ID req) evtStopDone 0 "" "" [] []) s
  | Some sess =>
      let s := set_sessions (delete (req_SessionID req) (sessions s)) s in
      let s := set_objs (alter stopSession sess (objs s)) s in
      sendResponse cw (mkResponse (req_ID req) evtStopDone 0 "" "" [] []) s
  end.

Definition sessionNotFound (req : Request) : Response :=
  mkResponse (req_ID req) evtError 0 "session not found" "" [] [].

(** [pty.Setsize] on an open PTY succeeds; the size is not observable
    through the protocol. *)
Definition handleResize (cw : positive) (req : Request) (s : Shepherd) : Shepherd :=
  match sessions s !! req_SessionID req ≫= (fun p => objs s !! p) with
  | None => sendResponse cw (sessionNotFound req) s
  | Some o =>
      if ptmxClosed o
      then sendResponse cw
             (mkResponse (req_ID req) evtError 0 "file already closed" "" [] []) s
      else sendResponse cw (mkResponse (req_ID req) "resized" 0 "" "" [] []) s
  end.

Definition handleReplay (cw : positive) (req : Request) (s : Shepherd) : Shepherd :=
  match sessions s !! req_SessionID req ≫= (fun p => objs s !! p) with
  | None => sendResponse cw (sessionNotFound req) s
  | Some o =>
      sendResponse cw
        (mkResponse (req_ID req) evtReplay 0 "" (req_SessionID req) (getReplay o) []) s
  end.

(** [handleSubscribe]: the acknowledgement, then a new subscriber whose
    forwarder goroutine is [forward] below. *)
Definition handleSubscribe (cw : positive) (req : Request) (s : Shepherd)
  : Shepherd :=
  match sessions s !! req_SessionID req with
  | None => sendResponse cw (sessionNotFound req) s
  | Some sess =>
      match objs s !! sess with
      | None => sendResponse cw (sessionNotFound req) s
      | Some o =>
          let s := sendResponse cw
                     (mkResponse (req_ID req) "subscribed" 0 ""
                        (req_SessionID req) [] []) s in
          let '(ch, o, h) := subscribe o (heap_ s) in
          set_heap h (set_objs (<[sess := o]> (objs s)) s)
      end
  end.

(** One iteration of the forwarder goroutine of [handleSubscribe] for
    the channel [ch] of session object [sess]. *)
Definition forward (cw : positive) (sess : positive) (sessionID : string)
    (ch : positive) (s : Shepherd) : Shepherd :=
  match heap_ s !! ch with
  | None => s
  | Some c =>
      match recv c with
      | (c, Received data) =>
          let s := set_heap (<[ch := c]> (heap_ s)) s in
          match conns s !! cw with
          | Some (mkConn _ false) => writeDataFrame cw frameData sessionID data s
          | _ => set_objs (alter (unsub ch) sess (objs s)) s
          end
      | (_, EndOfStream) => set_objs (alter (unsub ch) sess (objs s)) s
      | (_, WouldBlock) => s
      end
  end.

Definition handleList (cw : positive) (req : Request) (s : Shepherd) : Shepherd :=
  let ids := elements (dom (sessions s)) in
  sendResponse cw (mkResponse (req_ID req) evtList 0 "" "" [] ids) s.

Definition stopAll (s : Shepherd) : Shepherd :=
  let sessions := map_to_list (sessions s) in
  let s := set_sessions ∅ s in
  foldl (fun s kv => set_objs (alter stopSession (snd kv) (objs s)) s) s sessions.

Definition handleControl (os : OS) (cw : positive) (req : Request) (s : Shepherd)
  : Shepherd :=
  if decide (req_Command req = cmdPing) then
    sendResponse cw (mkResponse (req_ID req) evtPong 0 "" "" [] []) s
  else if decide (req_Command req = cmdStart) then handleStart os cw req s
  else if decide (req_Command req = cmdStop) then handleStop cw req s
  else if decide (req_Command req = cmdResize) then handleResize cw req s
  else if decide (req_Command req = cmdReplay) then handleReplay cw req s
  else if decide (req_Command req = cmdSubscribe) then handleSubscribe cw req s
  else if decide (req_Command req = cmdList) then handleList cw req s
  else if decide (req_Command req = cmdStopAll) then
    sendResponse cw (mkResponse (req_ID req) evtStopDone 0 "" "" [] []) (stopAll s)
  else s.

(** [handleInput]: the input reaches the PTY of a known session and is
    dropped otherwise; the table is not changed. *)
Definition handleInput (payload : list byte) (s : Shepherd) : option (positive * list byte) :=
  match parseDataPayload payload with
  | Err _ => None
  | Ok (sessionID, data) =>
      match sessions s !! sessionID with
      | None => None
      | Some sess => Some (sess, data)
      end
  end.

End Shepherd.

(** * internal/pty: the session-manager contract (interface.go) *)

(** [SessionHandle], implemented by [*pty.Session] and by
    [*shepherd.ProxySession]. [W] is the state the implementation works on
    and [H] the handle. A subscription is returned as the address of its
    channel; [Unsub] is the closure returned with it. [Done] reports
    whether the completion channel is closed. *)
Class SessionHandle (W H : Type) : Type := {
  Replay : OS -> H -> W -> W * list byte;
  Subscribe : OS -> H -> W -> W * positive;
  Unsub : H -> positive -> W -> W;
  Write : H -> list byte -> W -> W * result Z;
  Done : H -> W -> W * bool;
  (** the next chunk of a subscription, as [for data := range ch] sees it *)
  Next : positive -> W -> W * Chan.recvResult
}.

(** [SessionManager], implemented by [*pty.Manager] and by
    [*shepherd.Client]. *)
Class SessionManager (W H : Type) : Type := {
  Start : OS -> string -> string -> string -> W -> W * result (H * Z);
  Stop : OS -> string -> W -> W * option error;
  Get : string -> W -> option H;
  Resize : OS -> string -> Z -> Z -> W -> W * option error;
  StopAll : OS -> W -> W
}.

(** * internal/pty: session.go (the local backend) *)
Module Pty.
Import Chan.

Definition replayBufSize : Z := 100 * 1024.

Record Session : Type := mkSession {
  ID : string;
  pid : Z;
  signalled : bool;
  ptyClosed : bool;
  ptyInput : list byte;  (* what has been written to the PTY *)
  done : bool;
  stopped : bool;
  replayBuf : list byte;
  subscribers : gset positive
}.

Definition set_replayBuf (b : list byte) (s : Session) : Session :=
  mkSession (ID s) (pid s) (signalled s) (ptyClosed s) (ptyInput s) (done s)
    (stopped s) b (subscribers s).
Definition set_subscribers (x : gset positive) (s : Session) : Session :=
  mkSession (ID s) (pid s) (signalled s) (ptyClosed s) (ptyInput s) (done s)
    (stopped s) (replayBuf s) x.
Definition set_exited (s : Session) : Session :=
  mkSession (ID s) (pid s) (signalled s) (ptyClosed s) (ptyInput s) true
    true (replayBuf s) (subscribers s).
Definition terminate (s : Session) : Session :=
  mkSession (ID s) (pid s) true true (ptyInput s) (done s)
    (stopped s) (replayBuf s) (subscribers s).
Definition set_ptyInput (b : list byte) (s : Session) : Session :=
  mkSession (ID s) (pid s) (signalled s) (ptyClosed s) b (done s)
    (stopped s) (replayBuf s) (subscribers s).

Definition appendReplay (data : list byte) (s : Session) : Session :=
  let b := replayBuf s ++ data in
  if len b >? replayBufSize
  then set_replayBuf (drop (Z.to_nat (len b - replayBufSize)) b) s
  else set_replayBuf b s.

Definition broadcast (data : chunk) (s : Session) (h : heap) : heap :=
  set_fold (trySendAt data) h (subscribers s).

Record Manager : Type := mkManager {
  heap_ : heap;
  objs : gmap positive Session;
  sessions : gmap string positive
}.

Definition set_heap (h : heap) (m : Manager) : Manager :=
  mkManager h (objs m) (sessions m).
Definition set_objs (o : gmap positive Session) (m : Manager) : Manager :=
  mkManager (heap_ m) o (sessions m).
Definition set_sessions (t : gmap string positive) (m : Manager) : Manager :=
  mkManager (heap_ m) (objs m) t.

Definition NewManager : Manager := mkManager ∅ ∅ ∅.

(** Methods of [*Session]; the receiver is the address of the object. *)
Definition Session_Write (s : positive) (data : list byte) (m : Manager)
  : Manager * result Z :=
  match objs m !! s with
  | Some o =>
      if ptyClosed o then (m, Err ErrSessionShutdown)
      else (set_objs (<[s := set_ptyInput (ptyInput o ++ data) o]> (objs m)) m,
            Ok (len data))
  | None => (m, Err ErrSessionShutdown)
  end.

Definition Session_Done (s : positive) (m : Manager) : Manager * bool :=
  (m, match objs m !! s with Some o => done o | None => false end).

Definition Session_Replay (s : positive) (m : Manager) : Manager * list byte :=
  (m, match objs m !! s with Some o => replayBuf o | None => [] end).

Definition Session_Subscribe (s : positive) (m : Manager) : Manager * positive :=
  let '(ch, h) := alloc (heap_ m) (make 256) in
  (set_heap h
     (set_objs (alter (fun o => set_subscribers ({[ch]} ∪ subscribers o) o) s
                  (objs m)) m),
   ch).

Definition Session_unsub (s : positive) (ch : positive) (m : Manager) : Manager :=
  set_objs (alter (fun o => set_subscribers (subscribers o ∖ {[ch]}) o) s (objs m)) m.

Definition chanNext (ch : positive) (m : Manager) : Manager * recvResult :=
  match heap_ m !! ch with
  | None => (m, WouldBlock)
  | Some c => let '(c, r) := recv c in (set_heap (<[ch := c]> (heap_ m)) m, r)
  end.

(** One iteration of the PTY reader goroutine of [Start] with [n > 0]. *)
Definition ptyRead (s : positive) (data : list byte) (m : Manager) : Manager :=
  match objs m !! s with
  | None => m
  | Some o =>
      let o := appendReplay data o in
      set_heap (broadcast data o (heap_ m)) (set_objs (<[s := o]> (objs m)) m)
  end.

(** The PTY reader goroutine after its loop. *)
Definition ptyEOF (s : positive) (m : Manager) : Manager :=
  match objs m !! s with
  | None => m
  | Some o =>
      set_heap (set_fold closeAt (heap_ m) (subscribers o))
        (set_objs (<[s := set_subscribers ∅ o]> (objs m)) m)
  end.

(** The goroutine of [Start] that waits for the child. *)
Definition reap (s : positive) (m : Manager) : Manager :=
  set_objs (alter set_exited s (objs m)) m.

Definition Manager_Start (os : OS) (id cliType workDir : string) (m : Manager)
  : Manager * result (positive * Z) :=
  match startWithSize os cliType workDir with
  | Err e => (m, Err e)
  | Ok child =>
      let sess := fresh (dom (objs m)) in
      let o := mkSession id child false false [] false false [] ∅ in
      let m := set_objs (<[sess := o]> (objs m)) m in
      let m := set_sessions (<[id := sess]> (sessions m)) m in
      (m, Ok (sess, child))
  end.

Definition Manager_Get (id : string) (m : Manager) : option positive :=
  sessions m !! id.

Definition getSession (id : string) (m : Manager) : option positive :=
  sessions m !! id.

Definition Manager_Stop (id : string) (m : Manager) : Manager * option error :=
  match sessions m !! id with
  | None => (m, None)
  | Some sess =>
      let m := set_sessions (delete id (sessions m)) m in
      (set_objs (alter (fun o => if stopped o then o else terminate o) sess
                   (objs m)) m,
       None)
  end.

Definition Manager_Resize (id : string) (rows cols : Z) (m : Manager)
  : Manager * option error :=
  match getSession id m with
  | None => (m, Some (ErrSessionNotFound id))
  | Some sess =>
      match objs m !! sess with
      | Some o => (m, if ptyClosed o then Some ErrSessionShutdown else None)
      | None => (m, Some ErrSessionShutdown)
      end
  end.

Definition Manager_StopAll (m : Manager) : Manager :=
  let ids := elements (dom (sessions m)) in
  foldl (fun m id => fst (Manager_Stop id m)) m ids.

Definition ListActive (m : Manager) : list string := elements (dom (sessions m)).

#[global] Instance Session_SessionHandle : SessionHandle Manager positive := {
  Replay _ := Session_Replay;
  Subscribe _ := Session_Subscribe;
  Unsub := Session_unsub;
  Write := Session_Write;
  Done := Session_Done;
  Next := chanNext
}.

#[global] Instance Manager_SessionManager : SessionManager Manager positive := {
  Start := Manager_Start;
  Stop _ := Manager_Stop;
  Get := Manager_Get;
  Resize _ := Manager_Resize;
  StopAll _ := Manager_StopAll
}.

End Pty.

(** * internal/shepherd/client.go (the supervisor-client backend) *)
Module Client.
Import Protocol Chan.

(** What the client has written to its connection. *)
Inductive outFrame : Type :=
| OControl (req : Request)
| OBytes (frameType : byte) (payload : list byte).

Record Client : Type := mkClient {
  conn : positive;  (* the connection, by its address in the supervisor *)
  written : list outFrame;
  nread : nat;      (* frames of the connection consumed by [readLoop] *)
  sessionSubs : gmap string (list positive);
  sessionDone : gmap string positive;
  shepherdSubbed : gmap string bool;
  reqCounter : Z;
  closed : bool;
  heap_ : heap      (* subscriber channels and done channels *)
}.

Definition set_written (x : list outFrame) (c : Client) : Client :=
  mkClient (conn c) x (nread c) (sessionSubs c) (sessionDone c)
    (shepherdSubbed c) (reqCounter c) (closed c) (heap_ c).
Definition set_nread (x : nat) (c : Client) : Client :=
  mkClient (conn c) (written c) x (sessionSubs c) (sessionDone c)
    (shepherdSubbed c) (reqCounter c) (closed c) (heap_ c).
Definition set_sessionSubs (x : gmap string (list positive)) (c : Client) : Client :=
  mkClient (conn c) (written c) (nread c) x (sessionDone c)
    (shepherdSubbed c) (reqCounter c) (closed c) (heap_ c).
Definition set_sessionDone (x : gmap string positive) (c : Client) : Client :=
  mkClient (conn c) (written c) (nread c) (sessionSubs c) x
    (shepherdSubbed c) (reqCounter c) (closed c) (heap_ c).
Definition set_shepherdSubbed (x : gmap string bool) (c : Client) : Client :=
  mkClient (conn c) (written c) (nread c) (sessionSubs c) (sessionDone c)
    x (reqCounter c) (closed c) (heap_ c).
Definition set_reqCounter (x : Z) (c : Client) : Client :=
  mkClient (conn c) (written c) (nread c) (sessionSubs c) (sessionDone c)
    (shepherdSubbed c) x (closed c) (heap_ c).
Definition set_closed (x : bool) (c : Client) : Client :=
  mkClient (conn c) (written c) (nread c) (sessionSubs c) (sessionDone c)
    (shepherdSubbed c) (reqCounter c) x (heap_ c).
Definition set_heap (x : heap) (c : Client) : Client :=
  mkClient (conn c) (written c) (nread c) (sessionSubs c) (sessionDone c)
    (shepherdSubbed c) (reqCounter c) (closed c) x.

(** The client together with the supervisor it is connected to. *)
Record World : Type := mkWorld {
  client : Client;
  shepherd : Shepherd.Shepherd
}.

(** [NewClient]: dial the socket, which the supervisor accepts. *)
Definition NewClient (s : Shepherd.Shepherd) : World :=
  let '(cw, s) := Shepherd.accept s in
  mkWorld (mkClient cw [] 0 ∅ ∅ ∅ 0 false ∅) s.

Definition Close (c : Client) : Client := set_closed true c.

Definition set_ID (i : string) (r : Request) : Request :=
  mkRequest i (req_Command r) (req_SessionID r) (req_CLIType r)
    (req_WorkDir r) (req_Rows r) (req_Cols r).

(** [fmt.Sprintf("r%d", n)] *)
Definition reqID (n : Z) : string := "r" +:+ pretty n.

(** [close(done)] unless it is closed already. *)
Definition closeDone (sessionID : string) (c : Client) : Client :=
  match sessionDone c !! sessionID with
  | Some d => set_heap (closeAt d (heap_ c)) c
  | None => c
  end.

Definition handleDataFrame (payload : list byte) (c : Client) : Client :=
  match parseDataPayload payload with
  | Err _ => c
  | Ok (sessionID, data) =>
      let subs := default [] (sessionSubs c !! sessionID) in
      set_heap (foldl (fun h ch => trySendAt data ch h) (heap_ c) subs) c
  end.

Definition isExitNotification (resp : Response) : bool :=
  bool_decide (resp_Event resp = evtExited) && bool_decide (resp_ID resp = ""%string).

(** [readLoop] while one request with identifier [id] is pending: frames
    are consumed in order until the response with that identifier has
    been routed to the waiter. Exit notifications close a done channel,
    data frames go to the subscribers, a response nobody waits for is
    dropped. [None]: the frames end before the response arrives. *)
Fixpoint readUntil (id : string) (frames : list Shepherd.frame) (c : Client)
  : Client * option Response :=
  match frames with
  | [] => (c, None)
  | f :: rest =>
      let c := set_nread (S (nread c)) c in
      match f with
      | Shepherd.FControl resp =>
          if isExitNotification resp
          then readUntil id rest (closeDone (resp_SessionID resp) c)
          else if decide (resp_ID resp = id) then (c, Some resp)
          else readUntil id rest c
      | Shepherd.FBytes t payload =>
          if decide (t = frameData)
          then readUntil id rest (handleDataFrame payload c)
          else readUntil id rest c
      end
  end.

(** The frames the supervisor has written to the connection and that
    [readLoop] has not consumed yet. *)
Definition unread (c : Client) (s : Shepherd.Shepherd) : list Shepherd.frame :=
  match Shepherd.conns s !! conn c with
  | Some cw => drop (nread c) (Shepherd.sent cw)
  | None => []
  end.

(** [sendRequest]: the request is numbered and written, the supervisor
    handles it, and the caller waits for the response with its number.
    When no such response arrives the wait only ends when the client is
    closed. *)
Definition sendRequest (os : OS) (req : Request) (w : World)
  : World * result Response :=
  let c := client w in
  let n := reqCounter c + 1 in
  let c := set_reqCounter n c in
  let req := set_ID (reqID n) req in
  if closed c then (mkWorld c (shepherd w), Err ErrClientClosed)
  else
    let c := set_written (written c ++ [OControl req]) c in
    let s := Shepherd.handleControl os (conn c) req (shepherd w) in
    match readUntil (req_ID req) (unread c s) c with
    | (c, Some resp) => (mkWorld c s, Ok resp)
    | (c, None) => (mkWorld c s, Err ErrClientClosed)
    end.

Definition set_client (c : Client) (w : World) : World := mkWorld c (shepherd w).

(** The handle [&ProxySession{client: c, sessionID: id}]. *)
Definition ProxySession : Type := string.

Definition Client_Start (os : OS) (id cliType workDir : string) (w : World)
  : World * result (ProxySession * Z) :=
  let c := client w in
  let '(d, h) := alloc (heap_ c) (make 0) in
  let c := set_sessionDone (<[id := d]> (sessionDone c)) (set_heap h c) in
  let forget (w : World) :=
    set_client (set_sessionDone (delete id (sessionDone (client w))) (client w)) w in
  match sendRequest os (mkRequest "" cmdStart id cliType workDir 0 0) (set_client c w) with
  | (w, Err e) => (forget w, Err e)
  | (w, Ok resp) =>
      if decide (resp_Event resp = evtError)
      then (forget w, Err (ErrShepherd (resp_Error resp)))
      else (w, Ok (id, resp_PID resp))
  end.

Definition Client_Stop (os : OS) (id : string) (w : World) : World * option error :=
  match sendRequest os (mkRequest "" cmdStop id "" "" 0 0) w with
  | (w, Err e) => (w, Some e)
  | (w, Ok resp) =>
      if decide (resp_Event resp = evtError)
      then (w, Some (ErrShepherd (resp_Error resp)))
      else
        let c := closeDone id (client w) in
        let c := set_sessionDone (delete id (sessionDone c)) c in
        let c := set_sessionSubs (delete id (sessionSubs c)) c in
        let c := set_shepherdSubbed (delete id (shepherdSubbed c)) c in
        (set_client c w, None)
  end.

Definition Client_Get (id : string) (w : World) : option ProxySession :=
  match sessionDone (client w) !! id with
  | Some _ => Some id
  | None => None
  end.

Definition Client_Resize (os : OS) (id : string) (rows cols : Z) (w : World)
  : World * option error :=
  match sendRequest os (mkRequest "" cmdResize id "" "" rows cols) w with
  | (w, Err e) => (w, Some e)
  | (w, Ok resp) =>
      if decide (resp_Event resp = evtError)
      then (w, Some (ErrShepherd (resp_Error resp)))
      else (w, None)
  end.

Definition Client_StopAll (os : OS) (w : World) : World :=
  fst (sendRequest os (mkRequest "" cmdStopAll "" "" "" 0 0) w).

Definition writeInput (sessionID : string) (data : list byte) (c : Client)
  : Client * option error :=
  if closed c then (c, Some ErrClientClosed)
  else (set_written
          (written c ++ [OBytes frameInput (dataFramePayload sessionID data)]) c,
        None).

Definition subscribe (os : OS) (sessionID : string) (w : World) : World * positive :=
  let c := client w in
  let '(ch, h) := alloc (heap_ c) (make 256) in
  let c := set_heap h c in
  let c := set_sessionSubs
             (<[sessionID := default [] (sessionSubs c !! sessionID) ++ [ch]]>
                (sessionSubs c)) c in
  let needSubscribe := negb (default false (shepherdSubbed c !! sessionID)) in
  let c := if needSubscribe
           then set_shepherdSubbed (<[sessionID := true]> (shepherdSubbed c)) c
           else c in
  let w := set_client c w in
  let w := if needSubscribe
           then fst (sendRequest os (mkRequest "" cmdSubscribe sessionID "" "" 0 0) w)
           else w in
  (w, ch).

(** [append(subs[:i], subs[i+1:]...)] at the first [i] with [subs[i] == ch]. *)
Fixpoint removeFirst (ch : positive) (subs : list positive) : list positive :=
  match subs with
  | [] => []
  | s :: rest => if decide (s = ch) then rest else s :: removeFirst ch rest
  end.

Definition unsub (sessionID : string) (ch : positive) (c : Client) : Client :=
  match sessionSubs c !! sessionID with
  | None => c
  | Some subs =>
      if decide (ch ∈ subs)
      then set_sessionSubs (<[sessionID := removeFirst ch subs]> (sessionSubs c)) c
      else c
  end.

Definition replay (os : OS) (sessionID : string) (w : World) : World * list byte :=
  match sendRequest os (mkRequest "" cmdReplay sessionID "" "" 0 0) w with
  | (w, Err _) => (w, [])
  | (w, Ok resp) => (w, resp_Data resp)
  end.

(** [Done]: the done channel of the session, created when there is none. *)
Definition Client_Done (sessionID : string) (c : Client) : Client * positive :=
  match sessionDone c !! sessionID with
  | Some d => (c, d)
  | None =>
      let '(d, h) := alloc (heap_ c) (make 0) in
      (set_sessionDone (<[sessionID := d]> (sessionDone c)) (set_heap h c), d)
  end.

Definition chanNext (ch : positive) (w : World) : World * recvResult :=
  match heap_ (client w) !! ch with
  | None => (w, WouldBlock)
  | Some c =>
      let '(c, r) := recv c in
      (set_client (set_heap (<[ch := c]> (heap_ (client w))) (client w)) w, r)
  end.

(** One iteration of [readLoop] on a frame that no request is waiting
    for: an exit notification closes the done channel, a data frame goes
    to the subscribers, anything else is dropped. *)
Definition dispatch (c : Client) (f : Shepherd.frame) : Client :=
  let c := set_nread (S (nread c)) c in
  match f with
  | Shepherd.FControl resp =>
      if isExitNotification resp then closeDone (resp_SessionID resp) c else c
  | Shepherd.FBytes t payload =>
      if decide (t = frameData) then handleDataFrame payload c else c
  end.

(** [readLoop] run until the connection has nothing more to deliver. *)
Definition readLoop (w : World) : World :=
  set_client (foldl dispatch (client w) (unread (client w) (shepherd w))) w.

(** [Ping] *)
Definition Ping (os : OS) (w : World) : World * option error :=
  match sendRequest os (mkRequest "" cmdPing "" "" "" 0 0) w with
  | (w, Err e) => (w, Some e)
  | (w, Ok resp) =>
      if decide (resp_Event resp = evtPong) then (w, None)
      else (w, Some (ErrShepherd (resp_Event resp)))
  end.

(** [ListSessions] *)
Definition ListSessions (os : OS) (w : World) : World * result (list string) :=
  match sendRequest os (mkRequest "" cmdList "" "" "" 0 0) w with
  | (w, Err e) => (w, Err e)
  | (w, Ok resp) => (w, Ok (resp_Sessions resp))
  end.

#[global] Instance ProxySession_SessionHandle : SessionHandle World ProxySession := {
  Replay os p w := replay os p w;
  Subscribe os p w := subscribe os p w;
  Unsub p ch w := set_client (unsub p ch (client w)) w;
  Write p data w :=
    match writeInput p data (client w) with
    | (c, Some e) => (set_client c w, Err e)
    | (c, None) => (set_client c w, Ok (len data))
    end;
  Done p w :=
    let '(c, d) := Client_Done p (client w) in
    (set_client c w,
     match heap_ c !! d with Some ch => Chan.closed ch | None => false end);
  Next := chanNext
}.

#[global] Instance Client_SessionManager : SessionManager World ProxySession := {
  Start := Client_Start;
  Stop := Client_Stop;
  Get := Client_Get;
  Resize := Client_Resize;
  StopAll := Client_StopAll
}.

End Client.

(** * internal/ws/handler.go (the WebSocket terminal bridge)

    [ServeHTTP] runs one main goroutine and, once subscribed, an output
    pump, a ping ticker and an input pump. Each label below is one step of
    one of them; a run is a sequence of labels, so every interleaving with
    the rest of the program ([LEnv]) is covered. The handler is written
    against the [SessionManager] and [SessionHandle] interfaces. (The
    earlier version of the file is the same without the ping ticker and
    the deadlines.) *)
Module Ws.
Import Chan.

(** Calls on the session and messages that reached the browser, in the
    order in which they happened. *)
Inductive event : Type :=
| CallReplay (snapshot : list byte)
| WriteReplay (data : list byte)      (* BinaryMessage carrying the replay *)
| CallSubscribe (ch : positive)
| WriteOutput (data : list byte)      (* BinaryMessage carrying a chunk of outputCh *)
| WritePing
| WriteClose (reason : string)
| CallWrite (data : list byte)
| CallResize (rows cols : Z)
| CallUnsub (ch : positive).

(** What [conn.ReadMessage] returns to the input pump. *)
Inductive inbound : Type :=
| InBinary (msg : list byte)
| InResize (rows cols : Z)   (* a text message that parses as a resize *)
| InOtherText
| InError.

(** Where the main goroutine is. *)
Inductive pc : Type :=
| Replaying                       (* about to call sess.Replay() *)
| GotReplay (replay : list byte)  (* about to send the replay *)
| Subscribing                     (* about to call sess.Subscribe() *)
| Serving (ch : positive)         (* in the final select *)
| Waiting (ch : positive)         (* in wg.Wait() *)
| Returned.

Record bridge : Type := mkBridge {
  at_ : pc;
  pumpRunning : bool;
  pingRunning : bool;
  inputRunning : bool;  (* the [done] channel of the handler is open *)
  trace : list event
}.

Definition set_at (p : pc) (b : bridge) : bridge :=
  mkBridge p (pumpRunning b) (pingRunning b) (inputRunning b) (trace b).
Definition log (e : event) (b : bridge) : bridge :=
  mkBridge (at_ b) (pumpRunning b) (pingRunning b) (inputRunning b) (trace b ++ [e]).
Definition stopPump (b : bridge) : bridge :=
  mkBridge (at_ b) false (pingRunning b) (inputRunning b) (trace b).
Definition stopPing (b : bridge) : bridge :=
  mkBridge (at_ b) (pumpRunning b) false (inputRunning b) (trace b).
Definition stopInput (b : bridge) : bridge :=
  mkBridge (at_ b) (pumpRunning b) (pingRunning b) false (trace b).
Definition startGoroutines (ch : positive) (b : bridge) : bridge :=
  mkBridge (Serving ch) true true true (trace b).

Inductive label (W : Type) : Type :=
| LMain (writeOk : bool)      (* next statement of the main goroutine *)
| LPump (writeOk : bool)      (* one iteration of the output pump *)
| LPing (writeOk : bool)      (* the ticker fires *)
| LInput (m : inbound)        (* one iteration of the input pump *)
| LEnv (f : W -> W).          (* a step of the rest of the program *)
Arguments LMain {W} writeOk.
Arguments LPump {W} writeOk.
Arguments LPing {W} writeOk.
Arguments LInput {W} m.
Arguments LEnv {W} f.

Section Handler.
Context {W H : Type} `{!SessionHandle W H} `{!SessionManager W H}.
Variable os : OS.

(** [ServeHTTP] up to the upgrade: the status it answers with, or the
    handle it goes on with. *)
Definition attach (sessionID : string) (w : W) : H + Z :=
  if decide (sessionID = ""%string) then inr 400
  else match Get sessionID w with
       | None => inr 404
       | Some sess => inl sess
       end.

(** The bridge after a successful upgrade. *)
Definition connected : bridge := mkBridge Replaying false false false [].

Definition mainStep (sessionID : string) (sess : H) (writeOk : bool)
    (w : W) (b : bridge) : W * bridge :=
  match at_ b with
  | Replaying =>
      let '(w, replay) := Replay os sess w in
      (w, set_at (GotReplay replay) (log (CallReplay replay) b))
  | GotReplay replay =>
      if len replay >? 0
      then if writeOk
           then (w, set_at Subscribing (log (WriteReplay replay) b))
           else (w, set_at Returned b)
      else (w, set_at Subscribing b)
  | Subscribing =>
      let '(w, ch) := Subscribe os sess w in
      (w, startGoroutines ch (log (CallSubscribe ch) b))
  | Serving ch =>
      if inputRunning b
      then let '(w, d) := Done sess w in
           if d then (w, set_at (Waiting ch) (log (WriteClose "session ended") b))
           else (w, b)
      else (w, set_at (Waiting ch) b)
  | Waiting ch =>
      if pumpRunning b || pingRunning b || inputRunning b then (w, b)
      else (Unsub sess ch w, set_at Returned (log (CallUnsub ch) b))
  | Returned => (w, b)
  end.

Definition subscription (b : bridge) : option positive :=
  match at_ b with
  | Serving ch | Waiting ch => Some ch
  | _ => None
  end.

Definition pumpStep (writeOk : bool) (w : W) (b : bridge) : W * bridge :=
  match subscription b with
  | Some ch =>
      if pumpRunning b
      then match Next ch w with
           | (w, Received data) =>
               if writeOk then (w, log (WriteOutput data) b) else (w, stopPump b)
           | (w, EndOfStream) => (w, stopPump b)
           | (w, WouldBlock) => (w, b)
           end
      else (w, b)
  | None => (w, b)
  end.

Definition pingStep (sess : H) (writeOk : bool) (w : W) (b : bridge) : W * bridge :=
  match subscription b with
  | Some _ =>
      if pingRunning b
      then if inputRunning b
           then let '(w, d) := Done sess w in
                if d then (w, stopPing b)
                else if writeOk then (w, log WritePing b) else (w, stopPing b)
           else (w, stopPing b)
      else (w, b)
  | None => (w, b)
  end.

Definition inputStep (sessionID : string) (sess : H) (m : inbound)
    (w : W) (b : bridge) : W * bridge :=
  match subscription b with
  | Some _ =>
      if inputRunning b
      then match m with
           | InBinary msg => ((Write sess msg w).1, log (CallWrite msg) b)
           | InResize rows cols =>
               ((Resize os sessionID rows cols w).1, log (CallResize rows cols) b)
           | InOtherText => (w, b)
           | InError => (w, stopInput b)
           end
      else (w, b)
  | None => (w, b)
  end.

Definition step (sessionID : string) (sess : H) (l : label W) (st : W * bridge)
  : W * bridge :=
  let '(w, b) := st in
  match l with
  | LMain ok => mainStep sessionID sess ok w b
  | LPump ok => pumpStep ok w b
  | LPing ok => pingStep sess ok w b
  | LInput m => inputStep sessionID sess m w b
  | LEnv f => (f w, b)
  end.

Definition run (sessionID : string) (sess : H) (ls : list (label W)) (w : W)
  : W * bridge :=
  foldl (fun st l => step sessionID sess l st) (w, connected) ls.

End Handler.

End Ws.

(** * internal/gateway: tunnel.go and proxy.go *)
Module Gateway.

(** The yamux session of the tunnel, as far as the gateway uses it. *)
Record yamuxSession : Type := mkYamux {
  isClosed : bool;
  opened : nat   (* streams opened so far *)
}.

Record Tunnel : Type := mkTunnel {
  secret : string;
  session : option yamuxSession
}.

Definition NewTunnel (secret : string) : Tunnel := mkTunnel secret None.


Definition Connected (t : Tunnel) : bool :=
  match session t with
  | Some s => negb (isClosed s)
  | None => false
  end.

Record Request : Type := mkRequest {
  path : string;      (* r.URL.Path *)
  upgrade : string    (* r.Header.Get("Upgrade") *)
}.





(** What the user's connection gets. [HttpError msg code] is the call
    [http.Error(w, msg, code)] of net/http, which answers with status
    [code] and the text [msg] (followed by a line end) as the body. *)
Inductive reply : Type :=
| ServeSPA
| HttpError (msg : string) (code : Z)
| Forward (status : Z) (body : list byte)
| Piped (stream : nat)
| ConnClosed.




End Gateway.

(** * internal/gateway/tunnel.go: the handler of the tunnel endpoint *)
Module TunnelHandler.

(** The tunnel with its yamux sessions as objects: [session] is the
    pointer [t.session], and the handlers compare it by identity. *)
Record Tunnel : Type := mkTunnel {
  secret : string;
  yamux : gmap positive Gateway.yamuxSession;
  session : option positive
}.

Definition NewTunnel (secret : string) : Tunnel := mkTunnel secret ∅ None.

(** What [OpenStream] and [Connected] see of it. *)
Definition view (t : Tunnel) : Gateway.Tunnel :=
  Gateway.mkTunnel (secret t) (session t ≫= fun p => yamux t !! p).

(** [session.Close()], also when the peer or the network ends it. *)
Definition closeSession (p : positive) (t : Tunnel) : Tunnel :=
  mkTunnel (secret t)
    (alter (fun y => Gateway.mkYamux true (Gateway.opened y)) p (yamux t))
    (session t).

(** Where one call of the handler is. *)
Inductive pc : Type :=
| Entered (header : string)   (* the value of X-Gateway-Secret *)
| Upgrading
| ClosingOld
| StartingYamux
| Installing (s : positive)
| Blocked (s : positive)      (* in <-session.CloseChan() *)
| Clearing (s : positive)
| Returned (status : option Z).

Definition StatusForbidden : Z := 403.

(** The next statement of a handler; [ok] tells whether the upgrade or
    [yamux.Client] succeeds when that is the statement. *)
Definition handlerStep (ok : bool) (p : pc) (t : Tunnel) : pc * Tunnel :=
  match p with
  | Entered header =>
      if decide (header = secret t) then (Upgrading, t)
      else (Returned (Some StatusForbidden), t)
  | Upgrading => if ok then (ClosingOld, t) else (Returned None, t)
  | ClosingOld =>
      match session t with
      | Some old => (StartingYamux, closeSession old t)
      | None => (StartingYamux, t)
      end
  | StartingYamux =>
      if ok
      then let s := fresh (dom (yamux t)) in
           (Installing s,
            mkTunnel (secret t) (<[s := Gateway.mkYamux false 0]> (yamux t)) (session t))
      else (Returned None, t)
  | Installing s => (Blocked s, mkTunnel (secret t) (yamux t) (Some s))
  | Blocked s =>
      match yamux t !! s with
      | Some y => if Gateway.isClosed y then (Clearing s, t) else (Blocked s, t)
      | None => (Blocked s, t)
      end
  | Clearing s =>
      if decide (session t = Some s)
      then (Returned None, mkTunnel (secret t) (yamux t) None)
      else (Returned None, t)
  | Returned status => (Returned status, t)
  end.

(** The endpoint under concurrent requests: a request arrives, a handler
    makes its next step, or a session ends by itself. *)
Inductive label : Type :=
| LNew (header : string)
| LStep (i : nat) (ok : bool)
| LClose (s : positive).

Definition step (l : label) (st : list pc * Tunnel) : list pc * Tunnel :=
  let '(hs, t) := st in
  match l with
  | LNew header => (hs ++ [Entered header], t)
  | LStep i ok =>
      match hs !! i with
      | Some p => let '(p, t) := handlerStep ok p t in (<[i := p]> hs, t)
      | None => (hs, t)
      end
  | LClose s => (hs, closeSession s t)
  end.

Definition run (ls : list label) (st : list pc * Tunnel) : list pc * Tunnel :=
  foldl (fun st l => step l st) st ls.

End TunnelHandler.

(** * internal/gateway/auth.go and the wiring of gateway.go *)
Module Auth.

(** [strings.Cut(s, "|")]: the text before the first bar and the text
    after it. *)
Fixpoint cut (s : string) : option (string * string) :=
  match s with
  | EmptyString => None
  | String c s =>
      if Ascii.eqb c "|" then Some (EmptyString, s)
      else match cut s with
           | Some (a, b) => Some (String c a, b)
           | None => None
           end
  end.

(** [strings.SplitN(s, "|", 3)] *)
Definition SplitN3 (s : string) : list string :=
  match cut s with
  | None => [s]
  | Some (a, r) =>
      match cut r with
      | None => [a; r]
      | Some (b, c) => [a; b; c]
      end
  end.


Record Auth : Type := mkAuth {
  username : string;
  password : string;
  hmacKey : list byte
}.

Section Crypto.

(** [hex.EncodeToString] of the HMAC-SHA256 of a payload under a key. *)
Variable hmacHex : list byte -> string -> string.

(** What [fmt.Sscanf(s, "%d", &expiry)] leaves in [expiry], which is 0
    before the call. *)
Variable Sscanf_d : string -> Z.

(** [signSession]; [expires] is [expires.Unix()]. *)
Definition signSession (a : Auth) (user : string) (expires : Z) : string :=
  let payload := user +:+ "|" +:+ pretty expires in
  let sig := hmacHex (hmacKey a) payload in
  payload +:+ "|" +:+ sig.

(** [validSession]; [now] is [time.Now().Unix()] and [cookie] the value
    of the session cookie, if the request has one. *)
Definition validSession (a : Auth) (now : Z) (cookie : option string) : bool :=
  match cookie with
  | None => false
  | Some value =>
      match SplitN3 value with
      | [p0; p1; sig] =>
          let payload := p0 +:+ "|" +:+ p1 in
          let expectedSig := hmacHex (hmacKey a) payload in
          if negb (bool_decide (sig = expectedSig)) then false
          else if negb (bool_decide (p0 = username a)) then false
          else if now >? Sscanf_d p1 then false
          else true
      | _ => false
      end
  end.








End Crypto.

End Auth.

(** * internal/tunnel/client.go (the reverse-tunnel client) *)
Module TunnelClient.

(** [time.Second], a [time.Duration] in nanoseconds. *)
Definition Second : Z := 1000000000.

(** What one call of [connect] meets: the dial fails, [yamux.Server]
    fails, or the tunnel is established, [streams] streams are accepted
    and handled, and [Accept] then fails because the session has ended. *)
Inductive attempt : Type :=
| DialFails
| YamuxFails
| Connected (streams : nat).

Inductive connectError : Type :=
| ErrDialGateway
| ErrYamuxServer
| ErrAcceptStream.

(** [connect]: the returned error; [None] is [nil]. *)
Definition connect (a : attempt) : option connectError :=
  match a with
  | DialFails => Some ErrDialGateway
  | YamuxFails => Some ErrYamuxServer
  | Connected _ => Some ErrAcceptStream
  end.

(** The loop of [Run] over the successive calls of [connect]; the result
    lists the arguments of [time.Sleep] in order. *)
Fixpoint Run_loop (backoff maxBackoff : Z) (attempts : list attempt) : list Z :=
  match attempts with
  | [] => []
  | a :: attempts =>
      match connect a with
      | Some err => backoff :: Run_loop (Z.min (backoff * 2) maxBackoff) maxBackoff attempts
      | None => Run_loop Second maxBackoff attempts
      end
  end.

Definition Run (attempts : list attempt) : list Z :=
  let backoff := Second in
  let maxBackoff := 30 * Second in
  Run_loop backoff maxBackoff attempts.

End TunnelClient.

(** * internal/tunnel/wsconn.go (the byte stream over WebSocket messages) *)
Module WSConn.

(** The adapter: the bytes left over from a partial read, and the
    messages that [conn.ReadMessage] will return, in order; after the last
    one it fails. *)
Record WSConn : Type := mkWSConn {
  buf : list byte;
  incoming : list (list byte)
}.

(** [Read(p)] with [len(p) = n]: the bytes copied into [p], or the error
    of [ReadMessage]. *)
Definition Read (n : nat) (w : WSConn) : WSConn * result (list byte) :=
  match buf w with
  | _ :: _ => (mkWSConn (drop n (buf w)) (incoming w), Ok (take n (buf w)))
  | [] =>
      match incoming w with
      | [] => (w, Err EOF)
      | msg :: rest =>
          (mkWSConn (if (n <? length msg)%nat then drop n msg else buf w) rest,
           Ok (take n msg))
      end
  end.

(** [Write(p)]: one binary message that carries [p], appended to what
    the peer will read. *)
Definition Write (p : list byte) (wire : list (list byte)) : list (list byte) :=
  wire ++ [p].

(** Successive reads with buffers of the given sizes, up to the first
    error: the bytes they returned, in order. *)
Fixpoint reads (sizes : list nat) (w : WSConn) : WSConn * list byte :=
  match sizes with
  | [] => (w, [])
  | n :: sizes =>
      match Read n w with
      | (w, Err _) => (w, [])
      | (w, Ok bytes) => let '(w, more) := reads sizes w in (w, bytes ++ more)
      end
  end.

End WSConn.

(** * internal/api/sessions.go: creating and deleting sessions over HTTP *)
Module Api.

(** The columns of [repositories] and [sessions] that the handlers use;
    both tables are keyed by their id. *)
Record repository : Type := mkRepository {
  local_path : string;
  clone_status : string
}.

Record sessionRow : Type := mkSessionRow {
  repo_id : Z;
  worktree_path : string;
  branch : string;
  cli_type : string;
  status : string;
  pid : Z
}.

(** The server around the session manager [W]: the two tables, and the
    worktrees and branches that exist in the bare repositories (by the
    path of the repository). *)
Record App (W : Type) : Type := mkApp {
  manager : W;
  repositories : gmap Z repository;
  sessions : gmap string sessionRow;
  worktrees : gset (string * string);
  branches : gset (string * string)
}.
Arguments mkApp {W} manager repositories sessions worktrees branches.
Arguments manager {W} a.
Arguments repositories {W} a.
Arguments sessions {W} a.
Arguments worktrees {W} a.
Arguments branches {W} a.

(** The body of [POST /api/sessions]. *)
Record createBody : Type := mkCreateBody {
  decodeOk : bool;
  body_repo_id : Z;
  source_branch : string;
  new_branch : string;
  body_cli_type : string
}.

(** What the handler gets from outside: the first eight characters of a
    new UUID, the worktree path [filepath.Join(wtDir, sessionID)] or the
    error of [git.WorktreesDir], and the error of [git.AddWorktree], if
    any. *)
Record outside : Type := mkOutside {
  newID : string;
  worktreePath : result string;
  addWorktree : option error
}.

(** [WriteErrorOf code prefix e] is [WriteError] with a message made of
    [prefix] and the text of the error [e]. *)
Inductive reply : Type :=
| WriteError (code : Z) (msg : string)
| WriteErrorOf (code : Z) (prefix : string) (e : error)
| Created (id : string) (row : sessionRow)
| NoContent.

(** [INSERT INTO sessions]: refused when the id is taken; the handler
    does not look at the result. *)
Definition insertSession {W : Type} (id : string) (row : sessionRow) (a : App W)
  : App W :=
  match sessions a !! id with
  | Some _ => a
  | None =>
      mkApp (manager a) (repositories a) (<[id := row]> (sessions a))
        (worktrees a) (branches a)
  end.

(** [strconv.ParseBool] *)
Definition ParseBool (raw : string) : option bool :=
  if bool_decide (raw ∈ ["1"; "t"; "T"; "TRUE"; "true"; "True"]%string) then Some true
  else if bool_decide (raw ∈ ["0"; "f"; "F"; "FALSE"; "false"; "False"]%string)
       then Some false
       else None.

Section Handlers.
Context {W H : Type} `{!SessionHandle W H} `{!SessionManager W H}.
Variable os : OS.

Definition HandleCreate (out : outside) (body : createBody) (a : App W)
  : App W * reply :=
  if negb (decodeOk body) then (a, WriteError 400 "invalid JSON")
  else if negb (bool_decide (body_cli_type body ∈ ["claude"; "codex"; "gemini"]%string))
  then (a, WriteError 400 "cli_type must be 'claude', 'codex', or 'gemini'")
  else if bool_decide (source_branch body = ""%string)
  then (a, WriteError 400 "source_branch is required")
  else if bool_decide (new_branch body = ""%string)
  then (a, WriteError 400 "new_branch is required")
  else
    match repositories a !! body_repo_id body with
    | None => (a, WriteError 404 "repository not found")
    | Some repo =>
        if negb (bool_decide (clone_status repo = "ready"%string))
        then (a, WriteError 400 "repository not ready")
        else
          match worktreePath out with
          | Err e => (a, WriteErrorOf 500 "" e)
          | Ok path =>
              match addWorktree out with
              | Some e => (a, WriteErrorOf 500 "create worktree: " e)
              | None =>
                let wt := (local_path repo, path) in
                let br := (local_path repo, new_branch body) in
                match Start os (newID out) (body_cli_type body) path (manager a) with
                | (m, Err e) =>
                    (* git.RemoveWorktree; the branch stays *)
                    (mkApp m (repositories a) (sessions a)
                       (worktrees a ∖ {[wt]}) ({[br]} ∪ branches a),
                     WriteErrorOf 500 "start session: " e)
                | (m, Ok (_, child)) =>
                    let row := mkSessionRow (body_repo_id body) path (new_branch body)
                                 (body_cli_type body) "running" child in
                    (insertSession (newID out) row
                       (mkApp m (repositories a) (sessions a)
                          ({[wt]} ∪ worktrees a) ({[br]} ∪ branches a)),
                     Created (newID out) row)
                end
              end
          end
    end.

(** The goroutine of [HandleCreate] that waits for [sess.Done()], once
    the channel is closed. *)
Definition monitorFires (id : string) (a : App W) : App W :=
  mkApp (manager a) (repositories a)
    (alter (fun r => mkSessionRow (repo_id r) (worktree_path r) (branch r)
                       (cli_type r) "stopped" (pid r)) id (sessions a))
    (worktrees a) (branches a).

(** [DELETE /api/sessions/{id}]; [raw] is the query parameter
    [delete_local]. *)
Definition HandleDelete (id : string) (raw : string) (a : App W) : App W * reply :=
  match (if bool_decide (raw = ""%string) then Some true else ParseBool raw) with
  | None => (a, WriteError 400 "delete_local must be true or false")
  | Some deleteLocal =>
      match sessions a !! id with
      | None => (a, WriteError 404 "session not found")
      | Some row =>
          let m := (Stop os id (manager a)).1 in
          let localPath :=
            match repositories a !! repo_id row with
            | Some repo => local_path repo
            | None => ""%string
            end in
          let clean := deleteLocal && negb (bool_decide (localPath = ""%string)) in
          let wts :=
            if clean && negb (bool_decide (worktree_path row = ""%string))
            then worktrees a ∖ {[(localPath, worktree_path row)]} else worktrees a in
          let brs :=
            if clean && negb (bool_decide (branch row = ""%string))
            then branches a ∖ {[(localPath, branch row)]} else branches a in
          (mkApp m (repositories a) (delete id (sessions a)) wts brs, NoContent)
      end
  end.

End Handlers.

End Api.

(** * main.go: reconciling the database with the supervisor at start-up *)
Module Main.

(** A row of the [sessions] table, as far as [reconcileSessions] reads
    and writes it: the id (the primary key) and the status. *)
Definition row : Type := (string * string)%type.





End Main.

(** * Notions used to state the properties *)

(** The last [n] bytes of [l] (all of [l] when it is shorter). *)
Definition keepLast (n : Z) (l : list byte) : list byte :=
  drop (Z.to_nat (len l - n)) l.

(** What the specification asks of a replay snapshot [r] when the PTY
    has emitted [out] so far. *)
Definition replay_ok (out r : list byte) : Prop :=
  (exists pre, out = pre ++ r) /\
  len r <= 100 * 1024 /\
  (len out = 100 * 1024 -> r = out) /\
  (len out = 100 * 1024 + 1 -> r = drop 1 out).

(** A session of each backend as [handleStart] and [Start] create it. *)
Definition shepherd_session0 (id : string) (pid : Z) : Shepherd.session :=
  Shepherd.mkSession id pid false false false false [] ∅.
Definition pty_session0 (id : string) (pid : Z) : Pty.Session :=
  Pty.mkSession id pid false false [] false false [] ∅.

(** The notification [Response{Event: evtExited, SessionID: sessionID}]. *)
Definition exitedNotification (sessionID : string) : Protocol.Response :=
  Protocol.mkResponse "" Protocol.evtExited 0 "" sessionID [] [].

(** An operating system in which every spawn succeeds with pid 42. *)
Definition os_ok : OS := mkOS (fun _ _ => Ok 42).

(** The supervisor after one client has connected, started session [abc]
    and then stopped it; the child has been signalled but not reaped yet. *)
Definition shepherd_started : positive * Shepherd.Shepherd :=
  let '(cw, s) := Shepherd.accept Shepherd.new in
  (cw, Shepherd.handleControl os_ok cw
         (Protocol.mkRequest "r1" Protocol.cmdStart "abc" "claude" "/tmp" 0 0) s).


(** Every channel the client's tables refer to is allocated in its heap. *)
Definition Client_wf (c : Client.Client) : Prop :=
  (forall (sid : string) (chs : list positive) (ch : positive),
      Client.sessionSubs c !! sid = Some chs -> ch ∈ chs ->
      is_Some (Client.heap_ c !! ch)) /\
  (forall (sid : string) (d : positive),
      Client.sessionDone c !! sid = Some d -> is_Some (Client.heap_ c !! d)).

(** [d] is the done channel of some session of the client. *)
Definition is_done (c : Client.Client) (d : positive) : Prop :=
  exists sid : string, Client.sessionDone c !! sid = Some d.

(** How the channels of a heap may change while frames are dispatched:
    none is added or removed, capacities stay, and only done channels
    (those satisfying [D]) may become closed. *)
Definition heap_evolves (D : positive -> Prop) (h h' : Chan.heap) : Prop :=
  forall ch : positive,
    option_Forall2
      (fun q q' => Chan.cap q' = Chan.cap q /\
                   (~ D ch -> Chan.closed q' = Chan.closed q))
      (h !! ch) (h' !! ch).

(** The tables of the client other than its heap and its read position. *)
Definition same_tables (c c' : Client.Client) : Prop :=
  Client.conn c' = Client.conn c /\
  Client.written c' = Client.written c /\
  Client.sessionSubs c' = Client.sessionSubs c /\
  Client.sessionDone c' = Client.sessionDone c /\
  Client.shepherdSubbed c' = Client.shepherdSubbed c /\
  Client.reqCounter c' = Client.reqCounter c /\
  Client.closed c' = Client.closed c.

(** An operating system in which only [claude] can be spawned. *)
Definition os_claude_only : OS :=
  mkOS (fun cliType _ =>
          if decide (cliType = "claude"%string) then Ok 42
          else Err (ErrSpawn "executable file not found in $PATH")).

(** A client connected to a new supervisor, after [Start] of session [abc]. *)
Definition client_started : Client.World :=
  (Client.Client_Start os_ok "abc" "claude" "/tmp" (Client.NewClient Shepherd.new)).1.

(** Operations of the [SessionManager] contract, and their effect on a
    backend. [OpGet] only observes. *)
Inductive mop : Type :=
| OpStart (id cliType workDir : string)
| OpStop (id : string)
| OpGet (id : string)
| OpResize (id : string) (rows cols : Z)
| OpStopAll.

Definition step {W H : Type} `{!SessionManager W H} (os : OS) (o : mop) (w : W) : W :=
  match o with
  | OpStart id cliType workDir => (Start os id cliType workDir w).1
  | OpStop id => (Stop os id w).1
  | OpGet _ => w
  | OpResize id rows cols => (Resize os id rows cols w).1
  | OpStopAll => StopAll os w
  end.

Definition run {W H : Type} `{!SessionManager W H} (os : OS) (ops : list mop) (w : W) : W :=
  foldl (fun w o => step os o w) w ops.

(** Whether [Get] returns a handle (and not [nil]). *)
Definition has_handle {W H : Type} `{!SessionManager W H} (id : string) (w : W) : bool :=
  match Get id w with Some _ => true | None => false end.



(** The client's connection is open on both sides and every frame the
    supervisor has written to it has been consumed. *)
Definition link_ok (w : Client.World) : Prop :=
  Client.closed (Client.client w) = false /\
  exists cw : Shepherd.connWriter,
    Shepherd.conns (Client.shepherd w) !! Client.conn (Client.client w) = Some cw /\
    Shepherd.connClosed cw = false /\
    Client.nread (Client.client w) = length (Shepherd.sent cw).

(** The response that [handleStart] sends. *)
Definition start_response (os : OS) (req : Protocol.Request) : Protocol.Response :=
  match startWithSize os (Protocol.req_CLIType req) (Protocol.req_WorkDir req) with
  | Err e =>
      Protocol.mkResponse (Protocol.req_ID req) Protocol.evtError 0
        (match e with ErrSpawn m => m | _ => ""%string end) "" [] []
  | Ok child =>
      Protocol.mkResponse (Protocol.req_ID req) Protocol.evtStarted child ""
        (Protocol.req_SessionID req) [] []
  end.

(** The relation kept between the local manager and the supervisor
    client by the operations that treat them alike: the link is healthy and
    the two know the same session identifiers. *)
Definition backends_agree (m : Pty.Manager) (w : Client.World) : Prop :=
  link_ok w /\
  dom (Pty.sessions m) = dom (Client.sessionDone (Client.client w)).





(** The local manager after session [abc] was started and its PTY has
    emitted [abcdef]; and an attach during which the PTY emits [gh]. *)
Definition pty_abcdef : Pty.Manager :=
  Pty.ptyRead 1 [x61; x62; x63; x64; x65; x66]
    (Pty.Manager_Start os_ok "abc" "claude" "/tmp" Pty.NewManager).1.

Definition attach_then_gh : list (Ws.label Pty.Manager) :=
  [Ws.LMain true; Ws.LMain true; Ws.LMain true;
   Ws.LEnv (Pty.ptyRead 1 [x67; x68]); Ws.LPump true].

(** A request to create a session that passes every check of
    [HandleCreate] before the PTY is started: [repo] is the repository it
    names and [path] the worktree that was added. *)
Definition create_checks {W : Type} (out : Api.outside) (body : Api.createBody)
    (a : Api.App W) (repo : Api.repository) (path : string) : Prop :=
  Api.decodeOk body = true /\
  Api.body_cli_type body ∈ ["claude"; "codex"; "gemini"]%string /\
  Api.source_branch body <> ""%string /\
  Api.new_branch body <> ""%string /\
  Api.repositories a !! Api.body_repo_id body = Some repo /\
  Api.clone_status repo = "ready"%string /\
  Api.worktreePath out = Ok path /\
  Api.addWorktree out = None /\
  Api.newID out <> ""%string.

(** The row that [HandleCreate] inserts. *)
Definition running_row (body : Api.createBody) (path : string) (child : Z)
  : Api.sessionRow :=
  Api.mkSessionRow (Api.body_repo_id body) path (Api.new_branch body)
    (Api.body_cli_type body) "running" child.

(** A server with one ready repository and no session, on each backend,
    and a request for a session on it. *)
Definition app_empty {W : Type} (m : W) : Api.App W :=
  Api.mkApp m {[7 := Api.mkRepository "/repos/a.git" "ready"]} ∅ ∅ ∅.

Definition create_abc : Api.createBody :=
  Api.mkCreateBody true 7 "main" "feature" "claude".

Definition outside_abc : Api.outside :=
  Api.mkOutside "abc" (Ok "/wt/abc"%string) None.

(** The server on the local manager after that request. *)
Definition app_abc : Api.App Pty.Manager :=
  (@Api.HandleCreate Pty.Manager positive _ os_ok outside_abc create_abc
     (app_empty Pty.NewManager)).1.

(** The installed session of the tunnel belongs to a handler that has not
    returned, and a handler that is about to clear has seen its session
    closed. *)
Definition tunnel_inv (st : list TunnelHandler.pc * TunnelHandler.Tunnel) : Prop :=
  (forall s : positive,
      TunnelHandler.session st.2 = Some s ->
      exists i : nat,
        st.1 !! i = Some (TunnelHandler.Blocked s) \/
        st.1 !! i = Some (TunnelHandler.Clearing s)) /\
  (forall (i : nat) (s : positive),
      st.1 !! i = Some (TunnelHandler.Clearing s) ->
      exists y, TunnelHandler.yamux st.2 !! s = Some y /\ Gateway.isClosed y = true).

(** What a WebSocket adapter has still to deliver: one read per byte
    and per message at most. *)
Definition pending (w : WSConn.WSConn) : nat :=
  (length (WSConn.buf w) + length (concat (WSConn.incoming w))
   + length (WSConn.incoming w))%nat.

(** The text holds no bar. *)
Fixpoint nobar (s : string) : bool :=
  match s with
  | EmptyString => true
  | String c s => negb (Ascii.eqb c "|") && nobar s
  end.

(** A scanner of decimal numerals and a stand-in for the keyed hash,
    used to run the authentication on concrete requests. *)
Fixpoint scan_digits (acc : Z) (s : string) : Z :=
  match s with
  | EmptyString => acc
  | String c s =>
      let d := Z.of_N (Ascii.N_of_ascii c) - 48 in
      if (0 <=? d) && (d <=? 9) then scan_digits (10 * acc + d) s else acc
  end.

Definition scan_decimal (s : string) : Z :=
  match s with
  | String "-" s => - scan_digits 0 s
  | _ => scan_digits 0 s
  end.

Definition toy_hmac (key : list byte) (payload : string) : string :=
  string_of_list_byte (key ++ list_byte_of_string payload).

Definition auth_admin : Auth.Auth := Auth.mkAuth "admin" "s3cret" [x01; x02].

(** The channels a bridge subscribed and unsubscribed, in trace order. *)
Fixpoint subscriptions (t : list Ws.event) : list positive :=
  match t with
  | [] => []
  | Ws.CallSubscribe ch :: t => ch :: subscriptions t
  | _ :: t => subscriptions t
  end.

Fixpoint unsubscriptions (t : list Ws.event) : list positive :=
  match t with
  | [] => []
  | Ws.CallUnsub ch :: t => ch :: unsubscriptions t
  | _ :: t => unsubscriptions t
  end.

(** None of the three goroutines of the handler is running. *)
Definition idle (b : Ws.bridge) : Prop :=
  Ws.pumpRunning b = false /\ Ws.pingRunning b = false /\ Ws.inputRunning b = false.

(** The handler has returned: either before it subscribed, or with the
    unsubscription of its one channel as the last event. *)
Definition cleaned_up (t : list Ws.event) : Prop :=
  (subscriptions t = [] /\ unsubscriptions t = []) \/
  exists (ch : positive) (pre : list Ws.event),
    t = pre ++ [Ws.CallUnsub ch] /\ subscriptions pre = [ch] /\ unsubscriptions pre = [].

Definition cleanup_inv (b : Ws.bridge) : Prop :=
  match Ws.at_ b with
  | Ws.Replaying | Ws.GotReplay _ | Ws.Subscribing =>
      idle b /\ subscriptions (Ws.trace b) = [] /\ unsubscriptions (Ws.trace b) = []
  | Ws.Serving ch | Ws.Waiting ch =>
      subscriptions (Ws.trace b) = [ch] /\ unsubscriptions (Ws.trace b) = []
  | Ws.Returned => idle b /\ cleaned_up (Ws.trace b)
  end.

(** An attach to [abc] on the local manager during which the browser
    goes away: the input pump fails, the ticker notices, the PTY emits
    [gh] and the write of it fails. *)
Definition attach_then_disconnect : list (Ws.label Pty.Manager) :=
  [Ws.LMain true; Ws.LMain true; Ws.LMain true;
   Ws.LInput Ws.InError; Ws.LMain true; Ws.LPing true;
   Ws.LEnv (Pty.ptyRead 1 [x67; x68]); Ws.LPump false; Ws.LMain true].

(** The local manager after a handler has attached to [abc] and the PTY
    has emitted [gh], which waits in the handler's channel. *)
Definition pty_gh_queued : Pty.Manager :=
  (Ws.run os_ok "abc" 1%positive
     [Ws.LMain true; Ws.LMain true; Ws.LMain true; Ws.LEnv (Pty.ptyRead 1 [x67; x68])]
     pty_abcdef).1.

(** The commands that [handleControl] knows. *)
Definition known_command (cmd : string) : Prop :=
  cmd ∈ [Protocol.cmdPing; Protocol.cmdStart; Protocol.cmdStop; Protocol.cmdResize;
         Protocol.cmdReplay; Protocol.cmdSubscribe; Protocol.cmdList;
         Protocol.cmdStopAll].

(** What a handler does to the connections when it answers a request:
    one control frame with the request's identifier on the requesting
    connection (nothing when that connection is closed), and the set of
    clients stays. *)
Definition replied (cw : positive) (req : Protocol.Request)
    (s s' : Shepherd.Shepherd) : Prop :=
  exists resp : Protocol.Response,
    Protocol.resp_ID resp = Protocol.req_ID req /\
    Shepherd.conns s'
    = alter (Shepherd.connWrite (Shepherd.FControl resp)) cw (Shepherd.conns s) /\
    Shepherd.clients s' = Shepherd.clients s.

(** The client of [client_started] after the PTY of [abc] has emitted
    the bytes of [hello] and a line feed in the supervisor. *)
Definition client_hello : Client.World :=
  Client.mkWorld (Client.client client_started)
    (Shepherd.ptyRead 1 [x68; x65; x6c; x6c; x6f; x0a] (Client.shepherd client_started)).

(** A frame that [readLoop] consumes without waking a request: a data
    frame or an exit notification. *)
Definition passive (f : Shepherd.frame) : Prop :=
  match f with
  | Shepherd.FControl resp => Client.isExitNotification resp = true
  | Shepherd.FBytes _ _ => True
  end.

(** The client's connection is open on both sides; the frames it has not
    consumed yet are notifications and data. *)
Definition link_up (w : Client.World) : Prop :=
  Client.closed (Client.client w) = false /\
  exists cw : Shepherd.connWriter,
    Shepherd.conns (Client.shepherd w) !! Client.conn (Client.client w) = Some cw /\
    Shepherd.connClosed cw = false /\
    (Client.nread (Client.client w) <= length (Shepherd.sent cw))%nat /\
    Forall passive (Client.unread (Client.client w) (Client.shepherd w)).

(** The local manager after session [abc] has been started. *)
Definition pty_started : Pty.Manager :=
  (Pty.Manager_Start os_ok "abc" "claude" "/tmp" Pty.NewManager).1.

(** The client of [client_started] after one subscription to [abc]. *)
Definition client_subscribed : Client.World :=
  (Client.subscribe os_ok "abc" client_started).1.

(** What can happen in the supervisor, one goroutine step at a time: a
    connection is accepted or ends, a request is handled, the PTY reader
    of a session reads a chunk or ends, a forwarder takes one step, a
    child is reaped. *)
Inductive sup_op : Type :=
| SAccept
| SDisconnect (cw : positive)
| SControl (cw : positive) (req : Protocol.Request)
| SInput (payload : list byte)
| SPtyRead (sess : positive) (data : list byte)
| SPtyEOF (sess : positive)
| SForward (cw sess : positive) (sessionID : string) (ch : positive)
| SReap (sess : positive) (sessionID : string).

Definition sup_step (os : OS) (op : sup_op) (s : Shepherd.Shepherd)
  : Shepherd.Shepherd :=
  match op with
  | SAccept => (Shepherd.accept s).2
  | SDisconnect cw => Shepherd.disconnect cw s
  | SControl cw req => Shepherd.handleControl os cw req s
  | SInput _ => s
  | SPtyRead sess data => Shepherd.ptyRead sess data s
  | SPtyEOF sess => Shepherd.ptyEOF sess s
  | SForward cw sess sid ch => Shepherd.forward cw sess sid ch s
  | SReap sess sid => Shepherd.reap sess sid s
  end.

Definition sup_run (os : OS) (ops : list sup_op) (s : Shepherd.Shepherd)
  : Shepherd.Shepherd :=
  foldl (fun s op => sup_step os op s) s ops.

(** Every subscriber of a session object is an open channel of the
    heap, no channel subscribes to two session objects, and every channel
    has capacity 256 and holds at most 256 chunks. *)
Definition sup_inv (s : Shepherd.Shepherd) : Prop :=
  (forall (sess : positive) (o : Shepherd.session) (ch : positive),
      Shepherd.objs s !! sess = Some o -> ch ∈ Shepherd.subscribers o ->
      exists q, Shepherd.heap_ s !! ch = Some q /\ Chan.closed q = false) /\
  (forall (s1 s2 : positive) (o1 o2 : Shepherd.session) (ch : positive),
      Shepherd.objs s !! s1 = Some o1 -> Shepherd.objs s !! s2 = Some o2 ->
      ch ∈ Shepherd.subscribers o1 -> ch ∈ Shepherd.subscribers o2 -> s1 = s2) /\
  (forall (ch : positive) (q : Chan.chan),
      Shepherd.heap_ s !! ch = Some q ->
      Chan.cap q = 256 /\ len (Chan.buf q) <= 256).

(** How one step may change a channel that stays in use. *)
Definition chan_step (q q' : Chan.chan) : Prop :=
  Chan.closed q' = Chan.closed q /\ Chan.cap q' = Chan.cap q /\
  (len (Chan.buf q') <= len (Chan.buf q) \/ len (Chan.buf q') <= Chan.cap q).

(** What the server does with its supervisor client, one call at a
    time, interleaved with the steps of the supervisor. *)
Inductive cl_op : Type :=
| CStart (id cliType workDir : string)
| CStop (id : string)
| CResize (id : string) (rows cols : Z)
| CStopAll
| CReplay (sid : string)
| CSubscribe (sid : string)
| CUnsub (sid : string) (ch : positive)
| CDone (sid : string)
| CWrite (sid : string) (data : list byte)
| CNext (ch : positive)
| CReadLoop
| CPing
| CList
| CClose
| CSup (op : sup_op).

Definition cl_step (os : OS) (op : cl_op) (w : Client.World) : Client.World :=
  match op with
  | CStart id cliType workDir =>
      (@Start Client.World Client.ProxySession _ os id cliType workDir w).1
  | CStop id => (@Stop Client.World Client.ProxySession _ os id w).1
  | CResize id rows cols =>
      (@Resize Client.World Client.ProxySession _ os id rows cols w).1
  | CStopAll => @StopAll Client.World Client.ProxySession _ os w
  | CReplay sid => (@Replay Client.World Client.ProxySession _ os sid w).1
  | CSubscribe sid => (@Subscribe Client.World Client.ProxySession _ os sid w).1
  | CUnsub sid ch => @Unsub Client.World Client.ProxySession _ sid ch w
  | CDone sid => (@Done Client.World Client.ProxySession _ sid w).1
  | CWrite sid data => (@Write Client.World Client.ProxySession _ sid data w).1
  | CNext ch => (@Next Client.World Client.ProxySession _ ch w).1
  | CReadLoop => Client.readLoop w
  | CPing => (Client.Ping os w).1
  | CList => (Client.ListSessions os w).1
  | CClose => Client.set_client (Client.Close (Client.client w)) w
  | CSup op => Client.mkWorld (Client.client w) (sup_step os op (Client.shepherd w))
  end.

Definition cl_run (os : OS) (ops : list cl_op) (w : Client.World) : Client.World :=
  foldl (fun w op => cl_step os op w) w ops.

(** Done channels have capacity 0, and a channel of capacity 256, which
    is what [subscribe] makes, is open. *)
Definition client_inv (c : Client.Client) : Prop :=
  (forall (sid : string) (d : positive),
      Client.sessionDone c !! sid = Some d ->
      exists q, Client.heap_ c !! d = Some q /\ Chan.cap q = 0) /\
  (forall (ch : positive) (q : Chan.chan),
      Client.heap_ c !! ch = Some q -> Chan.cap q = 256 -> Chan.closed q = false).



(** * Properties *)

Section Bytes.

Lemma Z_of_byte_range (b : byte) : 0 <= Z_of_byte b < 256.
Proof.
  unfold Z_of_byte. pose proof (Byte.to_N_bounded b) as H.
  split; [apply N2Z.is_nonneg|].
  change 256 with (Z.of_N 256). apply N2Z.inj_lt. lia.
Qed.

Lemma Z_of_byte_of_Z (z : Z) : Z_of_byte (byte_of_Z z) = z mod 256.
Proof.
  unfold Z_of_byte, byte_of_Z.
  assert (Hr : 0 <= z mod 256 < 256) by (apply Z.mod_pos_bound; lia).
  destruct (Byte.of_N (Z.to_N (z mod 256))) as [b|] eqn:Hb.
  - apply Byte.to_of_N in Hb. rewrite Hb. lia.
  - apply Byte.of_N_None_iff in Hb. lia.
Qed.

Lemma byte_of_Z_of_byte (b : byte) : byte_of_Z (Z_of_byte b) = b.
Proof.
  unfold byte_of_Z. rewrite Z.mod_small by apply Z_of_byte_range.
  unfold Z_of_byte. rewrite N2Z.id, Byte.of_to_N. reflexivity.
Qed.

End Bytes.

Section Codec.
Import Protocol.

Lemma testbit_low_byte (z n : Z) :
  Z.testbit (z mod 256) n = if (0 <=? n) && (n <? 8) then Z.testbit z n else false.
Proof.
  destruct (Z.leb_spec 0 n) as [H0|H0]; simpl.
  - change 256 with (2 ^ 8). destruct (Z.ltb_spec n 8).
    + apply Z.mod_pow2_bits_low. lia.
    + apply Z.mod_pow2_bits_high. lia.
  - apply Z.testbit_neg_r. lia.
Qed.

Lemma getUint32_putUint32 (v : Z) :
  0 <= v < 2 ^ 32 -> getUint32 (putUint32 v) = v.
Proof.
  intros Hv. unfold getUint32, putUint32. rewrite !Z_of_byte_of_Z.
  apply Z.bits_inj'. intros n Hn.
  rewrite !Z.lor_spec. rewrite !Z.shiftl_spec by exact Hn.
  rewrite !testbit_low_byte.
  assert (Hhi : 32 <= n -> Z.testbit v n = false).
  { intros H32. rewrite <- (Z.mod_small v (2 ^ 32)) by lia.
    apply Z.mod_pow2_bits_high. lia. }
  destruct (Z.leb_spec 0 (n - 8)), (Z.ltb_spec (n - 8) 8),
    (Z.leb_spec 0 (n - 16)), (Z.ltb_spec (n - 16) 8),
    (Z.leb_spec 0 (n - 24)), (Z.ltb_spec (n - 24) 8),
    (Z.leb_spec 0 n), (Z.ltb_spec n 8); simpl; try lia;
    rewrite ?Z.shiftr_spec by lia; rewrite ?orb_false_r;
    try (f_equal; lia).
  symmetry. apply Hhi. lia.
Qed.

Lemma len_app {A} (a b : list A) : len (a ++ b) = len a + len b.
Proof. unfold len. rewrite length_app. lia. Qed.

Lemma len_nonneg {A} (a : list A) : 0 <= len a.
Proof. unfold len. lia. Qed.

Lemma readFull_app (a r : list byte) (n : Z) :
  len a = n -> readFull (a ++ r) n = Ok (a, r).
Proof.
  intros Hn. unfold readFull. rewrite len_app.
  pose proof (len_nonneg r) as Hr.
  destruct (Z.leb_spec n (len a + len r)) as [_|Hlt]; [|lia].
  assert (Hl : length a = Z.to_nat n) by (unfold len in Hn; lia).
  rewrite <- Hl, take_app_length, drop_app_length. reflexivity.
Qed.

Lemma readFrame_writeFrame (t : byte) (payload rest : list byte) :
  len payload < 10 * 1024 * 1024 ->
  readFrame (writeFrame [] t payload ++ rest) = Ok (t, payload, rest).
Proof.
  intros Hlen. pose proof (len_nonneg payload) as Hp.
  unfold writeFrame, readFrame.
  assert (Hu : uint32 (1 + len payload) = 1 + len payload).
  { unfold uint32. apply Z.mod_small. lia. }
  rewrite Hu, app_nil_l, <- !app_assoc.
  rewrite readFull_app by reflexivity.
  rewrite getUint32_putUint32 by lia.
  destruct (Z.eqb_spec (1 + len payload) 0) as [?|_]; [lia|].
  destruct (Z.gtb_spec (1 + len payload) (10 * 1024 * 1024)) as [?|_]; [lia|].
  rewrite (app_assoc [t] payload rest).
  rewrite readFull_app by (rewrite len_app; reflexivity).
  reflexivity.
Qed.

Lemma len_ping_payload : len ping_payload = 28.
Proof. reflexivity. Qed.

Lemma writeFrame_ping :
  writeFrame [] frameControl ping_payload
  = [x00; x00; x00; x1d; x01] ++ ping_payload.
Proof. reflexivity. Qed.

(** What [parseDataPayload] returns on any payload built by
    [writeDataFrame]: the identifier is cut at the length prefix, which
    only holds the length modulo 256. *)
Lemma parseDataPayload_dataFramePayload (sid : string) (data : list byte) :
  let idBytes := list_byte_of_string sid in
  let k := Z.to_nat (len idBytes mod 256) in
  parseDataPayload (dataFramePayload sid data)
  = Ok (string_of_list_byte (take k idBytes), drop k idBytes ++ data).
Proof.
  intros idBytes k. unfold dataFramePayload, parseDataPayload.
  fold idBytes. rewrite Z_of_byte_of_Z.
  assert (Hm : 0 <= len idBytes mod 256 < 256) by (apply Z.mod_pos_bound; lia).
  assert (Hle : len idBytes mod 256 <= len idBytes).
  { apply Z.mod_le; [apply len_nonneg | lia]. }
  assert (Hk : (k <= length idBytes)%nat) by (unfold k, len in *; lia).
  change (byte_of_Z (len idBytes) :: idBytes ++ data)
    with ([byte_of_Z (len idBytes)] ++ idBytes ++ data).
  rewrite !len_app. pose proof (len_nonneg data) as Hd.
  change (len [byte_of_Z (len idBytes)]) with 1.
  destruct (Z.ltb_spec (1 + (len idBytes + len data)) (1 + len idBytes mod 256))
    as [?|_]; [lia|].
  replace (Z.to_nat (1 + len idBytes mod 256)) with (S k) by (unfold k; lia).
  fold k. simpl. rewrite drop_0.
  rewrite take_app_le, drop_app_le by exact Hk. reflexivity.
Qed.

Lemma parseDataPayload_short (sid : string) (data : list byte) :
len (list_byte_of_string sid) <= 255 ->
parseDataPayload (dataFramePayload sid data) = Ok (sid, data).
Proof.
intros Hle. rewrite parseDataPayload_dataFramePayload.
pose proof (len_nonneg (list_byte_of_string sid)) as H0.
rewrite Z.mod_small by lia.
replace (Z.to_nat (len (list_byte_of_string sid)))
  with (length (list_byte_of_string sid)) by (unfold len; lia).
rewrite firstn_all, drop_all, string_of_list_byte_of_string.
reflexivity.
Qed.

End Codec.

(** C2, as stated, fails on the literal example: the JSON text
    [{"id":"r1","command":"ping"}] is 28 bytes long, not 27, and the frame
    that [writeFrame] produces for it does not start with [00 00 00 1C 01]. *)
Lemma C2_ping_frame_counterexample :
  len Protocol.ping_payload <> 27 /\
  Protocol.writeFrame [] Protocol.frameControl Protocol.ping_payload
  <> [x00; x00; x00; x1c; x01] ++ Protocol.ping_payload.
Proof. split; intros H; vm_compute in H; discriminate H. Qed.

(** C2 (amended): for every frame type byte and every payload of fewer than
    10*1024*1024 bytes, [readFrame] applied to the bytes written by
    [writeFrame] (followed by any further bytes [rest]) returns the same
    type byte and the same payload and leaves [rest] unread; the Control
    frame whose payload is the 28-byte text [{"id":"r1","command":"ping"}]
    is exactly the five bytes [00 00 00 1D 01] followed by the payload, and
    decodes to type Control and that payload. *)
Theorem C2_frame_roundtrip :
  (forall (t : byte) (payload rest : list byte),
      len payload < 10 * 1024 * 1024 ->
      Protocol.readFrame (Protocol.writeFrame [] t payload ++ rest)
      = Ok (t, payload, rest)) /\
  len Protocol.ping_payload = 28 /\
  Protocol.writeFrame [] Protocol.frameControl Protocol.ping_payload
  = [x00; x00; x00; x1d; x01] ++ Protocol.ping_payload /\
  Protocol.readFrame
    (Protocol.writeFrame [] Protocol.frameControl Protocol.ping_payload)
  = Ok (Protocol.frameControl, Protocol.ping_payload, []).
Proof.
  split; [exact readFrame_writeFrame|].
  split; [exact len_ping_payload|].
  split; [exact writeFrame_ping|].
  reflexivity.
Qed.

Lemma C2_frame_roundtrip_witness :
  len [x68; x69] < 10 * 1024 * 1024 /\
  Protocol.readFrame (Protocol.writeFrame [] Protocol.frameData [x68; x69] ++ [xff])
  = Ok (Protocol.frameData, [x68; x69], [xff]).
Proof.
  split; [reflexivity|].
  apply (proj1 C2_frame_roundtrip Protocol.frameData [x68; x69] [xff]).
  reflexivity.
Defined.

(** C10: for a session id of at most 255 bytes, [parseDataPayload] applied
    to the payload built by [writeDataFrame] returns that id and that data;
    for a longer id the length prefix is the length modulo 256,
    [parseDataPayload] succeeds with a different id, and two different
    (id, data) pairs have the same payload. *)
Theorem C10_data_payload_roundtrip :
  (forall (sid : string) (data : list byte),
      len (list_byte_of_string sid) <= 255 ->
      Protocol.parseDataPayload (Protocol.dataFramePayload sid data)
      = Ok (sid, data)) /\
  (forall (sid : string) (data : list byte),
      255 < len (list_byte_of_string sid) ->
      head (Protocol.dataFramePayload sid data)
      = Some (byte_of_Z (len (list_byte_of_string sid) mod 256)) /\
      exists sid' data',
        Protocol.parseDataPayload (Protocol.dataFramePayload sid data)
        = Ok (sid', data') /\ sid' <> sid) /\
  (exists sid1 data1 sid2 data2,
      (sid1, data1) <> (sid2, data2) /\
      255 < len (list_byte_of_string sid1) /\
      Protocol.dataFramePayload sid1 data1 = Protocol.dataFramePayload sid2 data2).
Proof.
  split; [|split].
  - exact parseDataPayload_short.
  - intros sid data Hgt. split.
    + unfold Protocol.dataFramePayload. simpl. f_equal.
      unfold byte_of_Z. rewrite Z.mod_mod by lia. reflexivity.
    + rewrite parseDataPayload_dataFramePayload. eexists _, _.
      split; [reflexivity|]. intros Heq.
      apply (f_equal list_byte_of_string) in Heq.
      rewrite list_byte_of_string_of_list_byte in Heq.
      apply (f_equal (@length byte)) in Heq.
      rewrite length_take in Heq.
      assert (Hm : 0 <= len (list_byte_of_string sid) mod 256 < 256)
        by (apply Z.mod_pos_bound; lia).
      unfold len in *. lia.
  - exists (string_of_list_byte (replicate 256 x61)), [],
      EmptyString, (replicate 256 x61).
    split; [|split].
    + intros Heq. apply (f_equal snd) in Heq. discriminate Heq.
    + vm_compute. reflexivity.
    + vm_compute. reflexivity.
Qed.

Lemma C10_data_payload_roundtrip_witness :
  Protocol.parseDataPayload (Protocol.dataFramePayload "abc" [x68; x69])
  = Ok ("abc"%string, [x68; x69]) /\
  exists sid' data',
    Protocol.parseDataPayload
      (Protocol.dataFramePayload (string_of_list_byte (replicate 300 x61)) [x68])
    = Ok (sid', data') /\ sid' <> string_of_list_byte (replicate 300 x61).
Proof.
  destruct C10_data_payload_roundtrip as (Hshort & Hlong & _).
  split.
  - apply (Hshort "abc"%string [x68; x69]). vm_compute. discriminate.
  - apply (Hlong (string_of_list_byte (replicate 300 x61)) [x68]).
    vm_compute. reflexivity.
Defined.

(** ** The replay buffer *)
Section ReplayRing.

Lemma keepLast_short (n : Z) (l : list byte) : len l <= n -> keepLast n l = l.
Proof.
  intros H. unfold keepLast.
  replace (Z.to_nat (len l - n)) with 0%nat by lia. apply drop_0.
Qed.

Lemma len_keepLast (n : Z) (l : list byte) :
  0 <= n -> len (keepLast n l) = Z.min n (len l).
Proof. intros Hn. unfold keepLast, len. rewrite length_drop. lia. Qed.

Lemma keepLast_suffix (n : Z) (l : list byte) :
  exists pre, l = pre ++ keepLast n l.
Proof.
  exists (take (Z.to_nat (len l - n)) l). unfold keepLast.
  symmetry. apply take_drop.
Qed.

Lemma keepLast_app (n : Z) (a d : list byte) :
  0 <= n -> keepLast n (keepLast n a ++ d) = keepLast n (a ++ d).
Proof.
  intros Hn. unfold keepLast at 2.
  rewrite <- drop_app_le by (unfold len; lia).
  unfold keepLast. rewrite drop_drop. f_equal.
  unfold len. rewrite length_drop, !length_app. lia.
Qed.

Lemma Shepherd_appendReplay_buf (data : list byte) (s : Shepherd.session) :
  Shepherd.replayBuf (Shepherd.appendReplay data s)
  = keepLast Shepherd.replayBufSize (Shepherd.replayBuf s ++ data).
Proof.
  unfold Shepherd.appendReplay.
  destruct (Z.gtb_spec (len (Shepherd.replayBuf s ++ data)) Shepherd.replayBufSize).
  - reflexivity.
  - simpl. symmetry. apply keepLast_short. assumption.
Qed.

Lemma Pty_appendReplay_buf (data : list byte) (s : Pty.Session) :
  Pty.replayBuf (Pty.appendReplay data s)
  = keepLast Pty.replayBufSize (Pty.replayBuf s ++ data).
Proof.
  unfold Pty.appendReplay.
  destruct (Z.gtb_spec (len (Pty.replayBuf s ++ data)) Pty.replayBufSize).
  - reflexivity.
  - simpl. symmetry. apply keepLast_short. assumption.
Qed.

(** The buffer after a sequence of chunks, in closed form. *)
Lemma Shepherd_replay_chunks (chunks : list (list byte)) (s : Shepherd.session) :
  len (Shepherd.replayBuf s) <= Shepherd.replayBufSize ->
  Shepherd.getReplay (foldl (fun s d => Shepherd.appendReplay d s) s chunks)
  = keepLast Shepherd.replayBufSize (Shepherd.replayBuf s ++ concat chunks).
Proof.
  revert s. induction chunks as [|d chunks IH]; intros s Hs; simpl.
  - rewrite app_nil_r. symmetry. apply keepLast_short. exact Hs.
  - unfold Shepherd.getReplay in *. rewrite IH.
    + rewrite Shepherd_appendReplay_buf, keepLast_app, app_assoc by done.
      reflexivity.
    + rewrite Shepherd_appendReplay_buf, len_keepLast by done. lia.
Qed.

Lemma Pty_replay_chunks (chunks : list (list byte)) (s : Pty.Session) :
  len (Pty.replayBuf s) <= Pty.replayBufSize ->
  Pty.replayBuf (foldl (fun s d => Pty.appendReplay d s) s chunks)
  = keepLast Pty.replayBufSize (Pty.replayBuf s ++ concat chunks).
Proof.
  revert s. induction chunks as [|d chunks IH]; intros s Hs; simpl.
  - rewrite app_nil_r. symmetry. apply keepLast_short. exact Hs.
  - rewrite IH.
    + rewrite Pty_appendReplay_buf, keepLast_app, app_assoc by done.
      reflexivity.
    + rewrite Pty_appendReplay_buf, len_keepLast by done. lia.
Qed.

Lemma keepLast_replay_ok (out : list byte) :
  replay_ok out (keepLast (100 * 1024) out).
Proof.
  repeat split.
  - apply keepLast_suffix.
  - rewrite len_keepLast by done. lia.
  - intros H. apply keepLast_short. lia.
  - intros H. unfold keepLast. rewrite H. reflexivity.
Qed.

End ReplayRing.

(** C1: for every session (of the supervisor and of the local manager,
    created with an empty buffer) and every sequence of PTY output chunks
    appended by [appendReplay], the replay buffer is a suffix of the
    concatenation of the chunks, is at most 100*1024 bytes long, is the
    whole output when that is exactly 100*1024 bytes, and is the output
    without its first byte when that is 100*1024 + 1 bytes. *)
Theorem C1_replay_buffer_suffix :
  forall (s : Shepherd.session) (p : Pty.Session) (chunks : list (list byte)),
    Shepherd.replayBuf s = [] ->
    Pty.replayBuf p = [] ->
    replay_ok (concat chunks)
      (Shepherd.getReplay (foldl (fun s d => Shepherd.appendReplay d s) s chunks)) /\
    replay_ok (concat chunks)
      (Pty.replayBuf (foldl (fun p d => Pty.appendReplay d p) p chunks)).
Proof.
  intros s p chunks Hs Hp. split.
  - rewrite Shepherd_replay_chunks by (rewrite Hs; done).
    rewrite Hs. apply keepLast_replay_ok.
  - rewrite Pty_replay_chunks by (rewrite Hp; done).
    rewrite Hp. apply keepLast_replay_ok.
Qed.

Lemma C1_replay_buffer_suffix_witness :
  replay_ok (concat [[x68; x65]; [x6c; x6c; x6f]])
    (Shepherd.getReplay
       (foldl (fun s d => Shepherd.appendReplay d s) (shepherd_session0 "abc" 42)
          [[x68; x65]; [x6c; x6c; x6f]])) /\
  replay_ok (concat [[x68; x65]; [x6c; x6c; x6f]])
    (Pty.replayBuf
       (foldl (fun p d => Pty.appendReplay d p) (pty_session0 "abc" 42)
          [[x68; x65]; [x6c; x6c; x6f]])).
Proof.
  apply (C1_replay_buffer_suffix (shepherd_session0 "abc" 42) (pty_session0 "abc" 42)
           [[x68; x65]; [x6c; x6c; x6f]]); reflexivity.
Defined.

(** ** Fan-out to subscribers *)
Section FanOut.
Import Chan.

Lemma trySend_open_room (c : chan) (v : chunk) :
closed c = false -> len (buf c) < cap c ->
trySend c v = (mkChan (buf c ++ [v]) (cap c) false, Sent).
Proof.
intros Hc Hlt. unfold trySend. rewrite Hc.
destruct (Z.ltb_spec (len (buf c)) (cap c)); [reflexivity | lia].
Qed.

Lemma trySend_open_full (c : chan) (v : chunk) :
closed c = false -> cap c <= len (buf c) -> trySend c v = (c, Dropped).
Proof.
intros Hc Hge. unfold trySend. rewrite Hc.
destruct (Z.ltb_spec (len (buf c)) (cap c)); [lia | reflexivity].
Qed.

Lemma trySend_cap (c : chan) (v : chunk) : cap (fst (trySend c v)) = cap c.
Proof.
unfold trySend. destruct (closed c); [reflexivity|].
destruct (len (buf c) <? cap c); reflexivity.
Qed.

Lemma trySend_closed (c : chan) (v : chunk) : closed (fst (trySend c v)) = closed c.
Proof.
unfold trySend. destruct (closed c) eqn:E; [exact E|].
destruct (len (buf c) <? cap c); simpl; congruence.
Qed.

Lemma trySend_bounded (c : chan) (v : chunk) :
len (buf c) <= cap c -> len (buf (fst (trySend c v))) <= cap c.
Proof.
intros Hb. unfold trySend. destruct (closed c); [exact Hb|].
destruct (Z.ltb_spec (len (buf c)) (cap c)); simpl; [|exact Hb].
rewrite len_app. change (len [v]) with 1. lia.
Qed.

(** The loop of [broadcast] touches each subscriber exactly once and no
    other channel. *)
Lemma fold_trySendAt_lookup (data : chunk) (X : gset positive) (h : heap)
  (ch : positive) :
set_fold (trySendAt data) h X !! ch
= if decide (ch ∈ X) then (fun c => fst (trySend c data)) <$> h !! ch else h !! ch.
Proof.
revert ch.
refine (set_fold_ind_L
          (fun (r : heap) (Y : gset positive) =>
             forall ch, r !! ch
             = if decide (ch ∈ Y)
               then (fun c => fst (trySend c data)) <$> h !! ch else h !! ch)
          (trySendAt data) h _ _ X).
- intros ch. destruct (decide (ch ∈ (∅ : gset positive))) as [Hin|_];
    [set_solver | reflexivity].
- intros x Y r Hx IH ch. unfold trySendAt. rewrite lookup_alter.
  destruct (decide (x = ch)) as [->|Hne].
  + rewrite IH. destruct (decide (ch ∈ Y)) as [?|_]; [contradiction|].
    destruct (decide (ch ∈ {[ch]} ∪ Y)) as [_|Hn]; [reflexivity | set_solver].
  + rewrite IH.
    destruct (decide (ch ∈ Y)) as [HinY|HninY],
      (decide (ch ∈ {[x]} ∪ Y)) as [HinU|HninU]; try reflexivity.
    * exfalso. apply HninU. apply elem_of_union_r. exact HinY.
    * exfalso. apply elem_of_union in HinU as [Hx'|HY]; [|contradiction].
      apply elem_of_singleton in Hx'. congruence.
Qed.

End FanOut.

(** C4: [subscribe] creates a queue of capacity 256 and adds it to the
    subscriber set; on [broadcast] the queue of every subscriber with free
    space gets the chunk appended exactly once, the queue of a full
    subscriber is left as it is (the new chunk is the one lost) and the
    send reports [Dropped] instead of waiting; channels that are not
    subscribed are untouched. This holds for the supervisor's sessions and
    for the sessions of the local manager. *)
Theorem C4_subscriber_fanout :
  (forall (s : Shepherd.session) (h : Chan.heap),
      let r := Shepherd.subscribe s h in
      h !! r.1.1 = None /\
      r.2 !! r.1.1 = Some (Chan.mkChan [] 256 false) /\
      Shepherd.subscribers r.1.2 = {[r.1.1]} ∪ Shepherd.subscribers s) /\
  (forall (p : positive) (o : Pty.Session) (m : Pty.Manager),
      Pty.objs m !! p = Some o ->
      let r := Pty.Session_Subscribe p m in
      Pty.heap_ m !! r.2 = None /\
      Pty.heap_ r.1 !! r.2 = Some (Chan.mkChan [] 256 false) /\
      exists o', Pty.objs r.1 !! p = Some o' /\
                 Pty.subscribers o' = {[r.2]} ∪ Pty.subscribers o) /\
  (forall (c : Chan.chan) (data : Chan.chunk),
      Chan.closed c = false ->
      (len (Chan.buf c) < Chan.cap c ->
       Chan.trySend c data
       = (Chan.mkChan (Chan.buf c ++ [data]) (Chan.cap c) false, Chan.Sent)) /\
      (Chan.cap c <= len (Chan.buf c) ->
       Chan.trySend c data = (c, Chan.Dropped))) /\
  (forall (s : Shepherd.session) (h : Chan.heap) (data : Chan.chunk)
          (ch : positive) (c : Chan.chan),
      h !! ch = Some c ->
      (ch ∈ Shepherd.subscribers s ->
       Shepherd.broadcast data s h !! ch = Some (Chan.trySend c data).1) /\
      (ch ∉ Shepherd.subscribers s ->
       Shepherd.broadcast data s h !! ch = Some c)) /\
  (forall (o : Pty.Session) (h : Chan.heap) (data : Chan.chunk)
          (ch : positive) (c : Chan.chan),
      h !! ch = Some c ->
      (ch ∈ Pty.subscribers o ->
       Pty.broadcast data o h !! ch = Some (Chan.trySend c data).1) /\
      (ch ∉ Pty.subscribers o ->
       Pty.broadcast data o h !! ch = Some c)).
Proof.
  split; [|split; [|split; [|split]]].
  - intros s h r. unfold r, Shepherd.subscribe, Chan.alloc. simpl.
    split; [|split; [|reflexivity]].
    + apply not_elem_of_dom. apply is_fresh.
    + apply lookup_insert_eq.
  - intros p o m Ho r. unfold r, Pty.Session_Subscribe, Chan.alloc. simpl.
    split; [|split].
    + apply not_elem_of_dom. apply is_fresh.
    + apply lookup_insert_eq.
    + eexists. rewrite lookup_alter_eq, Ho. simpl. split; reflexivity.
  - intros c data Hc. split; intros H.
    + apply trySend_open_room; assumption.
    + apply trySend_open_full; assumption.
  - intros s h data ch c Hch. unfold Shepherd.broadcast.
    rewrite fold_trySendAt_lookup, Hch.
    split; intros Hin; destruct (decide (ch ∈ Shepherd.subscribers s));
      try contradiction; reflexivity.
  - intros o h data ch c Hch. unfold Pty.broadcast.
    rewrite fold_trySendAt_lookup, Hch.
    split; intros Hin; destruct (decide (ch ∈ Pty.subscribers o));
      try contradiction; reflexivity.
Qed.

Lemma C4_subscriber_fanout_witness :
  let full := Chan.mkChan (replicate 256 [x61]) 256 false in
  let s := Shepherd.mkSession "abc" 42 false false false false []
             {[1%positive; 2%positive]} in
  let h : Chan.heap := <[1%positive := full]> (<[2%positive := Chan.make 256]> ∅) in
  let r := Pty.Session_Subscribe 1 pty_abcdef in
  Shepherd.broadcast [x62] s h !! 1%positive = Some full /\
  Shepherd.broadcast [x62] s h !! 2%positive
  = Some (Chan.mkChan [[x62]] 256 false) /\
  Shepherd.broadcast [x62] (shepherd_session0 "abc" 42) h !! 2%positive
  = Some (Chan.make 256) /\
  Pty.heap_ r.1 !! r.2 = Some (Chan.mkChan [] 256 false) /\
  Pty.broadcast [x62] (Pty.mkSession "abc" 42 false false [] false false [] {[r.2]})
    (Pty.heap_ r.1) !! r.2
  = Some (Chan.mkChan [[x62]] 256 false).
Proof.
  intros full s h r.
  destruct C4_subscriber_fanout as (_ & Hsub & Hsend & Hb & Hpb).
  split; [|split; [|split; [|split]]].
  - destruct (Hb s h [x62] 1%positive full) as [Hin _]; [reflexivity|].
    rewrite Hin by (apply elem_of_union_l, elem_of_singleton; reflexivity).
    destruct (Hsend full [x62]) as [_ Hfull]; [reflexivity|].
    rewrite Hfull by (vm_compute; discriminate). reflexivity.
  - destruct (Hb s h [x62] 2%positive (Chan.make 256)) as [Hin _]; [reflexivity|].
    rewrite Hin by (apply elem_of_union_r, elem_of_singleton; reflexivity).
    destruct (Hsend (Chan.make 256) [x62]) as [Hroom _]; [reflexivity|].
    rewrite Hroom by (vm_compute; reflexivity). reflexivity.
  - destruct (Hb (shepherd_session0 "abc" 42) h [x62] 2%positive (Chan.make 256))
      as [_ Hout]; [reflexivity|].
    apply Hout. apply not_elem_of_empty.
  - destruct (Hsub 1%positive
                (Pty.mkSession "abc" 42 false false [] false false
                   [x61; x62; x63; x64; x65; x66] ∅) pty_abcdef)
      as (_ & Hnew & _); [vm_compute; reflexivity|].
    exact Hnew.
  - destruct (Hpb (Pty.mkSession "abc" 42 false false [] false false [] {[r.2]})
                (Pty.heap_ r.1) [x62] r.2 (Chan.make 256)) as [Hin _];
      [vm_compute; reflexivity|].
    rewrite Hin by (simpl; apply elem_of_singleton; reflexivity).
    destruct (Hsend (Chan.make 256) [x62]) as [Hroom _]; [reflexivity|].
    rewrite Hroom by (vm_compute; reflexivity). reflexivity.
Defined.

(** ** Exit notification *)
Section ExitBroadcast.
Import Protocol Shepherd.

Lemma foldl_writeControl (resp : Response) (l : list positive) (s : Shepherd) :
NoDup l ->
let s' := foldl (fun s c => writeControl c resp s) s l in
heap_ s' = heap_ s /\ objs s' = objs s /\ sessions s' = sessions s /\
clients s' = clients s /\
forall c, conns s' !! c
          = if decide (c ∈ l) then connWrite (FControl resp) <$> conns s !! c
            else conns s !! c.
Proof.
revert s. induction l as [|a l IH]; intros s Hnd; simpl.
- repeat split; reflexivity.
- apply NoDup_cons in Hnd as [Ha Hnd].
  destruct (IH (writeControl a resp s) Hnd) as (Hh & Ho & Hs & Hc & Hl).
  rewrite Hh, Ho, Hs, Hc. repeat split; try reflexivity.
  intros c. rewrite Hl. unfold writeControl at 1 2. simpl.
  rewrite lookup_alter.
  destruct (decide (a = c)) as [->|Hne].
  + destruct (decide (c ∈ l)) as [?|_]; [contradiction|].
    destruct (decide (c ∈ c :: l)) as [_|Hn]; [reflexivity|].
    exfalso. apply Hn. apply elem_of_cons. left. reflexivity.
  + destruct (decide (c ∈ l)) as [Hin|Hnin],
      (decide (c ∈ a :: l)) as [Hin'|Hnin']; try reflexivity.
    * exfalso. apply Hnin'. apply elem_of_cons. right. exact Hin.
    * exfalso. apply elem_of_cons in Hin' as [->|?]; [congruence|contradiction].
Qed.

Lemma broadcastExit_spec (sid : string) (s : Shepherd) :
let s' := broadcastExit sid s in
heap_ s' = heap_ s /\ objs s' = objs s /\ sessions s' = sessions s /\
clients s' = clients s /\
forall c, conns s' !! c
          = if decide (c ∈ clients s)
            then connWrite (FControl (exitedNotification sid)) <$> conns s !! c
            else conns s !! c.
Proof.
unfold broadcastExit.
destruct (foldl_writeControl (exitedNotification sid) (elements (clients s)) s
            (NoDup_elements _)) as (Hh & Ho & Hs & Hc & Hl).
repeat split; try assumption.
intros c. unfold exitedNotification in *. rewrite Hl.
destruct (decide (c ∈ elements (clients s))) as [Hin|Hnin],
  (decide (c ∈ clients s)) as [Hin'|Hnin']; try reflexivity.
- exfalso. apply Hnin'. apply elem_of_elements. exact Hin.
- exfalso. apply Hnin. apply elem_of_elements. exact Hin'.
Qed.

End ExitBroadcast.




(** ** The supervisor client: dispatch of inbound frames *)
Section ClientDispatch.
Import Protocol Client Chan.

Lemma heap_evolves_refl (D : positive -> Prop) (h : heap) : heap_evolves D h h.
Proof.
intros ch. destruct (h !! ch); constructor. split; reflexivity.
Qed.

Lemma heap_evolves_trans (D : positive -> Prop) (h1 h2 h3 : heap) :
heap_evolves D h1 h2 -> heap_evolves D h2 h3 -> heap_evolves D h1 h3.
Proof.
intros H12 H23 ch. specialize (H12 ch). specialize (H23 ch).
destruct H12 as [q1 q2 [Hc Hd]|]; inversion H23 as [q2' q3 [Hc' Hd']|]; subst;
  constructor.
split; [congruence|]. intros Hn. rewrite Hd', Hd by exact Hn. reflexivity.
Qed.

Lemma heap_evolves_alter (D : positive -> Prop) (f : chan -> chan) (l : positive)
  (h : heap) :
(forall q, cap (f q) = cap q) ->
(forall q, ~ D l -> closed (f q) = closed q) ->
heap_evolves D h (alter f l h).
Proof.
intros Hcap Hcl ch. rewrite lookup_alter.
destruct (decide (l = ch)) as [->|Hne].
- destruct (h !! ch); constructor. split; [apply Hcap | apply Hcl].
- destruct (h !! ch); constructor. split; reflexivity.
Qed.

Lemma heap_evolves_trySendAt (D : positive -> Prop) (data : chunk) (l : positive)
  (h : heap) :
heap_evolves D h (trySendAt data l h).
Proof.
apply heap_evolves_alter; intros q; [|intros _].
- apply trySend_cap.
- apply trySend_closed.
Qed.

Lemma heap_evolves_foldl_trySendAt (D : positive -> Prop) (data : chunk)
  (l : list positive) (h : heap) :
heap_evolves D h (foldl (fun h ch => trySendAt data ch h) h l).
Proof.
revert h. induction l as [|a l IH]; intros h; simpl.
- apply heap_evolves_refl.
- eapply heap_evolves_trans; [apply heap_evolves_trySendAt | apply IH].
Qed.

Lemma same_tables_refl (c : Client) : same_tables c c.
Proof. repeat split. Qed.

Lemma same_tables_trans (c1 c2 c3 : Client) :
same_tables c1 c2 -> same_tables c2 c3 -> same_tables c1 c3.
Proof.
unfold same_tables.
intros (?&?&?&?&?&?&?) (?&?&?&?&?&?&?). repeat split; congruence.
Qed.

Ltac same_tables_tac := unfold same_tables; simpl; repeat split; reflexivity.

Lemma closeDone_spec (sid : string) (c : Client) :
same_tables c (closeDone sid c) /\
nread (closeDone sid c) = nread c /\
heap_evolves (is_done c) (heap_ c) (heap_ (closeDone sid c)).
Proof.
unfold closeDone. destruct (sessionDone c !! sid) as [d|] eqn:Hd; simpl.
- split; [same_tables_tac|]. split; [reflexivity|].
  apply heap_evolves_alter; intros q; [reflexivity|].
  intros Hn. exfalso. apply Hn. exists sid. exact Hd.
- split; [same_tables_tac|]. split; [reflexivity|].
  apply heap_evolves_refl.
Qed.

Lemma handleDataFrame_spec (payload : list byte) (c : Client) :
same_tables c (handleDataFrame payload c) /\
nread (handleDataFrame payload c) = nread c /\
heap_evolves (is_done c) (heap_ c) (heap_ (handleDataFrame payload c)).
Proof.
unfold handleDataFrame.
destruct (parseDataPayload payload) as [[sid data]|e]; simpl.
- split; [same_tables_tac|]. split; [reflexivity|].
  apply heap_evolves_foldl_trySendAt.
- split; [same_tables_tac|]. split; [reflexivity|].
  apply heap_evolves_refl.
Qed.

Lemma is_done_same (c c' : Client) (d : positive) :
same_tables c c' -> is_done c' d -> is_done c d.
Proof.
intros (_&_&_&Hd&_) [sid H]. exists sid. rewrite <- Hd. exact H.
Qed.

Lemma heap_evolves_weaken (D D' : positive -> Prop) (h h' : heap) :
(forall d, D d -> D' d) -> heap_evolves D h h' -> heap_evolves D' h h'.
Proof.
intros HD H ch. specialize (H ch).
destruct H as [q q' [Hc Hcl]|]; constructor.
split; [exact Hc|]. intros Hn. apply Hcl. intros Hd. apply Hn, HD, Hd.
Qed.

(** Dispatching frames changes neither the tables of the client nor
    what it has written; channels keep their capacity and only done
    channels are closed. *)
Lemma readUntil_spec (id : string) (frames : list Shepherd.frame) (c : Client) :
same_tables c (readUntil id frames c).1 /\
heap_evolves (is_done c) (heap_ c) (heap_ (readUntil id frames c).1).
Proof.
revert c. induction frames as [|f frames IH]; intros c; simpl.
- split; [apply same_tables_refl | apply heap_evolves_refl].
- assert (Hstep : forall c1 : Client,
             same_tables c c1 ->
             heap_evolves (is_done c) (heap_ c) (heap_ c1) ->
             same_tables c (readUntil id frames c1).1 /\
             heap_evolves (is_done c) (heap_ c) (heap_ (readUntil id frames c1).1)).
  { intros c1 Hst Hev. destruct (IH c1) as [Hst1 Hev1]. split.
    - eapply same_tables_trans; eassumption.
    - eapply heap_evolves_trans; [exact Hev|].
      eapply heap_evolves_weaken; [|exact Hev1].
      intros d. apply is_done_same. exact Hst. }
  destruct f as [resp|t payload].
  + destruct (isExitNotification resp).
    * destruct (closeDone_spec (resp_SessionID resp) (set_nread (S (nread c)) c))
        as (Hst & _ & Hev).
      apply Hstep; [exact Hst | exact Hev].
    * destruct (decide (resp_ID resp = id)); simpl.
      -- split; [same_tables_tac | apply heap_evolves_refl].
      -- apply Hstep; [same_tables_tac | apply heap_evolves_refl].
  + destruct (decide (t = frameData)).
    * destruct (handleDataFrame_spec payload (set_nread (S (nread c)) c))
        as (Hst & _ & Hev).
      apply Hstep; [exact Hst | exact Hev].
    * apply Hstep; [same_tables_tac | apply heap_evolves_refl].
Qed.

End ClientDispatch.

(** ** The supervisor client: requests and subscriptions *)
Section ClientSubscribe.
Import Protocol Client Chan.

Lemma sendRequest_open (os : OS) (req : Request) (w : World) :
Client.closed (client w) = false ->
let c := client w in
let c' := client (sendRequest os req w).1 in
written c' = written c ++ [OControl (set_ID (reqID (reqCounter c + 1)) req)] /\
conn c' = conn c /\
sessionSubs c' = sessionSubs c /\
sessionDone c' = sessionDone c /\
shepherdSubbed c' = shepherdSubbed c /\
reqCounter c' = reqCounter c + 1 /\
Client.closed c' = false /\
heap_evolves (is_done c) (heap_ c) (heap_ c').
Proof.
intros Hopen c c'. subst c c'. unfold sendRequest. simpl. rewrite Hopen.
match goal with
| |- context [readUntil ?i ?f ?c0] =>
    pose proof (readUntil_spec i f c0) as [Hst Hev];
    destruct (readUntil i f c0) as [c1 [resp|]]
end; simpl in *;
  destruct Hst as (Hconn & Hw & Hsubs & Hdone & Hsubbed & Hcnt & Hcl);
  simpl in *; repeat split; try assumption; congruence.
Qed.

Lemma foldl_trySendAt_notin (data : chunk) (l : list positive) (h : heap)
  (ch : positive) :
ch ∉ l -> foldl (fun h ch => trySendAt data ch h) h l !! ch = h !! ch.
Proof.
revert h. induction l as [|a l IH]; intros h Hnin; simpl; [reflexivity|].
apply not_elem_of_cons in Hnin as [Hne Hnin].
rewrite IH by exact Hnin. unfold trySendAt.
apply lookup_alter_ne. congruence.
Qed.

Lemma heap_evolves_lookup (D : positive -> Prop) (h h' : heap) (ch : positive)
  (q : chan) :
heap_evolves D h h' -> h !! ch = Some q -> ~ D ch ->
exists q', h' !! ch = Some q' /\ cap q' = cap q /\ Chan.closed q' = Chan.closed q.
Proof.
intros Hev Hq Hn. specialize (Hev ch). rewrite Hq in Hev.
inversion Hev as [q0 q' [Hc Hcl] Ha Hb|]; subst.
exists q'. split; [reflexivity|]. split; [exact Hc | apply Hcl, Hn].
Qed.

Lemma heap_evolves_None (D : positive -> Prop) (h h' : heap) (ch : positive) :
heap_evolves D h h' -> h !! ch = None -> h' !! ch = None.
Proof.
intros Hev Hq. specialize (Hev ch). rewrite Hq in Hev.
inversion Hev. reflexivity.
Qed.

Lemma subscribe_first (os : OS) (sid : string) (w : World) :
Client.closed (client w) = false ->
default false (shepherdSubbed (client w) !! sid) = false ->
let c := client w in
let c' := client (subscribe os sid w).1 in
let ch := (subscribe os sid w).2 in
heap_ c !! ch = None /\
written c'
= written c
  ++ [OControl (mkRequest (reqID (reqCounter c + 1)) cmdSubscribe sid "" "" 0 0)] /\
sessionSubs c'
= <[sid := default [] (sessionSubs c !! sid) ++ [ch]]> (sessionSubs c) /\
sessionDone c' = sessionDone c /\
shepherdSubbed c' = <[sid := true]> (shepherdSubbed c) /\
Client.closed c' = false /\
heap_evolves (is_done c) (<[ch := make 256]> (heap_ c)) (heap_ c').
Proof.
intros Hopen Hsub c c' ch. subst c c' ch.
unfold subscribe, alloc. simpl. rewrite Hsub. simpl.
match goal with
| |- context [sendRequest os ?r ?w0] =>
    pose proof (sendRequest_open os r w0 Hopen) as Hs
end.
simpl in Hs. destruct Hs as (Hw & _ & Hsubs & Hdone & Hsubbed & _ & Hcl & Hev).
split; [apply not_elem_of_dom, is_fresh|].
repeat split; assumption.
Qed.

Lemma subscribe_again (os : OS) (sid : string) (w : World) :
default false (shepherdSubbed (client w) !! sid) = true ->
let c := client w in
let c' := client (subscribe os sid w).1 in
let ch := (subscribe os sid w).2 in
heap_ c !! ch = None /\
written c' = written c /\
sessionSubs c'
= <[sid := default [] (sessionSubs c !! sid) ++ [ch]]> (sessionSubs c) /\
sessionDone c' = sessionDone c /\
shepherdSubbed c' = shepherdSubbed c /\
Client.closed c' = Client.closed c /\
heap_ c' = <[ch := make 256]> (heap_ c).
Proof.
intros Hsub c c' ch. subst c c' ch.
unfold subscribe, alloc. simpl. rewrite Hsub. simpl.
split; [apply not_elem_of_dom, is_fresh|].
repeat split.
Qed.

End ClientSubscribe.

(** C6: when [subscribe] is called twice in a row for a session that the
    client has not subscribed to yet, the first call writes exactly one
    Subscribe request to the connection and the second writes nothing; the
    two calls return two different channels of capacity 256, both
    registered (in this order) after the earlier subscribers of the
    session; and a data frame for the session that arrives afterwards is
    offered to both: the first channel gets it by the non-blocking send,
    the second, which is still empty, holds exactly that chunk. *)
Theorem C6_subscribe_twice :
  forall (os : OS) (w : Client.World) (sid : string) (data : list byte),
    Client.closed (Client.client w) = false ->
    Client_wf (Client.client w) ->
    default false (Client.shepherdSubbed (Client.client w) !! sid) = false ->
    len (list_byte_of_string sid) <= 255 ->
    let c0 := Client.client w in
    let r1 := Client.subscribe os sid w in
    let r2 := Client.subscribe os sid r1.1 in
    let c1 := Client.client r1.1 in
    let c2 := Client.client r2.1 in
    let c3 := Client.handleDataFrame (Protocol.dataFramePayload sid data) c2 in
    Client.written c1
    = Client.written c0
      ++ [Client.OControl
            (Protocol.mkRequest (Client.reqID (Client.reqCounter c0 + 1))
               Protocol.cmdSubscribe sid "" "" 0 0)] /\
    Client.written c2 = Client.written c1 /\
    r1.2 <> r2.2 /\
    Client.sessionSubs c2 !! sid
    = Some (default [] (Client.sessionSubs c0 !! sid) ++ [r1.2; r2.2]) /\
    (exists q1 : Chan.chan,
        Client.heap_ c2 !! r1.2 = Some q1 /\
        Chan.cap q1 = 256 /\ Chan.closed q1 = false /\
        Client.heap_ c3 !! r1.2 = Some (Chan.trySend q1 data).1) /\
    Client.heap_ c2 !! r2.2 = Some (Chan.make 256) /\
    Client.heap_ c3 !! r2.2 = Some (Chan.mkChan [data] 256 false).
Proof.
  intros os w sid data Hopen [Hwf_subs Hwf_done] Hsub Hlen c0 r1 r2 c1 c2 c3.
  subst c0 r1 r2 c1 c2 c3.
  destruct (subscribe_first os sid w Hopen Hsub)
    as (Hfresh1 & Hw1 & Hsubs1 & Hdone1 & Hsubbed1 & Hcl1 & Hev1).
  remember (Client.subscribe os sid w) as r1 eqn:Er1.
  assert (Hsub1 : default false (Client.shepherdSubbed (Client.client r1.1) !! sid)
                  = true).
  { rewrite Hsubbed1, lookup_insert_eq. reflexivity. }
  destruct (subscribe_again os sid r1.1 Hsub1)
    as (Hfresh2 & Hw2 & Hsubs2 & _ & _ & _ & Hheap2).
  remember (Client.subscribe os sid r1.1) as r2 eqn:Er2.
  remember (Client.client w) as c0 eqn:Ec0.
  remember (Client.client r1.1) as c1 eqn:Ec1.
  remember (Client.client r2.1) as c2 eqn:Ec2.
  remember (r1.2) as ch1 eqn:Ech1. remember (r2.2) as ch2 eqn:Ech2.
  remember (default [] (Client.sessionSubs c0 !! sid)) as subs0 eqn:Esubs0.
  clear Er1 Er2 Ec1 Ec2 Ech1 Ech2.
  (* the first channel is not a done channel and survives the request *)
  assert (Hnd : ~ is_done c0 ch1).
  { intros [sid' Hd]. destruct (Hwf_done sid' ch1 Hd) as [q Hq]. congruence. }
  destruct (heap_evolves_lookup _ _ _ ch1 (Chan.make 256) Hev1
              (lookup_insert_eq _ _ _) Hnd) as (q1 & Hq1 & Hcap1 & Hclosed1).
  assert (Hne : ch1 <> ch2) by congruence.
  (* earlier subscribers are other channels *)
  assert (Hold : forall ch, ch ∈ subs0 -> ch <> ch1 /\ ch <> ch2).
  { intros ch Hin. rewrite Esubs0 in Hin.
    destruct (Client.sessionSubs c0 !! sid) as [chs|] eqn:Hchs; simpl in Hin;
      [|apply elem_of_nil in Hin; contradiction].
    destruct (Hwf_subs sid chs ch Hchs Hin) as [q Hq].
    split; [congruence|]. intros Heq. subst ch.
    assert (Hq' : (<[ch1 := Chan.make 256]> (Client.heap_ c0)) !! ch2 = Some q).
    { rewrite lookup_insert_ne by exact Hne. exact Hq. }
    specialize (Hev1 ch2). rewrite Hq', Hfresh2 in Hev1. inversion Hev1. }
  assert (Hsubs : Client.sessionSubs c2 !! sid = Some (subs0 ++ [ch1; ch2])).
  { rewrite Hsubs2, lookup_insert_eq, Hsubs1, lookup_insert_eq. simpl.
    rewrite <- app_assoc. reflexivity. }
  assert (Hc3 : Client.heap_
                  (Client.handleDataFrame (Protocol.dataFramePayload sid data) c2)
                = Chan.trySendAt data ch2
                    (Chan.trySendAt data ch1
                       (foldl (fun h ch => Chan.trySendAt data ch h)
                          (Client.heap_ c2) subs0))).
  { unfold Client.handleDataFrame.
    rewrite parseDataPayload_short by exact Hlen.
    rewrite Hsubs. simpl. rewrite foldl_app. reflexivity. }
  assert (Hn1 : ch1 ∉ subs0) by (intros Hin; apply Hold in Hin as [? _]; congruence).
  assert (Hn2 : ch2 ∉ subs0) by (intros Hin; apply Hold in Hin as [_ ?]; congruence).
  assert (Hq1' : Client.heap_ c2 !! ch1 = Some q1).
  { rewrite Hheap2, lookup_insert_ne by congruence. exact Hq1. }
  assert (Hq2 : Client.heap_ c2 !! ch2 = Some (Chan.make 256)).
  { rewrite Hheap2. apply lookup_insert_eq. }
  repeat split; try assumption.
  - exists q1. repeat split; try assumption.
    rewrite Hc3. unfold Chan.trySendAt at 1 2.
    rewrite lookup_alter_ne by congruence.
    rewrite lookup_alter_eq.
    rewrite (foldl_trySendAt_notin data subs0 (Client.heap_ c2) ch1 Hn1), Hq1'.
    reflexivity.
  - rewrite Hc3. unfold Chan.trySendAt at 1 2.
    rewrite lookup_alter_eq, lookup_alter_ne by exact Hne.
    rewrite (foldl_trySendAt_notin data subs0 (Client.heap_ c2) ch2 Hn2), Hq2.
    reflexivity.
Qed.

Lemma C6_subscribe_twice_witness :
  let w := client_started in
  let r1 := Client.subscribe os_ok "abc" w in
  let r2 := Client.subscribe os_ok "abc" r1.1 in
  let c3 := Client.handleDataFrame (Protocol.dataFramePayload "abc" [x68; x69])
              (Client.client r2.1) in
  Client.written (Client.client r2.1)
  = Client.written (Client.client w)
    ++ [Client.OControl (Protocol.mkRequest "r2" "subscribe" "abc" "" "" 0 0)] /\
  r1.2 <> r2.2 /\
  Client.heap_ c3 !! r2.2 = Some (Chan.mkChan [[x68; x69]] 256 false).
Proof.
  intros w r1 r2 c3.
  assert (Hwf : Client_wf (Client.client w)).
  { split.
    - intros sid chs ch Hs. vm_compute in Hs. discriminate Hs.
    - intros sid d Hd.
      assert (Hdone : Client.sessionDone (Client.client w) = {[ "abc"%string := 1%positive ]})
        by (vm_compute; reflexivity).
      rewrite Hdone in Hd. apply lookup_singleton_Some in Hd as [_ <-].
      vm_compute. eexists. reflexivity. }
  destruct (C6_subscribe_twice os_ok w "abc"%string [x68; x69])
    as (Hw1 & Hw2 & Hne & _ & _ & _ & Hc3).
  - reflexivity.
  - exact Hwf.
  - reflexivity.
  - vm_compute. discriminate.
  - split; [|split].
    + fold r1 r2 in Hw1, Hw2. rewrite Hw2, Hw1. reflexivity.
    + exact Hne.
    + exact Hc3.
Defined.

(** ** The two backends of the session manager *)
Section Backends.
Import Protocol.

Ltac cmd_cases :=
  repeat match goal with
         | |- context [decide (?a = ?b)] =>
             destruct (decide (a = b)) as [Heq|Hne];
             [ try (exfalso; vm_compute in Heq; discriminate Heq)
             | try (exfalso; apply Hne; reflexivity) ]
         end.

Lemma handleControl_start (os : OS) (c : positive) (req : Request)
  (s : Shepherd.Shepherd) :
req_Command req = cmdStart ->
Shepherd.handleControl os c req s = Shepherd.handleStart os c req s.
Proof.
intros H. unfold Shepherd.handleControl. rewrite H. cmd_cases; reflexivity.
Qed.

Lemma handleControl_stop (os : OS) (c : positive) (req : Request)
  (s : Shepherd.Shepherd) :
req_Command req = cmdStop ->
Shepherd.handleControl os c req s = Shepherd.handleStop c req s.
Proof.
intros H. unfold Shepherd.handleControl. rewrite H. cmd_cases; reflexivity.
Qed.

Lemma handleControl_resize (os : OS) (c : positive) (req : Request)
  (s : Shepherd.Shepherd) :
req_Command req = cmdResize ->
Shepherd.handleControl os c req s = Shepherd.handleResize c req s.
Proof.
intros H. unfold Shepherd.handleControl. rewrite H. cmd_cases; reflexivity.
Qed.

Lemma handleControl_stopAll (os : OS) (c : positive) (req : Request)
  (s : Shepherd.Shepherd) :
req_Command req = cmdStopAll ->
Shepherd.handleControl os c req s
= Shepherd.sendResponse c (mkResponse (req_ID req) evtStopDone 0 "" "" [] [])
    (Shepherd.stopAll s).
Proof.
intros H. unfold Shepherd.handleControl. rewrite H. cmd_cases; reflexivity.
Qed.

Lemma sendResponse_conns (c : positive) (resp : Response) (s : Shepherd.Shepherd)
  (cw : Shepherd.connWriter) :
Shepherd.conns s !! c = Some cw -> Shepherd.connClosed cw = false ->
Shepherd.conns (Shepherd.sendResponse c resp s) !! c
= Some (Shepherd.mkConn (Shepherd.sent cw ++ [Shepherd.FControl resp]) false).
Proof.
intros Hc Hopen. unfold Shepherd.sendResponse, Shepherd.writeControl. simpl.
rewrite lookup_alter_eq, Hc. simpl. unfold Shepherd.connWrite.
rewrite Hopen. reflexivity.
Qed.

Lemma handleStart_conns (os : OS) (c : positive) (req : Request)
  (s : Shepherd.Shepherd) (cw : Shepherd.connWriter) :
Shepherd.conns s !! c = Some cw -> Shepherd.connClosed cw = false ->
Shepherd.conns (Shepherd.handleStart os c req s) !! c
= Some (Shepherd.mkConn
          (Shepherd.sent cw ++ [Shepherd.FControl (start_response os req)]) false).
Proof.
intros Hc Hopen. unfold Shepherd.handleStart, start_response.
destruct (startWithSize os (req_CLIType req) (req_WorkDir req)) as [child|e];
  apply sendResponse_conns; assumption.
Qed.

Lemma handleStop_conns (c : positive) (req : Request)
  (s : Shepherd.Shepherd) (cw : Shepherd.connWriter) :
Shepherd.conns s !! c = Some cw -> Shepherd.connClosed cw = false ->
Shepherd.conns (Shepherd.handleStop c req s) !! c
= Some (Shepherd.mkConn
          (Shepherd.sent cw
             ++ [Shepherd.FControl (mkResponse (req_ID req) evtStopDone 0 "" "" [] [])])
          false).
Proof.
intros Hc Hopen. unfold Shepherd.handleStop.
destruct (Shepherd.sessions s !! req_SessionID req);
  apply sendResponse_conns; assumption.
Qed.


Lemma stopAll_conns (s : Shepherd.Shepherd) :
Shepherd.conns (Shepherd.stopAll s) = Shepherd.conns s.
Proof.
unfold Shepherd.stopAll.
generalize (map_to_list (Shepherd.sessions s)). intros l.
change (Shepherd.conns s) with (Shepherd.conns (Shepherd.set_sessions ∅ s)).
generalize (Shepherd.set_sessions ∅ s). intros s0. revert s0.
induction l as [|kv l IH]; intros s0; simpl; [reflexivity|].
rewrite IH. reflexivity.
Qed.

Lemma reqID_nonempty (n : Z) : Client.reqID n <> ""%string.
Proof. unfold Client.reqID. discriminate. Qed.

(** A request on a healthy link whose handler writes one response with
    the request's identifier: [sendRequest] returns that response. *)
Lemma sendRequest_reply (os : OS) (req : Request) (w : Client.World)
  (cw : Shepherd.connWriter) (resp : Response) :
Client.closed (Client.client w) = false ->
Shepherd.conns (Client.shepherd w) !! Client.conn (Client.client w) = Some cw ->
Client.nread (Client.client w) = length (Shepherd.sent cw) ->
let req' := Client.set_ID (Client.reqID (Client.reqCounter (Client.client w) + 1)) req in
let s' := Shepherd.handleControl os (Client.conn (Client.client w)) req'
            (Client.shepherd w) in
Shepherd.conns s' !! Client.conn (Client.client w)
= Some (Shepherd.mkConn (Shepherd.sent cw ++ [Shepherd.FControl resp]) false) ->
resp_ID resp = req_ID req' ->
exists w' : Client.World,
  Client.sendRequest os req w = (w', Ok resp) /\
  link_ok w' /\
  Client.shepherd w' = s' /\
  Client.sessionDone (Client.client w') = Client.sessionDone (Client.client w) /\
  Client.sessionSubs (Client.client w') = Client.sessionSubs (Client.client w) /\
  Client.shepherdSubbed (Client.client w')
  = Client.shepherdSubbed (Client.client w) /\
  Client.heap_ (Client.client w') = Client.heap_ (Client.client w).
Proof.
intros Hopen Hc Hn req' s' Hs' Hid.
unfold Client.sendRequest. simpl. rewrite Hopen.
fold req' s'. unfold Client.unread. simpl. rewrite Hs'. simpl.
rewrite Hn, drop_app_length. simpl.
assert (Hex : Client.isExitNotification resp = false).
{ unfold Client.isExitNotification. apply andb_false_intro2.
  apply bool_decide_eq_false_2. rewrite Hid. apply reqID_nonempty. }
rewrite Hex.
match goal with
| |- context [decide ?P] =>
    destruct (decide P) as [_|Hne]; [|exfalso; apply Hne; exact Hid]
end.
eexists. split; [reflexivity|]. simpl.
split; [|repeat split; reflexivity].
split; [exact Hopen|]. simpl. eexists. split; [exact Hs'|].
split; [reflexivity|]. simpl. rewrite length_app. simpl. lia.
Qed.

Lemma start_response_ID (os : OS) (req : Request) :
resp_ID (start_response os req) = req_ID req.
Proof.
unfold start_response.
destruct (startWithSize os (req_CLIType req) (req_WorkDir req)); reflexivity.
Qed.





Lemma Manager_Stop_dom (id : string) (m : Pty.Manager) :
dom (Pty.sessions (Pty.Manager_Stop id m).1) = dom (Pty.sessions m) ∖ {[id]}.
Proof.
unfold Pty.Manager_Stop.
destruct (Pty.sessions m !! id) as [p|] eqn:Hp; simpl.
- apply dom_delete_L.
- apply not_elem_of_dom in Hp. apply set_eq. intros x.
  rewrite elem_of_difference, elem_of_singleton. split; [|tauto].
  intros Hx. split; [exact Hx|]. intros ->. contradiction.
Qed.




Lemma NewClient_agree (s : Shepherd.Shepherd) :
backends_agree Pty.NewManager (Client.NewClient s).
Proof.
unfold backends_agree, link_ok, Client.NewClient, Shepherd.accept. simpl.
split; [|reflexivity]. split; [reflexivity|].
eexists. split; [apply lookup_insert_eq|]. split; reflexivity.
Qed.


End Backends.

(** After [StopAll] the local manager knows no session at all. *)
Lemma Manager_StopAll_forgets (m : Pty.Manager) :
  Pty.sessions (Pty.Manager_StopAll m) = ∅.
Proof.
  unfold Pty.Manager_StopAll.
  assert (Hgen : forall (l : list string) (m0 : Pty.Manager),
             dom (Pty.sessions (foldl (fun m id => (Pty.Manager_Stop id m).1) m0 l))
             = dom (Pty.sessions m0) ∖ list_to_set l).
  { induction l as [|a l IH]; intros m0; simpl.
    - apply set_eq. intros x. rewrite elem_of_difference.
      split; [|tauto]. intros Hx. split; [exact Hx | apply not_elem_of_empty].
    - rewrite IH, Manager_Stop_dom. apply set_eq. intros x.
      rewrite !elem_of_difference, elem_of_union, elem_of_singleton. tauto. }
  apply dom_empty_iff_L. rewrite Hgen. apply set_eq. intros x.
  rewrite elem_of_difference, elem_of_list_to_set, elem_of_elements.
  split; [tauto | intros Hx; exfalso; revert Hx; apply not_elem_of_empty].
Qed.

(** [Client.StopAll] on a healthy link leaves the client's tables as they
    are, so [Get] answers as before. *)
Lemma Client_StopAll_keeps_handles (os : OS) (w : Client.World) (id : string) :
  link_ok w ->
  has_handle id (Client.Client_StopAll os w) = has_handle id w.
Proof.
  intros (Hopen & cw & Hc & Hcl & Hn). unfold Client.Client_StopAll.
  match goal with
  | |- context [Client.sendRequest os ?r ?w0] =>
      destruct (sendRequest_reply os r w0 cw
                  (Protocol.mkResponse
                     (Client.reqID (Client.reqCounter (Client.client w0) + 1))
                     Protocol.evtStopDone 0 "" "" [] []))
        as (w1 & Hsend & _ & _ & Hdone & _)
  end; try assumption.
  { cbv zeta. rewrite handleControl_stopAll by reflexivity.
    apply sendResponse_conns; [|exact Hcl]. rewrite stopAll_conns. exact Hc. }
  { reflexivity. }
  rewrite Hsend. unfold has_handle. simpl. unfold Client.Client_Get.
  rewrite Hdone. reflexivity.
Qed.

(** Starting an identifier again with a command that cannot be spawned:
    the local manager keeps the first session, the client drops its done
    channel and [Get] returns nil. *)
Example restart_failure_diverges :
  has_handle "abc"
    (run os_claude_only [OpStart "abc" "claude" "/tmp"; OpStart "abc" "nope" "/tmp"]
       Pty.NewManager)
  = true /\
  has_handle "abc"
    (run os_claude_only [OpStart "abc" "claude" "/tmp"; OpStart "abc" "nope" "/tmp"]
       (Client.NewClient Shepherd.new))
  = false.
Proof. split; vm_compute; reflexivity. Qed.




(** ** The WebSocket bridge *)
Section Bridge.
Context {W H : Type} `{!SessionHandle W H} `{!SessionManager W H}.
Variable os : OS.
Variable sessionID : string.
Variable sess : H.







End Bridge.

Section BridgeOrder.



End BridgeOrder.


Example bridge_scenario_trace :
  exists ch : positive,
    Ws.trace (Ws.run os_ok "abc" 1%positive attach_then_gh pty_abcdef).2
    = [Ws.CallReplay [x61; x62; x63; x64; x65; x66];
       Ws.WriteReplay [x61; x62; x63; x64; x65; x66];
       Ws.CallSubscribe ch;
       Ws.WriteOutput [x67; x68]].
Proof. eexists. vm_compute. reflexivity. Qed.


(** ** The gateway without a tunnel *)




(** ** The reverse-tunnel client *)
Section Backoff.
Import TunnelClient.

Lemma double_capped (k : nat) :
Z.min (Z.min (2 ^ Z.of_nat k * Second) (30 * Second) * 2) (30 * Second)
= Z.min (2 ^ Z.of_nat (S k) * Second) (30 * Second).
Proof.
rewrite Nat2Z.inj_succ, Z.pow_succ_r by lia. unfold Second. lia.
Qed.

Lemma Run_loop_formula (k : nat) (attempts : list attempt) :
Run_loop (Z.min (2 ^ Z.of_nat k * Second) (30 * Second)) (30 * Second) attempts
= map (fun i : nat => Z.min (2 ^ Z.of_nat i * Second) (30 * Second))
    (seq k (length attempts)).
Proof.
revert k. induction attempts as [|a attempts IH]; intros k; simpl; [reflexivity|].
assert (Hc : exists e, connect a = Some e) by (destruct a; eexists; reflexivity).
destruct Hc as [e ->]. f_equal. rewrite double_capped. apply IH.
Qed.

End Backoff.

(** C9: the delays of the reverse-tunnel client start at 1 s and double up
    to 30 s, as claimed, but they never go back to 1 s: [connect] returns
    an error on every path, also when the tunnel was established and has
    ended, so the k-th sleep of [Run] lasts min(2^k s, 30 s) whatever the
    attempts were. After three failed dials, a connection that serves two
    streams and ends is followed by a sleep of 8 s, not 1 s. *)
Theorem C9_backoff_never_resets :
  (forall attempts : list TunnelClient.attempt,
      TunnelClient.Run attempts
      = map (fun i : nat =>
               Z.min (2 ^ Z.of_nat i * TunnelClient.Second) (30 * TunnelClient.Second))
          (seq 0 (length attempts))) /\
  (forall a : TunnelClient.attempt, TunnelClient.connect a <> None) /\
  TunnelClient.Run
    [TunnelClient.DialFails; TunnelClient.DialFails; TunnelClient.DialFails;
     TunnelClient.Connected 2; TunnelClient.DialFails; TunnelClient.DialFails;
     TunnelClient.DialFails]
  = [1 * TunnelClient.Second; 2 * TunnelClient.Second; 4 * TunnelClient.Second;
     8 * TunnelClient.Second; 16 * TunnelClient.Second; 30 * TunnelClient.Second;
     30 * TunnelClient.Second].
Proof.
  split; [|split].
  - intros attempts. unfold TunnelClient.Run.
    rewrite <- (Run_loop_formula 0 attempts). reflexivity.
  - intros a. destruct a; discriminate.
  - reflexivity.
Qed.

(** ** More on the frame codec *)
Section CodecMore.
Import Protocol.

Lemma putUint32_getUint32 (b0 b1 b2 b3 : byte) :
putUint32 (getUint32 [b0; b1; b2; b3]) = [b0; b1; b2; b3].
Proof.
unfold putUint32, getUint32.
pose proof (Z_of_byte_range b0) as H0. pose proof (Z_of_byte_range b1) as H1.
pose proof (Z_of_byte_range b2) as H2. pose proof (Z_of_byte_range b3) as H3.
set (v := Z.lor _ _).
assert (Hbits : forall n, 0 <= n ->
           Z.testbit v n
           = if n <? 8 then Z.testbit (Z_of_byte b3) n
             else if n <? 16 then Z.testbit (Z_of_byte b2) (n - 8)
             else if n <? 24 then Z.testbit (Z_of_byte b1) (n - 16)
             else Z.testbit (Z_of_byte b0) (n - 24)).
{ intros n Hn. unfold v. rewrite !Z.lor_spec, !Z.shiftl_spec by exact Hn.
  assert (Hhigh : forall (b : byte) m, 8 <= m -> Z.testbit (Z_of_byte b) m = false).
  { intros b m Hm. pose proof (Z_of_byte_range b) as Hb.
    rewrite <- (Z.mod_small (Z_of_byte b) (2 ^ 8)) by lia.
    apply Z.mod_pow2_bits_high. lia. }
  assert (Hneg : forall (b : byte) m, m < 0 -> Z.testbit (Z_of_byte b) m = false).
  { intros b m Hm. apply Z.testbit_neg_r. exact Hm. }
  destruct (Z.ltb_spec n 8); [|destruct (Z.ltb_spec n 16); [|destruct (Z.ltb_spec n 24)]].
  - rewrite (Hneg b2), (Hneg b1), (Hneg b0) by lia.
    rewrite !orb_false_r. reflexivity.
  - rewrite (Hhigh b3), (Hneg b1), (Hneg b0) by lia.
    rewrite !orb_false_r. reflexivity.
  - rewrite (Hhigh b3), (Hhigh b2), (Hneg b0) by lia.
    rewrite !orb_false_r. reflexivity.
  - rewrite (Hhigh b3), (Hhigh b2), (Hhigh b1) by lia. reflexivity. }
assert (Hbyte : forall (k : Z) (b : byte),
           (forall n, 0 <= n < 8 -> Z.testbit v (n + k) = Z.testbit (Z_of_byte b) n) ->
           0 <= k -> byte_of_Z (Z.shiftr v k) = b).
{ intros k b Hk Hk0. rewrite <- (byte_of_Z_of_byte b). unfold byte_of_Z.
  rewrite (Z.mod_small (Z_of_byte b) 256) by apply Z_of_byte_range.
  replace (Z.shiftr v k mod 256) with (Z_of_byte b); [reflexivity|].
  apply Z.bits_inj'. intros n Hn. rewrite testbit_low_byte.
  destruct (Z.leb_spec 0 n) as [_|?]; [|lia]. simpl.
  destruct (Z.ltb_spec n 8).
  - rewrite Z.shiftr_spec by exact Hn. symmetry. apply Hk. lia.
  - pose proof (Z_of_byte_range b) as Hb.
    rewrite <- (Z.mod_small (Z_of_byte b) (2 ^ 8)) by lia.
    apply Z.mod_pow2_bits_high. lia. }
f_equal; [|f_equal; [|f_equal; [|f_equal]]].
- apply Hbyte; [|lia]. intros n Hn. rewrite Hbits by lia.
  destruct (Z.ltb_spec (n + 24) 8); [lia|]. destruct (Z.ltb_spec (n + 24) 16); [lia|].
  destruct (Z.ltb_spec (n + 24) 24); [lia|]. f_equal. lia.
- apply Hbyte; [|lia]. intros n Hn. rewrite Hbits by lia.
  destruct (Z.ltb_spec (n + 16) 8); [lia|]. destruct (Z.ltb_spec (n + 16) 16); [lia|].
  destruct (Z.ltb_spec (n + 16) 24); [|lia]. f_equal. lia.
- apply Hbyte; [|lia]. intros n Hn. rewrite Hbits by lia.
  destruct (Z.ltb_spec (n + 8) 8); [lia|]. destruct (Z.ltb_spec (n + 8) 16); [|lia].
  f_equal. lia.
- rewrite <- (Z.shiftr_0_r v). apply Hbyte; [|lia]. intros n Hn.
  rewrite Hbits by lia. rewrite Z.add_0_r.
  destruct (Z.ltb_spec n 8); [reflexivity | lia].
Qed.

Lemma getUint32_range (b0 b1 b2 b3 : byte) : 0 <= getUint32 [b0; b1; b2; b3] < 2 ^ 32.
Proof.
unfold getUint32.
pose proof (Z_of_byte_range b0) as H0. pose proof (Z_of_byte_range b1) as H1.
pose proof (Z_of_byte_range b2) as H2. pose proof (Z_of_byte_range b3) as H3.
set (v := Z.lor _ _).
assert (Hnn : 0 <= v).
{ unfold v. repeat (apply Z.lor_nonneg; split); try lia;
    apply Z.shiftl_nonneg; lia. }
split; [exact Hnn|].
destruct (Z.eq_dec v 0) as [->|Hv0]; [lia|].
apply Z.log2_lt_pow2; [lia|].
unfold v.
repeat (rewrite Z.log2_lor; [|try lia; try (apply Z.shiftl_nonneg; lia);
                                repeat (apply Z.lor_nonneg; split); try lia;
                                apply Z.shiftl_nonneg; lia ..]).
assert (Hlog : forall (b : byte) k, 0 <= k -> Z.log2 (Z.shiftl (Z_of_byte b) k) < 8 + k).
{ intros b k Hk. pose proof (Z_of_byte_range b) as Hb.
  destruct (Z.eq_dec (Z_of_byte b) 0) as [->|Hb0].
  - rewrite Z.shiftl_0_l. simpl. lia.
  - rewrite Z.log2_shiftl by lia.
    assert (Z.log2 (Z_of_byte b) < 8) by (apply Z.log2_lt_pow2; lia). lia. }
pose proof (Hlog b2 8) as L2. pose proof (Hlog b1 16) as L1. pose proof (Hlog b0 24) as L0.
assert (L3 : Z.log2 (Z_of_byte b3) < 8).
{ destruct (Z.eq_dec (Z_of_byte b3) 0) as [->|?]; [simpl; lia|].
  apply Z.log2_lt_pow2; lia. }
lia.
Qed.

End CodecMore.

Section CodecErrors.
Import Protocol.

Lemma readFull_Ok (r a r' : list byte) (n : Z) :
0 <= n -> readFull r n = Ok (a, r') -> r = a ++ r' /\ len a = n.
Proof.
intros Hn. unfold readFull.
destruct (Z.leb_spec n (len r)) as [Hle|Hlt].
- intros [= <- <-]. split; [symmetry; apply take_drop|].
  unfold len in *. rewrite length_take. lia.
- destruct r; discriminate.
Qed.

Lemma readFull_short (r : list byte) (n : Z) :
len r < n -> exists e, readFull r n = Err e /\ (e = EOF \/ e = ErrUnexpectedEOF).
Proof.
intros Hlt. unfold readFull.
destruct (Z.leb_spec n (len r)) as [?|_]; [lia|].
destruct r; eexists; (split; [reflexivity|]); [left | right]; reflexivity.
Qed.

Lemma writeFrame_app (w : list byte) (t : byte) (p : list byte) :
writeFrame w t p = w ++ writeFrame [] t p.
Proof. unfold writeFrame. rewrite app_nil_l, <- !app_assoc. reflexivity. Qed.

Lemma writeFrames_app (w : list byte) (frames : list (byte * list byte)) :
writeFrames w frames = w ++ writeFrames [] frames.
Proof.
unfold writeFrames. revert w. induction frames as [|f frames IH]; intros w; simpl.
- rewrite app_nil_r. reflexivity.
- rewrite IH, (IH (writeFrame [] f.1 f.2)), (writeFrame_app w), <- app_assoc.
  reflexivity.
Qed.

Lemma writeFrame_length (t : byte) (p : list byte) :
length (writeFrame [] t p) = (5 + length p)%nat.
Proof. unfold writeFrame. rewrite !length_app. reflexivity. Qed.

Lemma readFrame_header (n : Z) (rest : list byte) :
0 <= n < 2 ^ 32 ->
readFrame (putUint32 n ++ rest)
= if n =? 0 then Err ErrEmptyFrame
  else if n >? 10 * 1024 * 1024 then Err (ErrFrameTooLarge n)
  else match readFull rest n with
       | Err e => Err e
       | Ok (buf, r) =>
           match buf with
           | [] => Err ErrEmptyFrame
           | b0 :: p => Ok (b0, p, r)
           end
       end.
Proof.
intros Hn. unfold readFrame.
rewrite readFull_app by reflexivity.
rewrite getUint32_putUint32 by exact Hn. reflexivity.
Qed.

End CodecErrors.

(** X1: a frame header that announces length 0 is rejected as an empty
    frame, and one that announces more than 10*1024*1024 bytes is rejected
    as too large, whatever follows the four header bytes: the body is not
    looked at. *)
Theorem X1_readFrame_rejects_bad_length :
  forall (n : Z) (rest : list byte),
    0 <= n < 2 ^ 32 ->
    (n = 0 -> Protocol.readFrame (Protocol.putUint32 n ++ rest) = Err ErrEmptyFrame) /\
    (10 * 1024 * 1024 < n ->
     Protocol.readFrame (Protocol.putUint32 n ++ rest) = Err (ErrFrameTooLarge n)).
Proof.
  intros n rest Hn. rewrite readFrame_header by exact Hn. split.
  - intros ->. reflexivity.
  - intros Hbig. destruct (Z.eqb_spec n 0) as [?|_]; [lia|].
    destruct (Z.gtb_spec n (10 * 1024 * 1024)) as [_|?]; [reflexivity | lia].
Qed.

Lemma X1_readFrame_rejects_bad_length_witness :
  Protocol.readFrame ([x00; x00; x00; x00] ++ [x01; x7b; x7d]) = Err ErrEmptyFrame /\
  Protocol.readFrame ([x00; xa0; x00; x01] ++ []) = Err (ErrFrameTooLarge 10485761).
Proof.
  split.
  - apply (X1_readFrame_rejects_bad_length 0 [x01; x7b; x7d]); [lia | reflexivity].
  - apply (X1_readFrame_rejects_bad_length 10485761 []); lia.
Defined.

(** X2: whenever [readFrame] accepts a stream, the stream is exactly the
    encoding by [writeFrame] of the type and payload it returns, followed
    by the bytes it leaves unread; the payload it returns is shorter than
    10*1024*1024 bytes. *)
Theorem X2_readFrame_then_writeFrame :
  forall (r : list byte) (t : byte) (payload rest : list byte),
    Protocol.readFrame r = Ok (t, payload, rest) ->
    r = Protocol.writeFrame [] t payload ++ rest /\
    len payload < 10 * 1024 * 1024.
Proof.
  intros r t payload rest. unfold Protocol.readFrame.
  destruct (Protocol.readFull r 4) as [[hdr r1]|e] eqn:Hhdr; [|discriminate].
  apply readFull_Ok in Hhdr as [-> Hlen4]; [|lia].
  destruct hdr as [|b0 [|b1 [|b2 [|b3 [|b4 hdr]]]]];
    try (unfold len in Hlen4; simpl in Hlen4; lia).
  pose proof (getUint32_range b0 b1 b2 b3) as Hrange.
  set (L := Protocol.getUint32 [b0; b1; b2; b3]) in *.
  destruct (Z.eqb_spec L 0) as [?|HL0]; [discriminate|].
  destruct (Z.gtb_spec L (10 * 1024 * 1024)) as [?|HLmax]; [discriminate|].
  destruct (Protocol.readFull r1 L) as [[buf r2]|e] eqn:Hbody; [|discriminate].
  apply readFull_Ok in Hbody as [-> HlenL]; [|lia].
  destruct buf as [|b buf]; [discriminate|].
  intros [= -> -> ->].
  assert (Hp : 1 + len payload = L).
  { rewrite <- HlenL. unfold len. simpl. lia. }
  split; [|lia].
  unfold Protocol.writeFrame. rewrite Hp.
  unfold uint32. rewrite Z.mod_small by lia.
  unfold L. rewrite putUint32_getUint32. reflexivity.
Qed.

Lemma X2_readFrame_then_writeFrame_witness :
  [x00; x00; x00; x03; x02; x68; x69; xff]
  = Protocol.writeFrame [] x02 [x68; x69] ++ [xff] /\
  len [x68; x69] < 10 * 1024 * 1024.
Proof.
  apply (X2_readFrame_then_writeFrame [x00; x00; x00; x03; x02; x68; x69; xff]).
  reflexivity.
Defined.

Lemma readFrame_truncated :
  forall (t : byte) (payload : list byte) (k : nat),
    len payload < 10 * 1024 * 1024 ->
    (k < length (Protocol.writeFrame [] t payload))%nat ->
    exists e : error,
      Protocol.readFrame (take k (Protocol.writeFrame [] t payload)) = Err e /\
      (e = EOF \/ e = ErrUnexpectedEOF).
Proof.
  intros t payload k Hlen Hk. rewrite writeFrame_length in Hk.
  pose proof (len_nonneg payload) as Hp.
  unfold Protocol.writeFrame.
  assert (Hu : uint32 (1 + len payload) = 1 + len payload).
  { unfold uint32. apply Z.mod_small. lia. }
  rewrite Hu, app_nil_l, <- app_assoc.
  set (hdr := Protocol.putUint32 (1 + len payload)).
  assert (Hh : length hdr = 4%nat) by reflexivity.
  destruct (Nat.lt_ge_cases k 4) as [Hk4|Hk4].
  - unfold Protocol.readFrame.
    destruct (readFull_short (take k (hdr ++ [t] ++ payload)) 4) as (e & He & Hcase).
    { unfold len. rewrite length_take. lia. }
    rewrite He. exists e. split; [reflexivity | exact Hcase].
  - rewrite take_app_ge by lia. rewrite Hh.
    unfold hdr. rewrite readFrame_header by lia.
    destruct (Z.eqb_spec (1 + len payload) 0) as [?|_]; [lia|].
    destruct (Z.gtb_spec (1 + len payload) (10 * 1024 * 1024)) as [?|_]; [lia|].
    destruct (readFull_short (take (k - 4) ([t] ++ payload)) (1 + len payload))
      as (e & He & Hcase).
    { unfold len in *. rewrite length_take, length_app. simpl. lia. }
    rewrite He. exists e. split; [reflexivity | exact Hcase].
Qed.


(** X3: a frame that is cut short is never accepted: on every proper
    prefix of an encoded frame [readFrame] fails with [EOF] (nothing left
    to read) or [ErrUnexpectedEOF], and returns no partial payload. *)
Theorem X3_truncated_frame_rejected :
  forall (t : byte) (payload : list byte) (k : nat),
    len payload < 10 * 1024 * 1024 ->
    (k < length (Protocol.writeFrame [] t payload))%nat ->
    exists e : error,
      Protocol.readFrame (take k (Protocol.writeFrame [] t payload)) = Err e /\
      (e = EOF \/ e = ErrUnexpectedEOF).
Proof. exact readFrame_truncated. Qed.

Lemma X3_truncated_frame_rejected_witness :
  exists e : error,
    Protocol.readFrame (take 6 (Protocol.writeFrame [] x02 [x68; x69])) = Err e /\
    (e = EOF \/ e = ErrUnexpectedEOF).
Proof.
  apply (X3_truncated_frame_rejected x02 [x68; x69] 6); [reflexivity|].
  vm_compute. lia.
Defined.

Section FrameStream.
Import Protocol.
Context {S : Type}.
Variable dispatch : byte -> list byte -> S -> S.

Lemma readFrames_writeFrames (frames : list (byte * list byte)) (tail : list byte)
  (fuel : nat) (s : S) :
Forall (fun f => len f.2 < 10 * 1024 * 1024) frames ->
readFrames dispatch (length frames + fuel) (writeFrames [] frames ++ tail) s
= readFrames dispatch fuel tail (foldl (fun s f => dispatch f.1 f.2 s) s frames).
Proof.
revert s. induction frames as [|[t p] frames IH]; intros s Hall; simpl.
- reflexivity.
- apply Forall_cons in Hall as [Hp Hall]. simpl in Hp.
  unfold writeFrames. simpl. fold (writeFrames (writeFrame [] t p) frames).
  rewrite writeFrames_app, <- app_assoc.
  rewrite readFrame_writeFrame by exact Hp.
  apply IH. exact Hall.
Qed.

End FrameStream.

(** X4: the reading loop of [handleConn] and [readLoop], run on the bytes
    left by a sequence of [writeFrame] calls (payloads under 10*1024*1024
    bytes), hands exactly those frames to the dispatcher, in order, and
    then ends with [EOF]; when the stream breaks off inside a further
    frame, the complete frames are still dispatched and the loop ends with
    [EOF] or [ErrUnexpectedEOF]. *)
Theorem X4_frame_stream_roundtrip :
  forall (S : Type) (dispatch : byte -> list byte -> S -> S)
         (frames : list (byte * list byte)) (t : byte) (payload : list byte)
         (k fuel : nat) (s : S),
    Forall (fun f => len f.2 < 10 * 1024 * 1024) frames ->
    len payload < 10 * 1024 * 1024 ->
    (k < length (Protocol.writeFrame [] t payload))%nat ->
    (length frames < fuel)%nat ->
    Protocol.readFrames dispatch fuel (Protocol.writeFrames [] frames) s
    = (foldl (fun s f => dispatch f.1 f.2 s) s frames, Some EOF) /\
    exists e : error,
      Protocol.readFrames dispatch fuel
        (Protocol.writeFrames [] frames ++ take k (Protocol.writeFrame [] t payload)) s
      = (foldl (fun s f => dispatch f.1 f.2 s) s frames, Some e) /\
      (e = EOF \/ e = ErrUnexpectedEOF).
Proof.
  intros S dispatch frames t payload k fuel s Hall Hp Hk Hfuel.
  replace fuel with (length frames + Datatypes.S (fuel - length frames - 1))%nat by lia.
  split.
  - rewrite <- (app_nil_r (Protocol.writeFrames [] frames)).
    rewrite readFrames_writeFrames by exact Hall. reflexivity.
  - rewrite readFrames_writeFrames by exact Hall.
    destruct (readFrame_truncated t payload k Hp Hk) as (e & He & Hcase).
    exists e. split; [|exact Hcase]. simpl. rewrite He. reflexivity.
Qed.

Lemma X4_frame_stream_roundtrip_witness :
  Protocol.readFrames (fun t p (log : list (byte * list byte)) => log ++ [(t, p)]) 5
    (Protocol.writeFrames [] [(x01, [x7b; x7d]); (x02, [x01; x61; x68; x69])]) []
  = ([(x01, [x7b; x7d]); (x02, [x01; x61; x68; x69])], Some EOF).
Proof.
  apply (X4_frame_stream_roundtrip _
           (fun t p (log : list (byte * list byte)) => log ++ [(t, p)])
           [(x01, [x7b; x7d]); (x02, [x01; x61; x68; x69])] x03 [x00] 3 5 []).
  - repeat constructor.
  - reflexivity.
  - vm_compute. lia.
  - simpl. lia.
Defined.

Section DataPayload.
Import Protocol.

Lemma parseDataPayload_Ok (payload : list byte) (sid : string) (data : list byte) :
parseDataPayload payload = Ok (sid, data) ->
dataFramePayload sid data = payload /\ len (list_byte_of_string sid) <= 255.
Proof.
unfold parseDataPayload. destruct payload as [|p0 rest]; [discriminate|].
pose proof (Z_of_byte_range p0) as Hr.
destruct (Z.ltb_spec (len (p0 :: rest)) (1 + Z_of_byte p0)) as [?|Hge]; [discriminate|].
intros [= <- <-].
assert (Hk : (Z.to_nat (Z_of_byte p0) <= length rest)%nat).
{ unfold len in Hge. simpl in Hge. lia. }
unfold dataFramePayload. rewrite list_byte_of_string_of_list_byte.
simpl drop at 1. rewrite drop_0.
assert (Hlen : len (take (Z.to_nat (Z_of_byte p0)) rest) = Z_of_byte p0).
{ unfold len. rewrite length_take. lia. }
rewrite Hlen, byte_of_Z_of_byte. split; [|lia].
replace (Z.to_nat (1 + Z_of_byte p0)) with (Datatypes.S (Z.to_nat (Z_of_byte p0))) by lia.
simpl. rewrite take_drop. reflexivity.
Qed.

End DataPayload.

(** X5: [parseDataPayload] fails on the empty payload and on a payload
    shorter than its first byte announces; whenever it succeeds, the
    session id it returns has at most 255 bytes and [writeDataFrame]'s
    payload for the returned id and data is the payload that was parsed. *)
Theorem X5_parseDataPayload_inverse :
  Protocol.parseDataPayload [] = Err ErrDataPayloadTooShort /\
  (forall (p0 : byte) (rest : list byte),
      len rest < Z_of_byte p0 ->
      Protocol.parseDataPayload (p0 :: rest) = Err ErrDataPayloadTooShortForID) /\
  (forall (payload : list byte) (sid : string) (data : list byte),
      Protocol.parseDataPayload payload = Ok (sid, data) ->
      Protocol.dataFramePayload sid data = payload /\
      len (list_byte_of_string sid) <= 255).
Proof.
  split; [reflexivity|]. split; [|exact parseDataPayload_Ok].
  intros p0 rest Hshort. unfold Protocol.parseDataPayload.
  destruct (Z.ltb_spec (len (p0 :: rest)) (1 + Z_of_byte p0)) as [_|Hge];
    [reflexivity|].
  unfold len in *. simpl in Hge. lia.
Qed.

Lemma X5_parseDataPayload_inverse_witness :
  Protocol.parseDataPayload [x05; x61; x62] = Err ErrDataPayloadTooShortForID /\
  Protocol.dataFramePayload "ab" [x68; x69] = [x02; x61; x62; x68; x69].
Proof.
  destruct X5_parseDataPayload_inverse as (_ & Hshort & Hinv). split.
  - apply (Hshort x05 [x61; x62]). vm_compute. reflexivity.
  - apply (Hinv [x02; x61; x62; x68; x69] "ab"%string [x68; x69]). reflexivity.
Defined.

(** ** The supervisor's request handlers *)
Section Handlers.
Import Protocol.

Ltac cmd_split :=
  repeat match goal with
         | |- context [decide (?a = ?b)] =>
             destruct (decide (a = b)) as [Heq|Hne];
             [ try (exfalso; vm_compute in Heq; discriminate Heq)
             | try (exfalso; apply Hne; reflexivity) ]
         end.

Lemma handleControl_replay (os : OS) (c : positive) (req : Request)
  (s : Shepherd.Shepherd) :
req_Command req = cmdReplay ->
Shepherd.handleControl os c req s = Shepherd.handleReplay c req s.
Proof.
intros H. unfold Shepherd.handleControl. rewrite H. cmd_split; reflexivity.
Qed.

Lemma handleControl_subscribe (os : OS) (c : positive) (req : Request)
  (s : Shepherd.Shepherd) :
req_Command req = cmdSubscribe ->
Shepherd.handleControl os c req s = Shepherd.handleSubscribe c req s.
Proof.
intros H. unfold Shepherd.handleControl. rewrite H. cmd_split; reflexivity.
Qed.

Lemma handleControl_list (os : OS) (c : positive) (req : Request)
  (s : Shepherd.Shepherd) :
req_Command req = cmdList ->
Shepherd.handleControl os c req s = Shepherd.handleList c req s.
Proof.
intros H. unfold Shepherd.handleControl. rewrite H. cmd_split; reflexivity.
Qed.

Lemma handleControl_ping (os : OS) (c : positive) (req : Request)
  (s : Shepherd.Shepherd) :
req_Command req = cmdPing ->
Shepherd.handleControl os c req s
= Shepherd.sendResponse c (mkResponse (req_ID req) evtPong 0 "" "" [] []) s.
Proof.
intros H. unfold Shepherd.handleControl. rewrite H. cmd_split; reflexivity.
Qed.

Lemma handleControl_unknown (os : OS) (c : positive) (req : Request)
  (s : Shepherd.Shepherd) :
~ known_command (req_Command req) -> Shepherd.handleControl os c req s = s.
Proof.
intros Hn. unfold Shepherd.handleControl.
repeat match goal with
       | |- context [decide (?a = ?b)] =>
           destruct (decide (a = b)) as [Heq|_];
           [exfalso; apply Hn; unfold known_command; rewrite Heq;
            repeat first [apply list_elem_of_here | apply list_elem_of_further]|]
       end.
reflexivity.
Qed.

Lemma sendResponse_replied (cw : positive) (req : Request) (resp : Response)
  (s0 s : Shepherd.Shepherd) :
resp_ID resp = req_ID req ->
Shepherd.conns s = Shepherd.conns s0 -> Shepherd.clients s = Shepherd.clients s0 ->
replied cw req s0 (Shepherd.sendResponse cw resp s).
Proof.
intros Hid Hc Hcl. exists resp. split; [exact Hid|].
unfold Shepherd.sendResponse, Shepherd.writeControl. simpl.
rewrite Hc, Hcl. split; reflexivity.
Qed.

Lemma handleControl_replied (os : OS) (cw : positive) (req : Request)
  (s : Shepherd.Shepherd) :
known_command (req_Command req) ->
replied cw req s (Shepherd.handleControl os cw req s).
Proof.
unfold known_command. rewrite !elem_of_cons, elem_of_nil.
intros [H|[H|[H|[H|[H|[H|[H|[H|[]]]]]]]]].
- rewrite handleControl_ping by exact H. apply sendResponse_replied; reflexivity.
- rewrite handleControl_start by exact H. unfold Shepherd.handleStart.
  destruct (startWithSize os (req_CLIType req) (req_WorkDir req));
    apply sendResponse_replied; reflexivity.
- rewrite handleControl_stop by exact H. unfold Shepherd.handleStop.
  destruct (Shepherd.sessions s !! req_SessionID req);
    apply sendResponse_replied; reflexivity.
- rewrite handleControl_resize by exact H. unfold Shepherd.handleResize.
  destruct (Shepherd.sessions s !! req_SessionID req ≫= _) as [o|];
    [destruct (Shepherd.ptmxClosed o)|]; apply sendResponse_replied; reflexivity.
- rewrite handleControl_replay by exact H. unfold Shepherd.handleReplay.
  destruct (Shepherd.sessions s !! req_SessionID req ≫= _) as [o|];
    apply sendResponse_replied; reflexivity.
- rewrite handleControl_subscribe by exact H. unfold Shepherd.handleSubscribe.
  destruct (Shepherd.sessions s !! req_SessionID req) as [p|];
    [destruct (Shepherd.objs s !! p) as [o|]|];
    first [ apply sendResponse_replied; reflexivity
          | eexists; split; [|split]; reflexivity ].
- rewrite handleControl_list by exact H. apply sendResponse_replied; reflexivity.
- rewrite handleControl_stopAll by exact H.
  apply sendResponse_replied; [reflexivity | apply stopAll_conns |].
  unfold Shepherd.stopAll.
  generalize (map_to_list (Shepherd.sessions s)). intros l.
  change (Shepherd.clients s) with (Shepherd.clients (Shepherd.set_sessions ∅ s)).
  generalize (Shepherd.set_sessions ∅ s). intros s0. revert s0.
  induction l as [|kv l IH]; intros s0; simpl; [reflexivity|].
  rewrite IH. reflexivity.
Qed.

End Handlers.

(** X6: every request whose command [handleControl] knows is answered by
    exactly one control frame, written to the requesting connection and
    carrying the request's correlation id; no other connection is written
    to and the set of clients is unchanged. A request with any other
    command changes nothing and is not answered. *)
Theorem X6_one_response_per_request :
  forall (os : OS) (cw : positive) (req : Protocol.Request) (s : Shepherd.Shepherd),
    (known_command (Protocol.req_Command req) ->
     exists resp : Protocol.Response,
       Protocol.resp_ID resp = Protocol.req_ID req /\
       Shepherd.conns (Shepherd.handleControl os cw req s)
       = alter (Shepherd.connWrite (Shepherd.FControl resp)) cw (Shepherd.conns s) /\
       Shepherd.clients (Shepherd.handleControl os cw req s) = Shepherd.clients s) /\
    (~ known_command (Protocol.req_Command req) ->
     Shepherd.handleControl os cw req s = s).
Proof.
  intros os cw req s. split.
  - intros Hk. exact (handleControl_replied os cw req s Hk).
  - apply handleControl_unknown.
Qed.

Lemma X6_one_response_per_request_witness :
  (exists resp : Protocol.Response,
      Protocol.resp_ID resp = "r7"%string /\
      Shepherd.conns
        (Shepherd.handleControl os_ok 1
           (Protocol.mkRequest "r7" "list" "" "" "" 0 0) (snd shepherd_started))
      = alter (Shepherd.connWrite (Shepherd.FControl resp)) 1%positive
          (Shepherd.conns (snd shepherd_started)) /\
      Shepherd.clients
        (Shepherd.handleControl os_ok 1
           (Protocol.mkRequest "r7" "list" "" "" "" 0 0) (snd shepherd_started))
      = Shepherd.clients (snd shepherd_started)) /\
  Shepherd.handleControl os_ok 1
    (Protocol.mkRequest "r8" "reboot" "" "" "" 0 0) (snd shepherd_started)
  = snd shepherd_started.
Proof.
  split.
  - apply (proj1 (X6_one_response_per_request os_ok 1
                    (Protocol.mkRequest "r7" "list" "" "" "" 0 0) (snd shepherd_started))).
    unfold known_command. simpl.
    do 6 apply list_elem_of_further. apply list_elem_of_here.
  - apply (proj2 (X6_one_response_per_request os_ok 1
                    (Protocol.mkRequest "r8" "reboot" "" "" "" 0 0) (snd shepherd_started))).
    unfold known_command. simpl. intros Hin.
    repeat (apply elem_of_cons in Hin as [Hin|Hin]; [vm_compute in Hin; discriminate Hin|]).
    apply elem_of_nil in Hin. exact Hin.
Defined.

Section StopAll.
Import Protocol.

Lemma stopSession_idem (o : Shepherd.session) :
Shepherd.stopSession (Shepherd.stopSession o) = Shepherd.stopSession o.
Proof.
unfold Shepherd.stopSession. destruct (Shepherd.stopped o) eqn:E.
- rewrite E. reflexivity.
- simpl. rewrite E. reflexivity.
Qed.

Lemma foldl_stop_objs (l : list (string * positive)) (s0 : Shepherd.Shepherd) :
let s' := foldl (fun s kv => Shepherd.set_objs
                               (alter Shepherd.stopSession kv.2 (Shepherd.objs s)) s)
            s0 l in
Shepherd.sessions s' = Shepherd.sessions s0 /\
Shepherd.heap_ s' = Shepherd.heap_ s0 /\
forall p, Shepherd.objs s' !! p
          = if decide (p ∈ l.*2) then Shepherd.stopSession <$> Shepherd.objs s0 !! p
            else Shepherd.objs s0 !! p.
Proof.
revert s0. induction l as [|[id q] l IH]; intros s0; simpl.
- repeat split.
- destruct (IH (Shepherd.set_objs (alter Shepherd.stopSession q (Shepherd.objs s0)) s0))
    as (Hs & Hh & Ho).
  split; [exact Hs|]. split; [exact Hh|].
  intros p. rewrite Ho. simpl. rewrite lookup_alter.
  change (list_fmap (string * positive)%type positive snd l) with (l.*2).
  destruct (decide (q = p)) as [->|Hne].
  + destruct (decide (p ∈ p :: l.*2)) as [_|Hn];
      [|exfalso; apply Hn, list_elem_of_here].
    destruct (decide (p ∈ l.*2)); [|reflexivity].
    destruct (Shepherd.objs s0 !! p); simpl; [|reflexivity].
    rewrite stopSession_idem. reflexivity.
  + destruct (decide (p ∈ l.*2)) as [Hin|Hnin],
      (decide (p ∈ q :: l.*2)) as [Hin'|Hnin']; try reflexivity.
    * exfalso. apply Hnin'. apply list_elem_of_further. exact Hin.
    * exfalso. apply elem_of_cons in Hin' as [->|?]; [congruence | contradiction].
Qed.


End StopAll.



(** ** Requests through the supervisor client, end to end *)
Section EndToEnd.
Import Protocol.

Lemma link_ok_set_sessionDone (w : Client.World) (d : gmap string positive)
  (h : Chan.heap) :
link_ok w ->
link_ok (Client.set_client
           (Client.set_sessionDone d (Client.set_heap h (Client.client w))) w).
Proof.
intros (Hopen & cw & Hc & Hcl & Hn). split; [exact Hopen|].
exists cw. repeat split; assumption.
Qed.

Lemma Client_Start_result (os : OS) (id cliType workDir : string) (w : Client.World) :
link_ok w ->
let r := Client.Client_Start os id cliType workDir w in
Client.shepherd r.1
= Shepherd.handleStart os (Client.conn (Client.client w))
    (mkRequest (Client.reqID (Client.reqCounter (Client.client w) + 1))
       cmdStart id cliType workDir 0 0)
    (Client.shepherd w) /\
match startWithSize os cliType workDir with
| Ok child => r.2 = Ok (id, child) /\ Client.Client_Get id r.1 = Some id
| Err e =>
    r.2 = Err (ErrShepherd (match e with ErrSpawn m => m | _ => ""%string end)) /\
    Client.Client_Get id r.1 = None
end.
Proof.
intros (Hopen & cw & Hc & Hcl & Hn) r. subst r.
unfold Client.Client_Start, Chan.alloc. simpl.
match goal with
| |- context [Client.sendRequest os ?r ?w0] =>
    destruct (sendRequest_reply os r w0 cw
                (start_response os
                   (Client.set_ID
                      (Client.reqID (Client.reqCounter (Client.client w0) + 1)) r)))
      as (w1 & Hsend & Hlink & Hshep & Hdone & _)
end; try assumption.
{ simpl. rewrite handleControl_start by reflexivity.
  apply handleStart_conns; assumption. }
{ apply start_response_ID. }
rewrite Hsend. simpl in Hdone, Hshep.
rewrite handleControl_start in Hshep by reflexivity.
unfold start_response. simpl.
destruct (startWithSize os cliType workDir) as [child|e]; simpl.
- destruct (decide (evtStarted = evtError)) as [Heq|_];
    [vm_compute in Heq; discriminate Heq|].
  simpl. split; [exact Hshep|]. split; [reflexivity|].
  unfold Client.Client_Get. rewrite Hdone, lookup_insert_eq. reflexivity.
- destruct (decide (evtError = evtError)) as [_|Hne]; [|contradiction].
  simpl. split; [exact Hshep|]. split; [reflexivity|].
  unfold Client.Client_Get. simpl. rewrite lookup_delete_eq. reflexivity.
Qed.

Lemma handleReplay_conns (c : positive) (req : Request)
  (s : Shepherd.Shepherd) (cw : Shepherd.connWriter) :
Shepherd.conns s !! c = Some cw -> Shepherd.connClosed cw = false ->
Shepherd.conns (Shepherd.handleReplay c req s) !! c
= Some (Shepherd.mkConn
          (Shepherd.sent cw
             ++ [Shepherd.FControl
                   (match Shepherd.sessions s !! req_SessionID req
                          ≫= (fun p => Shepherd.objs s !! p) with
                    | Some o => mkResponse (req_ID req) evtReplay 0 ""
                                  (req_SessionID req) (Shepherd.getReplay o) []
                    | None => Shepherd.sessionNotFound req
                    end)]) false).
Proof.
intros Hc Hopen. unfold Shepherd.handleReplay.
destruct (Shepherd.sessions s !! req_SessionID req ≫= _);
  apply sendResponse_conns; assumption.
Qed.

Lemma Client_replay_result (os : OS) (sid : string) (w : Client.World) :
link_ok w ->
(Client.replay os sid w).2
= match Shepherd.sessions (Client.shepherd w) !! sid
        ≫= (fun p => Shepherd.objs (Client.shepherd w) !! p) with
  | Some o => Shepherd.replayBuf o
  | None => []
  end.
Proof.
intros (Hopen & cw & Hc & Hcl & Hn). unfold Client.replay.
match goal with
| |- context [Client.sendRequest os ?r ?w0] =>
    pose proof (handleReplay_conns (Client.conn (Client.client w0))
                  (Client.set_ID
                     (Client.reqID (Client.reqCounter (Client.client w0) + 1)) r)
                  (Client.shepherd w0) cw Hc Hcl) as Hconns;
    destruct (sendRequest_reply os r w0 cw _ Hopen Hc Hn Hconns)
      as (w1 & Hsend & _)
end.
{ simpl. destruct (Shepherd.sessions _ !! sid ≫= _); reflexivity. }
rewrite Hsend. simpl.
destruct (Shepherd.sessions (Client.shepherd w) !! sid ≫= _); reflexivity.
Qed.

End EndToEnd.

(** X8: [Start] through the supervisor client on a healthy connection
    reports what the spawn in the supervisor did: when the command can be
    spawned it returns the session's handle and the child's pid, and [Get]
    then finds the session; when it cannot, it returns the error text of
    the spawn (prefixed as a supervisor error) and [Get] returns nil. In
    both cases the supervisor ran [handleStart] once on the request. *)
Theorem X8_client_start_end_to_end :
  forall (os : OS) (id cliType workDir : string) (w : Client.World),
    link_ok w ->
    let r := Client.Client_Start os id cliType workDir w in
    Client.shepherd r.1
    = Shepherd.handleStart os (Client.conn (Client.client w))
        (Protocol.mkRequest (Client.reqID (Client.reqCounter (Client.client w) + 1))
           Protocol.cmdStart id cliType workDir 0 0)
        (Client.shepherd w) /\
    match startWithSize os cliType workDir with
    | Ok child => r.2 = Ok (id, child) /\ Client.Client_Get id r.1 = Some id
    | Err e =>
        r.2 = Err (ErrShepherd (match e with ErrSpawn m => m | _ => ""%string end)) /\
        Client.Client_Get id r.1 = None
    end.
Proof. exact Client_Start_result. Qed.

Lemma X8_client_start_end_to_end_witness :
  (Client.Client_Start os_claude_only "abc" "nope" "/tmp"
     (Client.NewClient Shepherd.new)).2
  = Err (ErrShepherd "executable file not found in $PATH") /\
  (Client.Client_Start os_claude_only "abc" "claude" "/tmp"
     (Client.NewClient Shepherd.new)).2
  = Ok ("abc"%string, 42).
Proof.
  split.
  - apply (X8_client_start_end_to_end os_claude_only "abc" "nope" "/tmp"
             (Client.NewClient Shepherd.new)).
    destruct (NewClient_agree Shepherd.new) as [Hl _]. exact Hl.
  - apply (X8_client_start_end_to_end os_claude_only "abc" "claude" "/tmp"
             (Client.NewClient Shepherd.new)).
    destruct (NewClient_agree Shepherd.new) as [Hl _]. exact Hl.
Defined.

(** X9: [Replay] on a proxied session over a healthy connection returns
    exactly the replay buffer that the supervisor holds for the session;
    for a session that is not in the supervisor's table it returns no
    bytes (the error response is swallowed). *)
Theorem X9_client_replay_end_to_end :
  forall (os : OS) (sid : string) (w : Client.World),
    link_ok w ->
    (forall (p : positive) (o : Shepherd.session),
        Shepherd.sessions (Client.shepherd w) !! sid = Some p ->
        Shepherd.objs (Client.shepherd w) !! p = Some o ->
        (Client.replay os sid w).2 = Shepherd.replayBuf o) /\
    (Shepherd.sessions (Client.shepherd w) !! sid = None ->
     (Client.replay os sid w).2 = []).
Proof.
  intros os sid w Hlink. rewrite Client_replay_result by exact Hlink. split.
  - intros p o Hp Ho. rewrite Hp. simpl. rewrite Ho. reflexivity.
  - intros ->. reflexivity.
Qed.

Lemma client_hello_link_ok : link_ok client_hello.
Proof.
  split; [reflexivity|]. eexists. split; [vm_compute; reflexivity|].
  split; reflexivity.
Qed.

Lemma X9_client_replay_end_to_end_witness :
  (Client.replay os_ok "abc" client_hello).2 = [x68; x65; x6c; x6c; x6f; x0a] /\
  (Client.replay os_ok "zzz" client_hello).2 = [].
Proof.
  destruct (X9_client_replay_end_to_end os_ok "abc" client_hello client_hello_link_ok)
    as [Hknown _].
  destruct (X9_client_replay_end_to_end os_ok "zzz" client_hello client_hello_link_ok)
    as [_ Hunknown].
  split.
  - apply (Hknown 1%positive
             (Shepherd.mkSession "abc" 42 false false false false
                [x68; x65; x6c; x6c; x6f; x0a] ∅)); vm_compute; reflexivity.
  - apply Hunknown. vm_compute. reflexivity.
Defined.

(** ** Requests while notifications and data are in flight *)
Section InFlight.
Import Protocol.

Ltac tables_tac := unfold same_tables; simpl; repeat split; reflexivity.

Lemma readUntil_passive (id : string) (pre post : list Shepherd.frame)
  (resp : Response) (c : Client.Client) :
Forall passive pre ->
Client.isExitNotification resp = false ->
resp_ID resp = id ->
Client.readUntil id (pre ++ Shepherd.FControl resp :: post) c
= (Client.set_nread (S (Client.nread (foldl Client.dispatch c pre)))
     (foldl Client.dispatch c pre), Some resp).
Proof.
intros Hpre Hex Hid. revert c.
induction pre as [|f pre IH]; intros c; simpl.
- rewrite Hex. destruct (decide (resp_ID resp = id)); [reflexivity | contradiction].
- apply Forall_cons in Hpre as [Hf Hpre]. specialize (IH Hpre).
  destruct f as [r|t payload]; simpl in Hf.
  + unfold Client.dispatch at 2 4. rewrite Hf. apply IH.
  + unfold Client.dispatch at 2 4.
    destruct (decide (t = frameData)); apply IH.
Qed.

Lemma dispatch_spec (c : Client.Client) (f : Shepherd.frame) :
same_tables c (Client.dispatch c f) /\
Client.nread (Client.dispatch c f) = S (Client.nread c) /\
heap_evolves (is_done c) (Client.heap_ c) (Client.heap_ (Client.dispatch c f)).
Proof.
unfold Client.dispatch. destruct f as [r|t payload].
- destruct (Client.isExitNotification r).
  + destruct (closeDone_spec (resp_SessionID r)
                (Client.set_nread (S (Client.nread c)) c)) as (Hst & Hn & Hev).
    split; [exact Hst|]. split; [exact Hn | exact Hev].
  + split; [tables_tac|]. split; [reflexivity | apply heap_evolves_refl].
- destruct (decide (t = frameData)).
  + destruct (handleDataFrame_spec payload
                (Client.set_nread (S (Client.nread c)) c)) as (Hst & Hn & Hev).
    split; [exact Hst|]. split; [exact Hn | exact Hev].
  + split; [tables_tac|]. split; [reflexivity | apply heap_evolves_refl].
Qed.

Lemma foldl_dispatch_spec (fs : list Shepherd.frame) (c : Client.Client) :
same_tables c (foldl Client.dispatch c fs) /\
Client.nread (foldl Client.dispatch c fs) = (Client.nread c + length fs)%nat /\
heap_evolves (is_done c) (Client.heap_ c) (Client.heap_ (foldl Client.dispatch c fs)).
Proof.
revert c. induction fs as [|f fs IH]; intros c; simpl.
- split; [apply same_tables_refl|]. split; [lia | apply heap_evolves_refl].
- destruct (dispatch_spec c f) as (Hst & Hn & Hev).
  destruct (IH (Client.dispatch c f)) as (Hst' & Hn' & Hev').
  split; [eapply same_tables_trans; eassumption|]. split; [lia|].
  eapply heap_evolves_trans; [exact Hev|].
  eapply heap_evolves_weaken; [|exact Hev'].
  intros d. apply is_done_same. exact Hst.
Qed.

(** A request on a link that is up: the frames in flight are dispatched,
    then the response of the handler is returned. *)
Lemma sendRequest_reply_up (os : OS) (req : Request) (w : Client.World)
  (cw : Shepherd.connWriter) (resp : Response) :
Client.closed (Client.client w) = false ->
Shepherd.conns (Client.shepherd w) !! Client.conn (Client.client w) = Some cw ->
(Client.nread (Client.client w) <= length (Shepherd.sent cw))%nat ->
Forall passive (drop (Client.nread (Client.client w)) (Shepherd.sent cw)) ->
let req' := Client.set_ID (Client.reqID (Client.reqCounter (Client.client w) + 1)) req in
let s' := Shepherd.handleControl os (Client.conn (Client.client w)) req'
            (Client.shepherd w) in
Shepherd.conns s' !! Client.conn (Client.client w)
= Some (Shepherd.mkConn (Shepherd.sent cw ++ [Shepherd.FControl resp]) false) ->
resp_ID resp = req_ID req' ->
exists w' : Client.World,
  Client.sendRequest os req w = (w', Ok resp) /\
  link_ok w' /\
  Client.shepherd w' = s' /\
  same_tables
    (Client.set_written (Client.written (Client.client w) ++ [Client.OControl req'])
       (Client.set_reqCounter (Client.reqCounter (Client.client w) + 1)
          (Client.client w)))
    (Client.client w') /\
  Client.heap_ (Client.client w')
  = Client.heap_
      (foldl Client.dispatch (Client.client w)
         (drop (Client.nread (Client.client w)) (Shepherd.sent cw))).
Proof.
intros Hopen Hc Hle Hpass req' s' Hs' Hid.
unfold Client.sendRequest. simpl. rewrite Hopen.
fold req' s'. unfold Client.unread. simpl. rewrite Hs'. simpl.
rewrite drop_app_le by exact Hle.
assert (Hex : Client.isExitNotification resp = false).
{ unfold Client.isExitNotification. apply andb_false_intro2.
  apply bool_decide_eq_false_2. rewrite Hid. apply reqID_nonempty. }
set (c0 := Client.set_written _ _).
set (pre := drop (Client.nread (Client.client w)) (Shepherd.sent cw)) in *.
change (Client.readUntil (Client.reqID (Client.reqCounter (Client.client w) + 1))
          (pre ++ [Shepherd.FControl resp]) c0)
  with (Client.readUntil (req_ID req') (pre ++ Shepherd.FControl resp :: []) c0).
rewrite (readUntil_passive (req_ID req') pre [] resp c0 Hpass Hex Hid).
destruct (foldl_dispatch_spec pre c0) as (Hst & Hn & Hev).
eexists. split; [reflexivity|]. simpl.
split; [|split; [reflexivity|split]].
- destruct Hst as (Hconn & _ & _ & _ & _ & _ & Hcl).
  split; [simpl; rewrite Hcl; exact Hopen|]. simpl.
  exists (Shepherd.mkConn (Shepherd.sent cw ++ [Shepherd.FControl resp]) false).
  rewrite Hconn. split; [exact Hs'|]. split; [reflexivity|]. simpl.
  rewrite Hn, length_app. simpl. unfold pre. rewrite length_drop.
  change (Client.nread c0) with (Client.nread (Client.client w)). lia.
- destruct Hst as (H1 & H2 & H3 & H4 & H5 & H6 & H7).
  repeat split; assumption.
- clear. unfold c0. generalize pre. intros l.
  assert (Hgen : forall (c1 c2 : Client.Client),
             Client.heap_ c1 = Client.heap_ c2 ->
             Client.sessionSubs c1 = Client.sessionSubs c2 ->
             Client.sessionDone c1 = Client.sessionDone c2 ->
             Client.heap_ (foldl Client.dispatch c1 l)
             = Client.heap_ (foldl Client.dispatch c2 l)).
  { induction l as [|f l IH]; intros c1 c2 Hh Hs Hd; simpl; [exact Hh|].
    apply IH; unfold Client.dispatch; destruct f as [r|t p]; simpl;
      try (destruct (Client.isExitNotification r));
      try (destruct (decide (t = frameData)));
      unfold Client.closeDone, Client.handleDataFrame; simpl;
      rewrite ?Hd, ?Hs, ?Hh; try reflexivity;
      try (destruct (Client.sessionDone c2 !! resp_SessionID r); simpl;
           rewrite ?Hh, ?Hs, ?Hd; reflexivity);
      try (destruct (parseDataPayload p) as [[sid data]|]; simpl;
           rewrite ?Hh, ?Hs, ?Hd; reflexivity). }
  apply Hgen; reflexivity.
Qed.

End InFlight.

Section ExitPropagation.
Import Protocol.

Lemma reap_conns (p : positive) (sid : string) (s : Shepherd.Shepherd) (c : positive) :
Shepherd.conns (Shepherd.reap p sid s) !! c
= if decide (c ∈ Shepherd.clients s)
  then Shepherd.connWrite (Shepherd.FControl (exitedNotification sid))
         <$> Shepherd.conns s !! c
  else Shepherd.conns s !! c.
Proof.
unfold Shepherd.reap, Shepherd.runExit, Shepherd.exitMonitor. simpl.
match goal with
| |- context [Shepherd.broadcastExit sid ?s0] =>
    destruct (broadcastExit_spec sid s0) as (_ & _ & _ & _ & Hl)
end.
apply Hl.
Qed.

Lemma reap_sessions (p : positive) (sid : string) (s : Shepherd.Shepherd) :
Shepherd.sessions (Shepherd.reap p sid s) = delete sid (Shepherd.sessions s).
Proof.
unfold Shepherd.reap, Shepherd.runExit, Shepherd.exitMonitor. simpl.
match goal with
| |- context [Shepherd.broadcastExit sid ?s0] =>
    destruct (broadcastExit_spec sid s0) as (_ & _ & Hs & _)
end.
rewrite Hs. reflexivity.
Qed.

Lemma exited_is_exit (sid : string) :
Client.isExitNotification (exitedNotification sid) = true.
Proof. reflexivity. Qed.

(** After a reap the link is still up: the only new frame is the exit
    notification. *)
Lemma reap_link_up (p : positive) (sid : string) (w : Client.World) :
link_ok w ->
link_up (Client.mkWorld (Client.client w) (Shepherd.reap p sid (Client.shepherd w))).
Proof.
intros (Hopen & cw & Hc & Hcl & Hn). split; [exact Hopen|].
unfold Client.unread. cbn [Client.client Client.shepherd].
rewrite reap_conns, Hc.
destruct (decide (Client.conn (Client.client w) ∈ Shepherd.clients (Client.shepherd w)));
  cbn [fmap option_fmap option_map].
- unfold Shepherd.connWrite. rewrite Hcl. eexists. split; [reflexivity|].
  split; [reflexivity|]. cbn [Shepherd.sent]. split; [rewrite length_app; lia|].
  rewrite Hn, drop_app_length. apply Forall_singleton. apply exited_is_exit.
- exists cw. split; [reflexivity|]. split; [exact Hcl|]. split; [lia|].
  rewrite Hn, drop_all. constructor.
Qed.

End ExitPropagation.

(** X10: when the child of a session is reaped in the supervisor, a
    connected client whose read loop consumes the notification finds the
    done channel it holds for that session closed, so [Done] reports the
    end of the session, and the supervisor no longer lists the session. *)
Theorem X10_exit_reaches_done :
  forall (w : Client.World) (p : positive) (sid : string) (d : positive)
         (q : Chan.chan),
    link_ok w ->
    Client.conn (Client.client w) ∈ Shepherd.clients (Client.shepherd w) ->
    Client.sessionDone (Client.client w) !! sid = Some d ->
    Client.heap_ (Client.client w) !! d = Some q ->
    let w' := Client.readLoop
                (Client.mkWorld (Client.client w)
                   (Shepherd.reap p sid (Client.shepherd w))) in
    Client.heap_ (Client.client w') !! d = Some (Chan.close q) /\
    (@Done Client.World Client.ProxySession _ sid w').2 = true /\
    Shepherd.sessions (Client.shepherd w') !! sid = None.
Proof.
  intros w p sid d q (Hopen & cw & Hc & Hcl & Hn) Hin Hd Hq w'.
  assert (Hheap : Client.heap_ (Client.client w') !! d = Some (Chan.close q)).
  { unfold w', Client.readLoop, Client.unread, Client.set_client.
    cbn [Client.client Client.shepherd].
    rewrite reap_conns, Hc.
    destruct (decide (Client.conn (Client.client w)
                        ∈ Shepherd.clients (Client.shepherd w))) as [_|?];
      [|contradiction].
    cbn [fmap option_fmap option_map]. unfold Shepherd.connWrite. rewrite Hcl.
    cbn [Shepherd.sent].
    rewrite Hn, drop_app_length. cbn [foldl].
    unfold Client.dispatch. rewrite exited_is_exit.
    unfold Client.closeDone. simpl. rewrite Hd. simpl.
    unfold Chan.closeAt. rewrite lookup_alter_eq, Hq. reflexivity. }
  assert (Hdone : Client.sessionDone (Client.client w') !! sid = Some d).
  { unfold w', Client.readLoop. simpl.
    match goal with
    | |- Client.sessionDone (foldl Client.dispatch ?c ?l) !! _ = _ =>
        destruct (foldl_dispatch_spec l c) as ((_ & _ & _ & Hsd & _) & _)
    end.
    rewrite Hsd. exact Hd. }
  assert (Hgone : Shepherd.sessions (Client.shepherd w') !! sid = None).
  { unfold w', Client.readLoop, Client.set_client.
    cbn [Client.client Client.shepherd]. rewrite reap_sessions.
    apply lookup_delete_eq. }
  clearbody w'.
  split; [exact Hheap|]. split; [|exact Hgone].
  cbn [Done Client.ProxySession_SessionHandle]. unfold Client.Client_Done.
  rewrite Hdone. cbn [snd]. rewrite Hheap. reflexivity.
Qed.

Lemma X10_exit_reaches_done_witness :
  (@Done Client.World Client.ProxySession _ "abc"%string
     (Client.readLoop
        (Client.mkWorld (Client.client client_started)
           (Shepherd.reap 1 "abc" (Client.shepherd client_started))))).2 = true.
Proof.
  apply (X10_exit_reaches_done client_started 1%positive "abc"%string 1%positive
           (Chan.make 0)).
  - split; [reflexivity|]. eexists. split; [vm_compute; reflexivity|].
    split; reflexivity.
  - vm_compute. reflexivity.
  - vm_compute. reflexivity.
  - vm_compute. reflexivity.
Defined.

Section AfterExit.
Import Protocol.

Lemma Client_replay_result_up (os : OS) (sid : string) (w : Client.World) :
link_up w ->
(Client.replay os sid w).2
= match Shepherd.sessions (Client.shepherd w) !! sid
        ≫= (fun p => Shepherd.objs (Client.shepherd w) !! p) with
  | Some o => Shepherd.replayBuf o
  | None => []
  end.
Proof.
intros (Hopen & cw & Hc & Hcl & Hle & Hpass). unfold Client.replay.
unfold Client.unread in Hpass. rewrite Hc in Hpass.
match goal with
| |- context [Client.sendRequest os ?r ?w0] =>
    pose proof (handleReplay_conns (Client.conn (Client.client w0))
                  (Client.set_ID
                     (Client.reqID (Client.reqCounter (Client.client w0) + 1)) r)
                  (Client.shepherd w0) cw Hc Hcl) as Hconns;
    rewrite <- (handleControl_replay os) in Hconns by reflexivity;
    destruct (sendRequest_reply_up os r w0 cw _ Hopen Hc Hle Hpass Hconns)
      as (w1 & Hsend & _)
end.
{ simpl. destruct (Shepherd.sessions _ !! sid ≫= _); reflexivity. }
rewrite Hsend. simpl.
destruct (Shepherd.sessions (Client.shepherd w) !! sid ≫= _); reflexivity.
Qed.

End AfterExit.

(** X11: once the child of a session has exited, the two backends answer
    [Replay] differently. The supervisor drops the session from its table
    when it reaps the child, so a replay through the client returns no
    bytes, whatever the session had written; the local manager keeps the
    session object, so the replay of a local handle is what it was before
    the exit. *)
Theorem X11_replay_after_exit :
  forall (os : OS) (w : Client.World) (p : positive) (sid : string)
         (m : Pty.Manager) (h : positive),
    link_ok w ->
    (@Replay Client.World Client.ProxySession _ os sid
       (Client.mkWorld (Client.client w)
          (Shepherd.reap p sid (Client.shepherd w)))).2 = [] /\
    (@Replay Pty.Manager positive _ os h (Pty.reap h m)).2
    = (@Replay Pty.Manager positive _ os h m).2.
Proof.
  intros os w p sid m h Hok. split.
  - cbn [Replay Client.ProxySession_SessionHandle].
    rewrite Client_replay_result_up by (apply reap_link_up; exact Hok).
    cbn [Client.shepherd]. rewrite reap_sessions, lookup_delete_eq. reflexivity.
  - cbn [Replay Pty.Session_SessionHandle]. unfold Pty.Session_Replay, Pty.reap.
    cbn [snd Pty.objs Pty.set_objs]. rewrite lookup_alter_eq.
    destruct (Pty.objs m !! h); reflexivity.
Qed.

Lemma X11_replay_after_exit_witness :
  (@Replay Client.World Client.ProxySession _ os_ok "abc"%string
     (Client.mkWorld (Client.client client_hello)
        (Shepherd.reap 1 "abc" (Client.shepherd client_hello)))).2 = [] /\
  (@Replay Client.World Client.ProxySession _ os_ok "abc"%string client_hello).2
  = [x68; x65; x6c; x6c; x6f; x0a].
Proof.
  split.
  - apply (X11_replay_after_exit os_ok client_hello 1%positive "abc"%string
             Pty.NewManager 1%positive).
    exact client_hello_link_ok.
  - vm_compute. reflexivity.
Defined.

Section OutputPath.
Import Protocol Chan.

Lemma Shepherd_appendReplay_subscribers (data : list byte) (o : Shepherd.session) :
Shepherd.subscribers (Shepherd.appendReplay data o) = Shepherd.subscribers o.
Proof.
unfold Shepherd.appendReplay.
destruct (len (Shepherd.replayBuf o ++ data) >? Shepherd.replayBufSize); reflexivity.
Qed.

Lemma foldl_trySendAt_once (data : chunk) (l : list positive) (h : heap)
  (ch : positive) :
NoDup l -> ch ∈ l ->
foldl (fun h ch => trySendAt data ch h) h l !! ch
= (fun c => fst (trySend c data)) <$> h !! ch.
Proof.
intros Hnd. revert h. induction Hnd as [|x l Hx Hnd IH]; intros h Hin.
- inversion Hin.
- cbn [foldl]. apply elem_of_cons in Hin as [->|Hin].
  + rewrite foldl_trySendAt_notin by exact Hx.
    unfold trySendAt. apply lookup_alter_eq.
  + rewrite IH by exact Hin. unfold trySendAt.
    rewrite lookup_alter_ne; [reflexivity|]. intros ->. contradiction.
Qed.

(** The PTY reader queues a chunk for a forwarder whose channel is
    drained; the forwarder writes it to its connection as one data frame. *)
Lemma ptyRead_forward_conns (s : Shepherd.Shepherd) (sess ch cw : positive)
  (sid : string) (o : Shepherd.session) (q : chan) (c : Shepherd.connWriter)
  (data : list byte) :
Shepherd.objs s !! sess = Some o ->
ch ∈ Shepherd.subscribers o ->
Shepherd.heap_ s !! ch = Some q ->
closed q = false -> buf q = [] -> 0 < cap q ->
Shepherd.conns s !! cw = Some c -> Shepherd.connClosed c = false ->
let s' := Shepherd.forward cw sess sid ch (Shepherd.ptyRead sess data s) in
Shepherd.conns s' !! cw
= Some (Shepherd.mkConn
          (Shepherd.sent c ++ [Shepherd.FBytes frameData (dataFramePayload sid data)])
          false) /\
Shepherd.heap_ s' !! ch = Some q /\
Shepherd.sessions s' = Shepherd.sessions s /\
Shepherd.objs s' = <[sess := Shepherd.appendReplay data o]> (Shepherd.objs s).
Proof.
intros Ho Hin Hq Hcl Hbuf Hcap Hc Hccl s'.
unfold s', Shepherd.ptyRead. rewrite Ho. unfold Shepherd.forward.
cbn [Shepherd.heap_ Shepherd.set_heap Shepherd.set_objs].
unfold Shepherd.broadcast.
rewrite fold_trySendAt_lookup, Shepherd_appendReplay_subscribers.
destruct (decide (ch ∈ Shepherd.subscribers o)) as [_|?]; [|contradiction].
rewrite Hq. cbn [fmap option_fmap option_map].
rewrite trySend_open_room by (try assumption; rewrite Hbuf; unfold len; simpl; lia).
rewrite Hbuf. cbn [fst app]. unfold recv. cbn [buf cap closed].
cbn [Shepherd.conns Shepherd.set_heap Shepherd.set_objs Shepherd.heap_].
rewrite Hc. destruct c as [snt cl]. cbn [Shepherd.connClosed] in Hccl. subst cl.
unfold Shepherd.writeDataFrame.
cbn [Shepherd.conns Shepherd.set_conns Shepherd.heap_ Shepherd.sessions
     Shepherd.objs Shepherd.set_heap Shepherd.set_objs Shepherd.sent].
rewrite lookup_alter_eq, Hc, lookup_insert_eq.
split; [reflexivity|]. split; [|split; reflexivity].
destruct q as [b cp cl]. cbn [buf cap closed] in *. subst. reflexivity.
Qed.

End OutputPath.

(** X12: the output path of a proxied session. When the PTY reader of
    the supervisor reads a chunk, the forwarder of a subscribed client
    (whose channel is drained) writes it to the connection as a data frame
    tagged with the session id, and the read loop of the client hands the
    very same chunk to every local subscriber of that session whose
    channel has room; the connection stays healthy and the session table
    is unchanged. Session ids are at most 255 bytes. *)
Theorem X12_output_reaches_subscriber :
  forall (w : Client.World) (sess ch l : positive) (sid : string)
         (o : Shepherd.session) (q ql : Chan.chan) (subs : list positive)
         (data : list byte),
    link_ok w ->
    len (list_byte_of_string sid) <= 255 ->
    Shepherd.objs (Client.shepherd w) !! sess = Some o ->
    ch ∈ Shepherd.subscribers o ->
    Shepherd.heap_ (Client.shepherd w) !! ch = Some q ->
    Chan.closed q = false -> Chan.buf q = [] -> 0 < Chan.cap q ->
    Client.sessionSubs (Client.client w) !! sid = Some subs ->
    NoDup subs -> l ∈ subs ->
    Client.heap_ (Client.client w) !! l = Some ql ->
    Chan.closed ql = false -> len (Chan.buf ql) < Chan.cap ql ->
    let s' := Shepherd.forward (Client.conn (Client.client w)) sess sid ch
                (Shepherd.ptyRead sess data (Client.shepherd w)) in
    let w' := Client.readLoop (Client.mkWorld (Client.client w) s') in
    Client.heap_ (Client.client w') !! l
    = Some (Chan.mkChan (Chan.buf ql ++ [data]) (Chan.cap ql) false) /\
    link_ok w' /\
    Shepherd.sessions (Client.shepherd w') = Shepherd.sessions (Client.shepherd w).
Proof.
  intros w sess ch l sid o q ql subs data (Hopen & cw & Hc & Hcl & Hn) Hsid Ho Hin
    Hq Hqcl Hqbuf Hqcap Hsubs Hnd Hl Hql Hqlcl Hroom s' w'.
  destruct (ptyRead_forward_conns (Client.shepherd w) sess ch
              (Client.conn (Client.client w)) sid o q cw data
              Ho Hin Hq Hqcl Hqbuf Hqcap Hc Hcl) as (Hconn & _ & Hsess & _).
  fold s' in Hconn, Hsess.
  assert (Hcl' : Client.client w'
                 = Client.handleDataFrame (Protocol.dataFramePayload sid data)
                     (Client.set_nread (S (Client.nread (Client.client w)))
                        (Client.client w))).
  { unfold w', Client.readLoop, Client.set_client, Client.unread.
    cbn [Client.client Client.shepherd]. rewrite Hconn. cbn [Shepherd.sent].
    rewrite Hn, drop_app_length, <- Hn. cbn [foldl]. unfold Client.dispatch.
    destruct (decide (Protocol.frameData = Protocol.frameData)) as [_|Hne];
      [reflexivity | contradiction Hne; reflexivity]. }
  assert (Hsh : Client.shepherd w' = s') by reflexivity.
  clearbody w' s'. unfold link_ok. rewrite !Hcl', !Hsh. clear Hcl' Hsh.
  unfold Client.handleDataFrame. rewrite parseDataPayload_short by exact Hsid.
  cbn [Client.sessionSubs Client.set_nread Client.heap_ Client.set_heap].
  rewrite Hsubs. cbn [default].
  split; [|split].
  - rewrite foldl_trySendAt_once by assumption. rewrite Hql.
    cbn [fmap option_fmap option_map].
    rewrite trySend_open_room by assumption. reflexivity.
  - split; [exact Hopen|]. eexists. split; [exact Hconn|].
    split; [reflexivity|]. cbn [Client.nread Client.set_heap Client.set_nread
                                Shepherd.sent].
    rewrite length_app, Hn. simpl. lia.
  - exact Hsess.
Qed.

Lemma X12_output_reaches_subscriber_witness :
  Client.heap_
    (Client.client
       (Client.readLoop
          (Client.mkWorld (Client.client client_subscribed)
             (Shepherd.forward (Client.conn (Client.client client_subscribed))
                1 "abc" 1
                (Shepherd.ptyRead 1 [x68; x69] (Client.shepherd client_subscribed))))))
    !! 2%positive
  = Some (Chan.mkChan [[x68; x69]] 256 false).
Proof.
  refine (proj1 (X12_output_reaches_subscriber client_subscribed 1%positive
                   1%positive 2%positive "abc"%string
                   (Shepherd.mkSession "abc" 42 false false false false []
                      {[1%positive]})
                   (Chan.make 256) (Chan.make 256) [2%positive] [x68; x69]
                   _ _ _ _ _ _ _ _ _ _ _ _ _ _)).
  - split; [reflexivity|]. eexists. split; [vm_compute; reflexivity|].
    split; reflexivity.
  - vm_compute. intros H. discriminate H.
  - vm_compute. reflexivity.
  - vm_compute. reflexivity.
  - vm_compute. reflexivity.
  - reflexivity.
  - reflexivity.
  - reflexivity.
  - vm_compute. reflexivity.
  - apply NoDup_singleton.
  - apply list_elem_of_here.
  - vm_compute. reflexivity.
  - reflexivity.
  - reflexivity.
Defined.

Section StopPath.
Import Protocol.

Lemma handleStop_sessions (c : positive) (req : Request) (s : Shepherd.Shepherd) :
Shepherd.sessions (Shepherd.handleStop c req s) !! req_SessionID req = None.
Proof.
unfold Shepherd.handleStop.
destruct (Shepherd.sessions s !! req_SessionID req) eqn:Hs.
- cbn. apply lookup_delete_eq.
- cbn. exact Hs.
Qed.

Lemma Client_Stop_result (os : OS) (id : string) (w : Client.World) :
link_ok w ->
let r := Client.Client_Stop os id w in
r.2 = None /\
Client.shepherd r.1
= Shepherd.handleStop (Client.conn (Client.client w))
    (mkRequest (Client.reqID (Client.reqCounter (Client.client w) + 1))
       cmdStop id "" "" 0 0)
    (Client.shepherd w) /\
Client.closed (Client.client r.1) = false /\
Client.sessionDone (Client.client r.1)
= delete id (Client.sessionDone (Client.client w)) /\
Client.heap_ (Client.client r.1)
= match Client.sessionDone (Client.client w) !! id with
  | Some d => Chan.closeAt d (Client.heap_ (Client.client w))
  | None => Client.heap_ (Client.client w)
  end.
Proof.
intros (Hopen & cw & Hc & Hcl & Hn) r. subst r.
unfold Client.Client_Stop.
match goal with
| |- context [Client.sendRequest os ?r ?w0] =>
    destruct (sendRequest_reply os r w0 cw
                (mkResponse
                   (Client.reqID (Client.reqCounter (Client.client w0) + 1))
                   evtStopDone 0 "" "" [] []))
      as (w1 & Hsend & Hlink & Hsh & Hdone & _ & _ & Hheap)
end; try assumption.
{ simpl. rewrite handleControl_stop by reflexivity.
  apply handleStop_conns; assumption. }
{ reflexivity. }
rewrite Hsend. cbn [fst snd resp_Event].
destruct (decide (evtStopDone = evtError)) as [Heq|_];
  [vm_compute in Heq; discriminate Heq|].
cbn [fst snd Client.set_client Client.client Client.shepherd].
rewrite handleControl_stop in Hsh by reflexivity.
destruct Hlink as (H1 & _).
unfold Client.closeDone. rewrite Hdone.
destruct (Client.sessionDone (Client.client w) !! id) as [d|];
  (split; [reflexivity|]); (split; [exact Hsh|]);
  (split; [exact H1|]); cbn; rewrite ?Hdone, ?Hheap; split; reflexivity.
Qed.

End StopPath.

(** X13: [Stop] through the supervisor client on a healthy connection.
    It returns nil; the supervisor has run [handleStop] once on the request
    and no longer lists the session; the done channel the client held for
    the session is closed; and the client has forgotten the session, so
    [Get] returns nil. *)
Theorem X13_client_stop_end_to_end :
  forall (os : OS) (id : string) (w : Client.World),
    link_ok w ->
    let r := @Stop Client.World Client.ProxySession _ os id w in
    r.2 = None /\
    Client.shepherd r.1
    = Shepherd.handleStop (Client.conn (Client.client w))
        (Protocol.mkRequest (Client.reqID (Client.reqCounter (Client.client w) + 1))
           Protocol.cmdStop id "" "" 0 0)
        (Client.shepherd w) /\
    Shepherd.sessions (Client.shepherd r.1) !! id = None /\
    @Get Client.World Client.ProxySession _ id r.1 = None /\
    (forall (d : positive) (q : Chan.chan),
        Client.sessionDone (Client.client w) !! id = Some d ->
        Client.heap_ (Client.client w) !! d = Some q ->
        Client.heap_ (Client.client r.1) !! d = Some (Chan.close q)).
Proof.
  intros os id w Hok r.
  destruct (Client_Stop_result os id w Hok) as (He & Hsh & _ & Hd & Hh).
  change (Client.Client_Stop os id w) with r in He, Hsh, Hd, Hh.
  clearbody r. split; [exact He|]. split; [exact Hsh|]. split; [|split].
  - rewrite Hsh.
    apply (handleStop_sessions _
             (Protocol.mkRequest _ Protocol.cmdStop id "" "" 0 0)).
  - cbn [Get Client.Client_SessionManager]. unfold Client.Client_Get.
    rewrite Hd, lookup_delete_eq. reflexivity.
  - intros d q Hdq Hq. rewrite Hh, Hdq. unfold Chan.closeAt.
    rewrite lookup_alter_eq, Hq. reflexivity.
Qed.

Lemma X13_client_stop_end_to_end_witness :
  (@Stop Client.World Client.ProxySession _ os_ok "abc"%string client_started).2 = None.
Proof.
  apply (X13_client_stop_end_to_end os_ok "abc"%string client_started).
  split; [reflexivity|]. eexists. split; [vm_compute; reflexivity|].
  split; reflexivity.
Defined.

(** X14: writing to a session after it was stopped. Through the
    supervisor client the write still reports success with the full
    length, although the supervisor drops the input because the session
    is no longer in its table; on a handle of the local manager the write
    fails, because [Stop] has closed the PTY. Session ids are at most 255
    bytes; the local session had not exited before the stop. *)
Theorem X14_write_after_stop :
  forall (os : OS) (w : Client.World) (sid : string) (data : list byte)
         (m : Pty.Manager) (h : positive) (o : Pty.Session),
    link_ok w ->
    len (list_byte_of_string sid) <= 255 ->
    Pty.sessions m !! sid = Some h ->
    Pty.objs m !! h = Some o ->
    Pty.stopped o = false ->
    let w1 := (@Stop Client.World Client.ProxySession _ os sid w).1 in
    let m1 := (@Stop Pty.Manager positive _ os sid m).1 in
    let r := @Write Client.World Client.ProxySession _ sid data w1 in
    r.2 = Ok (len data) /\
    last (Client.written (Client.client r.1))
    = Some (Client.OBytes Protocol.frameInput (Protocol.dataFramePayload sid data)) /\
    Shepherd.handleInput (Protocol.dataFramePayload sid data) (Client.shepherd r.1)
    = None /\
    (@Write Pty.Manager positive _ h data m1).2 = Err ErrSessionShutdown.
Proof.
  intros os w sid data m h o Hok Hsid Hm Ho Hst w1 m1 r.
  destruct (Client_Stop_result os sid w Hok) as (_ & Hsh & Hopen & _ & _).
  change (Client.Client_Stop os sid w).1 with w1 in Hsh, Hopen.
  assert (Hr : r = (Client.set_client
                      (Client.set_written
                         (Client.written (Client.client w1)
                            ++ [Client.OBytes Protocol.frameInput
                                  (Protocol.dataFramePayload sid data)])
                         (Client.client w1)) w1, Ok (len data))).
  { unfold r. cbn [Write Client.ProxySession_SessionHandle].
    unfold Client.writeInput. rewrite Hopen. reflexivity. }
  clearbody w1 r. subst r. cbn [fst snd].
  split; [reflexivity|]. split; [|split].
  - cbn [Client.set_client Client.client Client.written Client.set_written].
    apply last_snoc.
  - cbn [Client.set_client Client.shepherd]. unfold Shepherd.handleInput.
    rewrite parseDataPayload_short by exact Hsid. rewrite Hsh.
    rewrite (handleStop_sessions _
               (Protocol.mkRequest _ Protocol.cmdStop sid "" "" 0 0)).
    reflexivity.
  - unfold m1. cbn [Stop Write Pty.Manager_SessionManager Pty.Session_SessionHandle].
    unfold Pty.Manager_Stop. rewrite Hm. cbn [fst].
    unfold Pty.Session_Write. cbn [Pty.objs Pty.set_objs Pty.set_sessions].
    rewrite lookup_alter_eq, Ho. cbn [fmap option_fmap option_map]. rewrite Hst.
    reflexivity.
Qed.

Lemma X14_write_after_stop_witness :
  (@Write Client.World Client.ProxySession _ "abc"%string [x68; x69]
     (@Stop Client.World Client.ProxySession _ os_ok "abc"%string client_started).1).2
  = Ok 2 /\
  (@Write Pty.Manager positive _ 1%positive [x68; x69]
     (@Stop Pty.Manager positive _ os_ok "abc"%string pty_started).1).2
  = Err ErrSessionShutdown.
Proof.
  assert (H := X14_write_after_stop os_ok client_started "abc"%string [x68; x69]
                 pty_started 1%positive (pty_session0 "abc" 42)).
  cbv zeta in H. split; apply H;
    first [ vm_compute; reflexivity
          | vm_compute; intros Hd; discriminate Hd
          | split; [reflexivity|]; eexists;
            (split; [vm_compute; reflexivity|]); split; reflexivity ].
Defined.

Section RequestIds.
Import Protocol.




End RequestIds.



Section SupervisorInvariant.
Import Protocol Chan.

Lemma fold_alter_lookup (f : chan -> chan) (X : gset positive) (h : heap)
  (ch : positive) :
set_fold (fun l h => alter f l h) h X !! ch
= if decide (ch ∈ X) then f <$> h !! ch else h !! ch.
Proof.
revert ch.
refine (set_fold_ind_L
          (fun (r : heap) (Y : gset positive) =>
             forall ch, r !! ch
             = if decide (ch ∈ Y) then f <$> h !! ch else h !! ch)
          (fun l h => alter f l h) h _ _ X).
- intros ch. destruct (decide (ch ∈ (∅ : gset positive))) as [Hin|_];
    [set_solver | reflexivity].
- intros x Y r Hx IH ch. rewrite lookup_alter.
  destruct (decide (x = ch)) as [->|Hne].
  + rewrite IH. destruct (decide (ch ∈ Y)) as [?|_]; [contradiction|].
    destruct (decide (ch ∈ {[ch]} ∪ Y)) as [_|Hn]; [reflexivity | set_solver].
  + rewrite IH.
    destruct (decide (ch ∈ Y)) as [HinY|HninY],
      (decide (ch ∈ {[x]} ∪ Y)) as [HinU|HninU]; try reflexivity.
    * exfalso. apply HninU. apply elem_of_union_r. exact HinY.
    * exfalso. apply elem_of_union in HinU as [Hx'|HY]; [|contradiction].
      apply elem_of_singleton in Hx'. congruence.
Qed.

Lemma chan_step_refl (q : chan) : chan_step q q.
Proof. split; [reflexivity|]. split; [reflexivity|]. left. lia. Qed.

Lemma chan_step_trySend (q : chan) (v : chunk) : chan_step q (fst (trySend q v)).
Proof.
unfold trySend. destruct (closed q) eqn:Hc; [apply chan_step_refl|].
destruct (Z.ltb_spec (len (buf q)) (cap q)); [|apply chan_step_refl].
split; [cbn; congruence|]. split; [reflexivity|]. right.
cbn [fst buf]. rewrite len_app. unfold len at 2. cbn. lia.
Qed.

(** A step that adds no subscriber, allocates nothing and closes
    nothing keeps the invariant. *)
Lemma sup_inv_preserved (s s' : Shepherd.Shepherd) :
(forall p o', Shepherd.objs s' !! p = Some o' ->
   exists o, Shepherd.objs s !! p = Some o /\
             Shepherd.subscribers o' ⊆ Shepherd.subscribers o) ->
(forall ch, match Shepherd.heap_ s !! ch, Shepherd.heap_ s' !! ch with
            | Some q, Some q' => chan_step q q'
            | None, None => True
            | _, _ => False
            end) ->
sup_inv s -> sup_inv s'.
Proof.
intros Hobjs Hheap (Hopen & Hdisj & Hcap). split; [|split].
- intros sess o' ch Ho' Hin.
  destruct (Hobjs sess o' Ho') as (o & Ho & Hsub).
  destruct (Hopen sess o ch Ho (Hsub ch Hin)) as (q & Hq & Hcl).
  specialize (Hheap ch). rewrite Hq in Hheap.
  destruct (Shepherd.heap_ s' !! ch) as [q'|]; [|contradiction].
  exists q'. split; [reflexivity|]. destruct Hheap as (-> & _). exact Hcl.
- intros s1 s2 o1 o2 ch H1 H2 Hin1 Hin2.
  destruct (Hobjs s1 o1 H1) as (o1' & H1' & Hsub1).
  destruct (Hobjs s2 o2 H2) as (o2' & H2' & Hsub2).
  exact (Hdisj s1 s2 o1' o2' ch H1' H2' (Hsub1 ch Hin1) (Hsub2 ch Hin2)).
- intros ch q' Hq'. specialize (Hheap ch). rewrite Hq' in Hheap.
  destruct (Shepherd.heap_ s !! ch) as [q|] eqn:Hq; [|contradiction].
  destruct (Hcap ch q Hq) as (Hc & Hb). destruct Hheap as (_ & Hc' & Hb').
  split; [congruence|]. destruct Hb' as [Hb'|Hb']; lia.
Qed.

Lemma heap_same_step (h : heap) (ch : positive) :
match h !! ch, h !! ch with
| Some q, Some q' => chan_step q q'
| None, None => True
| _, _ => False
end.
Proof. destruct (h !! ch); [apply chan_step_refl | exact I]. Qed.

(** Steps that leave the channels and the session objects alone. *)
Lemma sup_inv_same (s s' : Shepherd.Shepherd) :
Shepherd.heap_ s' = Shepherd.heap_ s -> Shepherd.objs s' = Shepherd.objs s ->
sup_inv s -> sup_inv s'.
Proof.
intros Hh Ho. apply sup_inv_preserved.
- intros p o' Hp. rewrite Ho in Hp. exists o'. split; [exact Hp | reflexivity].
- intros ch. rewrite Hh. apply heap_same_step.
Qed.

(** Steps that change one session object without adding a subscriber. *)
Lemma sup_inv_alter (f : Shepherd.session -> Shepherd.session) (p : positive)
  (s s' : Shepherd.Shepherd) :
(forall o, Shepherd.subscribers (f o) ⊆ Shepherd.subscribers o) ->
Shepherd.heap_ s' = Shepherd.heap_ s ->
Shepherd.objs s' = alter f p (Shepherd.objs s) ->
sup_inv s -> sup_inv s'.
Proof.
intros Hf Hh Ho. apply sup_inv_preserved.
- intros p' o' Hp. rewrite Ho, lookup_alter in Hp.
  destruct (decide (p = p')) as [->|Hne].
  + destruct (Shepherd.objs s !! p') as [o|]; [|discriminate].
    injection Hp as <-. exists o. split; [reflexivity | apply Hf].
  + exists o'. split; [exact Hp | reflexivity].
- intros ch. rewrite Hh. apply heap_same_step.
Qed.

Lemma sup_inv_sendResponse (cw : positive) (resp : Response) (s : Shepherd.Shepherd) :
sup_inv s -> sup_inv (Shepherd.sendResponse cw resp s).
Proof. apply sup_inv_same; reflexivity. Qed.

Lemma stopSession_subscribers (o : Shepherd.session) :
Shepherd.subscribers (Shepherd.stopSession o) = Shepherd.subscribers o.
Proof. unfold Shepherd.stopSession. destruct (Shepherd.stopped o); reflexivity. Qed.

Lemma sup_inv_handleStart (os : OS) (cw : positive) (req : Request)
  (s : Shepherd.Shepherd) :
sup_inv s -> sup_inv (Shepherd.handleStart os cw req s).
Proof.
intros Hinv. unfold Shepherd.handleStart.
destruct (startWithSize os (req_CLIType req) (req_WorkDir req)) as [child|e];
  [|apply sup_inv_sendResponse; exact Hinv].
apply sup_inv_sendResponse.
destruct Hinv as (Hopen & Hdisj & Hcap).
assert (Hfresh : Shepherd.objs s !! fresh (dom (Shepherd.objs s)) = None).
{ apply not_elem_of_dom. apply is_fresh. }
set (p := fresh (dom (Shepherd.objs s))) in *.
split; [|split]; cbn.
- intros sess o ch. rewrite lookup_insert. destruct (decide (p = sess)) as [->|Hne].
  + intros [= <-]. cbn. set_solver.
  + apply Hopen.
- intros s1 s2 o1 o2 ch. rewrite !lookup_insert.
  destruct (decide (p = s1)) as [->|Hne1].
  + intros [= <-]. cbn. set_solver.
  + destruct (decide (p = s2)) as [->|Hne2].
    * intros _ [= <-]. cbn. set_solver.
    * apply Hdisj.
- exact Hcap.
Qed.

Lemma sup_inv_handleStop (cw : positive) (req : Request) (s : Shepherd.Shepherd) :
sup_inv s -> sup_inv (Shepherd.handleStop cw req s).
Proof.
intros Hinv. unfold Shepherd.handleStop.
destruct (Shepherd.sessions s !! req_SessionID req) as [sess|];
  [|apply sup_inv_sendResponse; exact Hinv].
apply sup_inv_sendResponse.
eapply (sup_inv_alter Shepherd.stopSession sess s); [| | |exact Hinv];
  [intros o; rewrite stopSession_subscribers; reflexivity | reflexivity | reflexivity].
Qed.

Lemma sup_inv_stopAll (s : Shepherd.Shepherd) : sup_inv s -> sup_inv (Shepherd.stopAll s).
Proof.
unfold Shepherd.stopAll.
destruct (foldl_stop_objs (map_to_list (Shepherd.sessions s))
            (Shepherd.set_sessions ∅ s)) as (_ & Hh & Ho).
cbv zeta in Hh, Ho. apply sup_inv_preserved.
- intros p o'. rewrite Ho. cbn.
  destruct (decide (p ∈ (map_to_list (Shepherd.sessions s)).*2)).
  + destruct (Shepherd.objs s !! p) as [o|]; [|discriminate].
    intros [= <-]. exists o. split; [reflexivity|].
    rewrite stopSession_subscribers. reflexivity.
  + intros Hp. exists o'. split; [exact Hp | reflexivity].
- intros ch. rewrite Hh. apply heap_same_step.
Qed.

Lemma sup_inv_handleSubscribe (cw : positive) (req : Request) (s : Shepherd.Shepherd) :
sup_inv s -> sup_inv (Shepherd.handleSubscribe cw req s).
Proof.
intros Hinv. unfold Shepherd.handleSubscribe.
destruct (Shepherd.sessions s !! req_SessionID req) as [sess|];
  [|apply sup_inv_sendResponse; exact Hinv].
destruct (Shepherd.objs s !! sess) as [o|] eqn:Ho;
  [|apply sup_inv_sendResponse; exact Hinv].
destruct Hinv as (Hopen & Hdisj & Hcap).
unfold Shepherd.subscribe, alloc. cbn.
assert (Hfresh : Shepherd.heap_ s !! fresh (dom (Shepherd.heap_ s)) = None).
{ apply not_elem_of_dom. apply is_fresh. }
set (c := fresh (dom (Shepherd.heap_ s))) in *.
assert (Hnew : forall p o', Shepherd.objs s !! p = Some o' ->
                 c ∉ Shepherd.subscribers o').
{ intros p o' Hp Hin. destruct (Hopen p o' c Hp Hin) as (q & Hq & _). congruence. }
split; [|split]; cbn.
- intros p o' ch. rewrite lookup_insert. destruct (decide (sess = p)) as [->|Hne].
  + intros [= <-]. cbn. intros Hin. apply elem_of_union in Hin as [Hin|Hin].
    * apply elem_of_singleton in Hin as ->. exists (make 256).
      rewrite lookup_insert_eq. split; reflexivity.
    * destruct (Hopen p o ch Ho Hin) as (q & Hq & Hcl). exists q.
      rewrite lookup_insert_ne by congruence. split; assumption.
  + intros Hp Hin. destruct (Hopen p o' ch Hp Hin) as (q & Hq & Hcl). exists q.
    rewrite lookup_insert_ne by congruence. split; assumption.
- intros s1 s2 o1 o2 ch. rewrite !lookup_insert.
  destruct (decide (sess = s1)) as [E1|Hne1], (decide (sess = s2)) as [E2|Hne2].
  + intros. congruence.
  + subst s1. intros [= <-] H2. cbn. intros Hin1 Hin2.
    apply elem_of_union in Hin1 as [Hin1|Hin1].
    * apply elem_of_singleton in Hin1 as ->. exfalso. exact (Hnew s2 o2 H2 Hin2).
    * exact (Hdisj sess s2 o o2 ch Ho H2 Hin1 Hin2).
  + subst s2. intros H1 [= <-]. cbn. intros Hin1 Hin2.
    apply elem_of_union in Hin2 as [Hin2|Hin2].
    * apply elem_of_singleton in Hin2 as ->. exfalso. exact (Hnew s1 o1 H1 Hin1).
    * exact (Hdisj s1 sess o1 o ch H1 Ho Hin1 Hin2).
  + apply Hdisj.
- intros ch q. rewrite lookup_insert. destruct (decide (c = ch)) as [->|Hne].
  + intros [= <-]. cbn. split; [reflexivity|]. unfold len. cbn. lia.
  + apply Hcap.
Qed.

Lemma sup_inv_handleControl (os : OS) (cw : positive) (req : Request)
  (s : Shepherd.Shepherd) :
sup_inv s -> sup_inv (Shepherd.handleControl os cw req s).
Proof.
intros Hinv. unfold Shepherd.handleControl.
repeat match goal with
       | |- context [decide ?P] => destruct (decide P)
       end;
  try exact Hinv;
  first [ apply sup_inv_handleStart; exact Hinv
        | apply sup_inv_handleStop; exact Hinv
        | apply sup_inv_handleSubscribe; exact Hinv
        | apply sup_inv_sendResponse; apply sup_inv_stopAll; exact Hinv
        | apply sup_inv_sendResponse; exact Hinv
        | unfold Shepherd.handleResize, Shepherd.handleReplay, Shepherd.handleList;
          repeat match goal with
                 | |- context [match ?x with _ => _ end] => destruct x
                 end;
          apply sup_inv_sendResponse; exact Hinv ].
Qed.

Lemma sup_inv_ptyRead (sess : positive) (data : list byte) (s : Shepherd.Shepherd) :
sup_inv s -> sup_inv (Shepherd.ptyRead sess data s).
Proof.
unfold Shepherd.ptyRead. destruct (Shepherd.objs s !! sess) as [o|] eqn:Ho;
  [|exact (fun H => H)].
apply sup_inv_preserved; cbn.
- intros p o'. rewrite lookup_insert. destruct (decide (sess = p)) as [->|Hne].
  + intros [= <-]. exists o. split; [exact Ho|].
    rewrite Shepherd_appendReplay_subscribers. reflexivity.
  + intros Hp. exists o'. split; [exact Hp | reflexivity].
- intros ch. unfold Shepherd.broadcast. rewrite fold_trySendAt_lookup.
  destruct (decide (ch ∈ _)); [|apply heap_same_step].
  destruct (Shepherd.heap_ s !! ch) as [q|]; cbn; [apply chan_step_trySend | exact I].
Qed.

Lemma sup_inv_ptyEOF (sess : positive) (s : Shepherd.Shepherd) :
sup_inv s -> sup_inv (Shepherd.ptyEOF sess s).
Proof.
unfold Shepherd.ptyEOF. destruct (Shepherd.objs s !! sess) as [o|] eqn:Ho;
  [|exact (fun H => H)].
intros (Hopen & Hdisj & Hcap).
assert (Hl : forall ch,
          set_fold closeAt (Shepherd.heap_ s) (Shepherd.subscribers o) !! ch
          = if decide (ch ∈ Shepherd.subscribers o)
            then close <$> Shepherd.heap_ s !! ch else Shepherd.heap_ s !! ch).
{ intros ch. apply (fold_alter_lookup close). }
split; [|split]; cbn.
- intros p o' ch. rewrite lookup_insert. destruct (decide (sess = p)) as [->|Hne].
  + intros [= <-]. cbn. set_solver.
  + intros Hp Hin. rewrite Hl.
    destruct (decide (ch ∈ Shepherd.subscribers o)) as [Hin'|_].
    * exfalso. apply Hne. exact (Hdisj sess p o o' ch Ho Hp Hin' Hin).
    * exact (Hopen p o' ch Hp Hin).
- intros s1 s2 o1 o2 ch. rewrite !lookup_insert.
  destruct (decide (sess = s1)) as [->|Hne1].
  + intros [= <-]. cbn. set_solver.
  + destruct (decide (sess = s2)) as [->|Hne2].
    * intros _ [= <-]. cbn. set_solver.
    * apply Hdisj.
- intros ch q. rewrite Hl. destruct (decide (ch ∈ Shepherd.subscribers o)).
  + destruct (Shepherd.heap_ s !! ch) as [q0|] eqn:Hq; [|discriminate].
    intros [= <-]. cbn. exact (Hcap ch q0 Hq).
  + apply Hcap.
Qed.

Lemma unsub_subscribers (ch : positive) (o : Shepherd.session) :
Shepherd.subscribers (Shepherd.unsub ch o) ⊆ Shepherd.subscribers o.
Proof. cbn. intros x Hx. apply elem_of_difference in Hx as [Hx _]. exact Hx. Qed.

Lemma sup_inv_forward (cw sess : positive) (sid : string) (ch : positive)
  (s : Shepherd.Shepherd) :
sup_inv s -> sup_inv (Shepherd.forward cw sess sid ch s).
Proof.
intros Hinv. unfold Shepherd.forward.
destruct (Shepherd.heap_ s !! ch) as [q|] eqn:Hq; [|exact Hinv].
unfold recv. destruct (buf q) as [|v rest] eqn:Hbuf.
- destruct (closed q); [|exact Hinv].
  eapply (sup_inv_alter (Shepherd.unsub ch) sess s); [| | |exact Hinv];
    [apply unsub_subscribers | reflexivity | reflexivity].
- assert (Hrecv : sup_inv (Shepherd.set_heap
                             (<[ch := mkChan rest (cap q) (closed q)]>
                                (Shepherd.heap_ s)) s)).
  { revert Hinv. apply sup_inv_preserved; cbn.
    - intros p o' Hp. exists o'. split; [exact Hp | reflexivity].
    - intros c. rewrite lookup_insert. destruct (decide (ch = c)) as [->|Hne];
        [|apply heap_same_step].
      rewrite Hq. split; [reflexivity|]. split; [reflexivity|]. left.
      cbn. rewrite Hbuf. unfold len. cbn. lia. }
  cbn [Shepherd.conns Shepherd.set_heap].
  destruct (Shepherd.conns s !! cw) as [[snt [|]]|].
  + eapply (sup_inv_alter (Shepherd.unsub ch) sess); [| | |exact Hrecv];
      [apply unsub_subscribers | reflexivity | reflexivity].
  + revert Hrecv. apply sup_inv_same; reflexivity.
  + eapply (sup_inv_alter (Shepherd.unsub ch) sess); [| | |exact Hrecv];
      [apply unsub_subscribers | reflexivity | reflexivity].
Qed.

Lemma sup_inv_reap (sess : positive) (sid : string) (s : Shepherd.Shepherd) :
sup_inv s -> sup_inv (Shepherd.reap sess sid s).
Proof.
intros Hinv. unfold Shepherd.reap, Shepherd.runExit, Shepherd.exitMonitor.
cbn [foldl Shepherd.execExit].
match goal with
| |- sup_inv (Shepherd.set_sessions _ ?s1) =>
    apply (sup_inv_same s1); [reflexivity | reflexivity |]
end.
match goal with
| |- sup_inv (Shepherd.broadcastExit sid ?s0) =>
    destruct (broadcastExit_spec sid s0) as (Hh & Ho & _);
    apply (sup_inv_same s0); [exact Hh | exact Ho |]
end.
do 2 match goal with
     | |- sup_inv (Shepherd.set_objs (alter ?f ?p (Shepherd.objs ?s1)) ?s1) =>
         apply (sup_inv_alter f p s1);
           [intros o; reflexivity | reflexivity | reflexivity |]
     end.
exact Hinv.
Qed.

Lemma sup_inv_step (os : OS) (op : sup_op) (s : Shepherd.Shepherd) :
sup_inv s -> sup_inv (sup_step os op s).
Proof.
destruct op; cbn [sup_step].
- apply sup_inv_same; reflexivity.
- apply sup_inv_same; reflexivity.
- apply sup_inv_handleControl.
- exact (fun H => H).
- apply sup_inv_ptyRead.
- apply sup_inv_ptyEOF.
- apply sup_inv_forward.
- apply sup_inv_reap.
Qed.

Lemma sup_inv_run (os : OS) (ops : list sup_op) (s : Shepherd.Shepherd) :
sup_inv s -> sup_inv (sup_run os ops s).
Proof.
revert s. induction ops as [|op ops IH]; intros s Hinv; [exact Hinv|].
apply IH. apply sup_inv_step. exact Hinv.
Qed.

Lemma sup_inv_new : sup_inv Shepherd.new.
Proof.
split; [|split]; cbn.
- intros sess o ch H. rewrite lookup_empty in H. discriminate H.
- intros s1 s2 o1 o2 ch H. rewrite lookup_empty in H. discriminate H.
- intros ch q H. rewrite lookup_empty in H. discriminate H.
Qed.

End SupervisorInvariant.

(** X16: in every state the supervisor reaches from its start, through
    any interleaving of accepted and closed connections, requests, PTY
    reads, PTY ends, forwarder steps and reaped children, every subscriber
    of a session is an allocated channel that is not closed, so the sends
    of [broadcast] never hit a closed channel; and every subscriber queue
    has capacity 256 and holds at most 256 chunks. *)
Theorem X16_supervisor_never_sends_on_closed :
  forall (os : OS) (ops : list sup_op),
    let s := sup_run os ops Shepherd.new in
    (forall (sess : positive) (o : Shepherd.session) (ch : positive) (data : list byte),
        Shepherd.objs s !! sess = Some o -> ch ∈ Shepherd.subscribers o ->
        exists q, Shepherd.heap_ s !! ch = Some q /\
                  (Chan.trySend q data).2 <> Chan.PanicClosed) /\
    (forall (ch : positive) (q : Chan.chan),
        Shepherd.heap_ s !! ch = Some q ->
        Chan.cap q = 256 /\ len (Chan.buf q) <= 256).
Proof.
  intros os ops s.
  destruct (sup_inv_run os ops Shepherd.new sup_inv_new) as (Hopen & _ & Hcap).
  fold s in Hopen, Hcap. split; [|exact Hcap].
  intros sess o ch data Ho Hin.
  destruct (Hopen sess o ch Ho Hin) as (q & Hq & Hcl).
  exists q. split; [exact Hq|]. unfold Chan.trySend. rewrite Hcl.
  destruct (len (Chan.buf q) <? Chan.cap q); discriminate.
Qed.

Lemma X16_supervisor_never_sends_on_closed_witness :
  exists q,
    Shepherd.heap_
      (sup_run os_ok
         [SAccept;
          SControl 1 (Protocol.mkRequest "r1" Protocol.cmdStart "abc" "claude" "/tmp" 0 0);
          SControl 1 (Protocol.mkRequest "r2" Protocol.cmdSubscribe "abc" "" "" 0 0);
          SPtyRead 1 [x68; x69]]
         Shepherd.new) !! 1%positive = Some q /\
    (Chan.trySend q [x68; x69]).2 <> Chan.PanicClosed.
Proof.
  eapply (proj1 (X16_supervisor_never_sends_on_closed os_ok _) 1%positive).
  - vm_compute. reflexivity.
  - vm_compute. reflexivity.
Defined.

Section ClosedClient.
Import Protocol.

Lemma sendRequest_closed (os : OS) (req : Request) (w : Client.World) :
Client.closed (Client.client w) = true ->
Client.sendRequest os req w
= (Client.mkWorld
     (Client.set_reqCounter (Client.reqCounter (Client.client w) + 1) (Client.client w))
     (Client.shepherd w),
   Err ErrClientClosed).
Proof. intros Hc. unfold Client.sendRequest. cbn. rewrite Hc. reflexivity. Qed.

End ClosedClient.



Section ResizePath.
Import Protocol.


End ResizePath.



Section ListPath.
Import Protocol.

Lemma Client_ListSessions_result (os : OS) (w : Client.World) :
link_up w ->
let r := Client.ListSessions os w in
r.2 = Ok (elements (dom (Shepherd.sessions (Client.shepherd w)))) /\
link_ok r.1 /\
Shepherd.sessions (Client.shepherd r.1) = Shepherd.sessions (Client.shepherd w) /\
Client.sessionDone (Client.client r.1) = Client.sessionDone (Client.client w).
Proof.
intros (Hopen & cw & Hc & Hcl & Hle & Hpass) r. subst r.
unfold Client.unread in Hpass. rewrite Hc in Hpass.
unfold Client.ListSessions.
set (req := mkRequest "" cmdList "" "" "" 0 0).
set (req' := Client.set_ID (Client.reqID (Client.reqCounter (Client.client w) + 1)) req).
destruct (sendRequest_reply_up os req w cw
            (mkResponse (req_ID req') evtList 0 "" "" []
               (elements (dom (Shepherd.sessions (Client.shepherd w)))))
            Hopen Hc Hle Hpass) as (w1 & Hsend & Hok & Hsh & Hst & _).
{ cbv zeta. fold req'. rewrite handleControl_list by reflexivity.
  unfold Shepherd.handleList. apply sendResponse_conns; assumption. }
{ reflexivity. }
rewrite Hsend. cbn [fst snd resp_Sessions].
split; [reflexivity|]. split; [exact Hok|]. split.
- rewrite Hsh. cbv zeta. rewrite handleControl_list by reflexivity. reflexivity.
- destruct Hst as (_ & _ & _ & Hd & _). exact Hd.
Qed.

Lemma Client_Ping_result (os : OS) (w : Client.World) :
link_up w -> (Client.Ping os w).2 = None.
Proof.
intros (Hopen & cw & Hc & Hcl & Hle & Hpass).
unfold Client.unread in Hpass. rewrite Hc in Hpass.
unfold Client.Ping.
set (req := mkRequest "" cmdPing "" "" "" 0 0).
set (req' := Client.set_ID (Client.reqID (Client.reqCounter (Client.client w) + 1)) req).
destruct (sendRequest_reply_up os req w cw
            (mkResponse (req_ID req') evtPong 0 "" "" [] [])
            Hopen Hc Hle Hpass) as (w1 & Hsend & _).
{ cbv zeta. fold req'. rewrite handleControl_ping by reflexivity.
  apply sendResponse_conns; assumption. }
{ reflexivity. }
rewrite Hsend. cbn [resp_Event].
destruct (decide (evtPong = evtPong)) as [_|Hne]; [reflexivity|].
exfalso. apply Hne. reflexivity.
Qed.

End ListPath.

(** X19: on a connection that is up (exit notifications and output may
    be in flight) [Ping] returns nil and [ListSessions] returns the ids of
    the supervisor's session table: each id of the table exactly once and
    nothing else. Listing changes neither the table nor the sessions the
    client knows. *)
Theorem X19_ping_and_list :
  forall (os : OS) (w : Client.World),
    link_up w ->
    (Client.Ping os w).2 = None /\
    exists ids : list string,
      (Client.ListSessions os w).2 = Ok ids /\
      NoDup ids /\
      (forall id : string,
          id ∈ ids <-> is_Some (Shepherd.sessions (Client.shepherd w) !! id)) /\
      Shepherd.sessions (Client.shepherd (Client.ListSessions os w).1)
      = Shepherd.sessions (Client.shepherd w) /\
      Client.sessionDone (Client.client (Client.ListSessions os w).1)
      = Client.sessionDone (Client.client w).
Proof.
  intros os w Hup. split; [apply Client_Ping_result; exact Hup|].
  destruct (Client_ListSessions_result os w Hup) as (Hr & _ & Hs & Hd).
  eexists. split; [exact Hr|]. split; [apply NoDup_elements|].
  split; [|split; [exact Hs | exact Hd]].
  intros id. rewrite elem_of_elements, elem_of_dom. reflexivity.
Qed.

Lemma X19_ping_and_list_witness :
  (Client.Ping os_ok
     (Client.mkWorld (Client.client client_started)
        (Shepherd.reap 1 "abc" (Client.shepherd client_started)))).2 = None.
Proof.
  apply (X19_ping_and_list os_ok
           (Client.mkWorld (Client.client client_started)
              (Shepherd.reap 1 "abc" (Client.shepherd client_started)))).
  split; [reflexivity|]. eexists. split; [vm_compute; reflexivity|].
  split; [reflexivity|]. split; [vm_compute; repeat constructor|].
  vm_compute. repeat constructor.
Defined.

Section Reconcile.
Import Protocol.




End Reconcile.



Section BridgeCleanup.
Context {W H : Type} `{!SessionHandle W H} `{!SessionManager W H}.
Variable os : OS.
Variable sessionID : string.
Variable sess : H.

Lemma subscriptions_snoc (t : list Ws.event) (e : Ws.event) :
subscriptions (t ++ [e])
= subscriptions t ++ match e with Ws.CallSubscribe ch => [ch] | _ => [] end.
Proof.
induction t as [|x t IH]; cbn [app subscriptions].
- destruct e; reflexivity.
- destruct x; cbn [app]; rewrite IH; reflexivity.
Qed.

Lemma unsubscriptions_snoc (t : list Ws.event) (e : Ws.event) :
unsubscriptions (t ++ [e])
= unsubscriptions t ++ match e with Ws.CallUnsub ch => [ch] | _ => [] end.
Proof.
induction t as [|x t IH]; cbn [app unsubscriptions].
- destruct e; reflexivity.
- destruct x; cbn [app]; rewrite IH; reflexivity.
Qed.

(** An event that is neither a subscription nor an unsubscription. *)
Lemma cleanup_log (b : Ws.bridge) (e : Ws.event) :
match e with Ws.CallSubscribe _ | Ws.CallUnsub _ => False | _ => True end ->
subscriptions (Ws.trace (Ws.log e b)) = subscriptions (Ws.trace b) /\
unsubscriptions (Ws.trace (Ws.log e b)) = unsubscriptions (Ws.trace b).
Proof.
intros He. cbn [Ws.log Ws.trace]. rewrite subscriptions_snoc, unsubscriptions_snoc.
destruct e; try contradiction; rewrite !app_nil_r; split; reflexivity.
Qed.

Lemma mainStep_cleanup (ok : bool) (w : W) (b : Ws.bridge) :
cleanup_inv b -> cleanup_inv (Ws.mainStep os sessionID sess ok w b).2.
Proof.
unfold cleanup_inv, Ws.mainStep, idle. destruct b as [p pump ping input t].
cbn [Ws.at_ Ws.trace Ws.pumpRunning Ws.pingRunning Ws.inputRunning].
destruct p as [|r| |ch|ch|].
- intros (Hi & Hs & Hu). destruct (Replay os sess w) as [w' r]. cbn.
  rewrite subscriptions_snoc, unsubscriptions_snoc, Hs, Hu. repeat split; apply Hi.
- intros (Hi & Hs & Hu). destruct (len r >? 0); [destruct ok|]; cbn.
  + rewrite subscriptions_snoc, unsubscriptions_snoc, Hs, Hu. repeat split; apply Hi.
  + split; [exact Hi|]. left. split; assumption.
  + repeat split; try apply Hi; assumption.
- intros (Hi & Hs & Hu). destruct (Subscribe os sess w) as [w' ch]. cbn.
  rewrite subscriptions_snoc, unsubscriptions_snoc, Hs, Hu. split; reflexivity.
- intros (Hs & Hu). destruct input; cbn; [|split; assumption].
  destruct (Done sess w) as [w' d]. destruct d; cbn; [|split; assumption].
  rewrite subscriptions_snoc, unsubscriptions_snoc, Hs, Hu. split; reflexivity.
- intros (Hs & Hu). destruct pump, ping, input; cbn; try (split; assumption).
  split; [repeat split|]. right. exists ch, t. repeat split; assumption.
- intros Hr. exact Hr.
Qed.

Lemma pumpStep_cleanup (ok : bool) (w : W) (b : Ws.bridge) :
cleanup_inv b -> cleanup_inv (Ws.pumpStep ok w b).2.
Proof.
unfold cleanup_inv, Ws.pumpStep, Ws.subscription, idle.
destruct b as [p pump ping input t].
cbn [Ws.at_ Ws.trace Ws.pumpRunning Ws.pingRunning Ws.inputRunning].
destruct p as [|r| |ch|ch|]; try (intros Ht; exact Ht);
  intros (Hs & Hu); destruct pump; cbn; try (split; assumption);
  destruct (Next ch w) as [w' [data| |]]; cbn; try (split; assumption);
  destruct ok; cbn; try (split; assumption);
  rewrite subscriptions_snoc, unsubscriptions_snoc, Hs, Hu; split; reflexivity.
Qed.

Lemma pingStep_cleanup (ok : bool) (w : W) (b : Ws.bridge) :
cleanup_inv b -> cleanup_inv (Ws.pingStep sess ok w b).2.
Proof.
unfold cleanup_inv, Ws.pingStep, Ws.subscription, idle.
destruct b as [p pump ping input t].
cbn [Ws.at_ Ws.trace Ws.pumpRunning Ws.pingRunning Ws.inputRunning].
destruct p as [|r| |ch|ch|]; try (intros Ht; exact Ht);
  intros (Hs & Hu); destruct ping; cbn; try (split; assumption);
  destruct input; cbn; try (split; assumption);
  destruct (Done sess w) as [w' d]; destruct d; cbn; try (split; assumption);
  destruct ok; cbn; try (split; assumption);
  rewrite subscriptions_snoc, unsubscriptions_snoc, Hs, Hu; split; reflexivity.
Qed.

Lemma inputStep_cleanup (m : Ws.inbound) (w : W) (b : Ws.bridge) :
cleanup_inv b -> cleanup_inv (Ws.inputStep os sessionID sess m w b).2.
Proof.
unfold cleanup_inv, Ws.inputStep, Ws.subscription, idle.
destruct b as [p pump ping input t].
cbn [Ws.at_ Ws.trace Ws.pumpRunning Ws.pingRunning Ws.inputRunning].
destruct p as [|r| |ch|ch|]; try (intros Ht; exact Ht);
  intros (Hs & Hu); destruct input; cbn; try (split; assumption);
  destruct m; cbn; try (split; assumption);
  rewrite subscriptions_snoc, unsubscriptions_snoc, Hs, Hu; split; reflexivity.
Qed.

Lemma run_cleanup (ls : list (Ws.label W)) (w : W) :
cleanup_inv (Ws.run os sessionID sess ls w).2.
Proof.
unfold Ws.run.
assert (Hgen : forall st : W * Ws.bridge,
           cleanup_inv st.2 ->
           cleanup_inv (foldl (fun st l => Ws.step os sessionID sess l st) st ls).2).
{ induction ls as [|l ls IH]; intros st Hst; cbn [foldl]; [exact Hst|].
  apply IH. destruct st as [w0 b0]. cbn [snd] in Hst.
  destruct l as [ok|ok|ok|m|f]; cbn [Ws.step].
  - apply mainStep_cleanup, Hst.
  - apply pumpStep_cleanup, Hst.
  - apply pingStep_cleanup, Hst.
  - apply inputStep_cleanup, Hst.
  - exact Hst. }
apply Hgen. repeat split.
Qed.

End BridgeCleanup.

(** X21: the WebSocket handler cleans up after itself, whatever the
    interleaving of its goroutines with the rest of the program and
    whatever the backend. It subscribes at most once; it unsubscribes only
    as its very last action, from the channel it subscribed, and only
    after the ticker, the output pump and the input pump have all ended;
    when it returns before subscribing (the replay could not be sent) it
    neither subscribes nor unsubscribes. *)
Theorem X21_bridge_cleans_up :
  forall (W H : Type) (hdl : SessionHandle W H) (mgr : SessionManager W H)
         (os : OS) (sessionID : string) (sess : H)
         (ls : list (Ws.label W)) (w : W),
    let b := (Ws.run os sessionID sess ls w).2 in
    (length (subscriptions (Ws.trace b)) <= 1)%nat /\
    (Ws.at_ b = Ws.Returned -> idle b /\ cleaned_up (Ws.trace b)) /\
    (Ws.at_ b <> Ws.Returned -> unsubscriptions (Ws.trace b) = []).
Proof.
  intros W H hdl mgr os sessionID sess ls w b.
  pose proof (run_cleanup os sessionID sess ls w) as Hinv. fold b in Hinv.
  unfold cleanup_inv in Hinv. split; [|split].
  - destruct (Ws.at_ b); try (destruct Hinv as (_ & -> & _); cbn; lia);
      try (destruct Hinv as (-> & _); cbn; lia).
    destruct Hinv as (_ & [(-> & _)|(ch & pre & -> & Hs & _)]); [cbn; lia|].
    rewrite subscriptions_snoc, Hs. cbn. lia.
  - intros Hr. rewrite Hr in Hinv. exact Hinv.
  - intros Hn. destruct (Ws.at_ b); try (apply Hinv). contradiction Hn. reflexivity.
Qed.

Lemma X21_bridge_cleans_up_witness :
  Ws.trace (Ws.run os_ok "abc" 1%positive attach_then_disconnect pty_abcdef).2
  = [Ws.CallReplay [x61; x62; x63; x64; x65; x66];
     Ws.WriteReplay [x61; x62; x63; x64; x65; x66];
     Ws.CallSubscribe 1; Ws.CallUnsub 1] /\
  cleaned_up
    (Ws.trace (Ws.run os_ok "abc" 1%positive attach_then_disconnect pty_abcdef).2).
Proof.
  split; [vm_compute; reflexivity|].
  apply (X21_bridge_cleans_up Pty.Manager positive _ _ os_ok "abc"%string 1%positive
           attach_then_disconnect pty_abcdef).
  vm_compute. reflexivity.
Defined.

Section AuthTokens.
Variable hmacHex : list byte -> string -> string.
Variable Sscanf_d : string -> Z.

Lemma cut_Some (s a r : string) :
Auth.cut s = Some (a, r) -> nobar a = true /\ s = a +:+ "|" +:+ r.
Proof.
revert a. induction s as [|c s IH]; intros a; cbn [Auth.cut]; [discriminate|].
destruct (Ascii.eqb_spec c "|") as [->|Hne].
- intros [= <- <-]. split; reflexivity.
- destruct (Auth.cut s) as [[a' b]|]; [|discriminate].
  intros [= <- <-]. destruct (IH a' eq_refl) as [Hn ->].
  split; [|reflexivity]. cbn [nobar]. rewrite Hn.
  apply Ascii.eqb_neq in Hne. rewrite Hne. reflexivity.
Qed.

Lemma cut_app (a r : string) :
nobar a = true -> Auth.cut (a +:+ "|" +:+ r) = Some (a, r).
Proof.
induction a as [|c a IH]; cbn [nobar]; intros Hn.
- reflexivity.
- apply andb_true_iff in Hn as [Hc Hn].
  change (String c a +:+ "|" +:+ r) with (String c (a +:+ "|" +:+ r)).
  cbn [Auth.cut]. apply negb_true_iff in Hc. rewrite Hc, (IH Hn). reflexivity.
Qed.

Lemma nobar_pretty_N_go (x : N) (s : string) :
nobar s = true -> nobar (pretty_N_go x s) = true.
Proof.
revert s. induction (N.lt_wf_0 x) as [x _ IH]; intros s Hs.
destruct (decide (x = 0%N)) as [->|Hx]; [rewrite pretty_N_go_0; exact Hs|].
rewrite pretty_N_go_step by lia. apply IH.
- apply N.div_lt; lia.
- cbn [nobar]. rewrite Hs. unfold pretty_N_char.
  repeat case_match; reflexivity.
Qed.

Lemma nobar_pretty_Z (z : Z) : nobar (pretty z) = true.
Proof.
assert (HN : forall n : N, nobar (pretty n) = true).
{ intros n. unfold pretty, pretty_N. destruct (decide (n = 0%N)); [reflexivity|].
  apply nobar_pretty_N_go. reflexivity. }
destruct z as [|p|p]; [reflexivity | apply HN |].
change (pretty (Z.neg p)) with ("-" +:+ pretty (N.pos p)).
cbn [nobar String.append]. apply HN.
Qed.

Lemma append_assoc (a b c : string) : (a +:+ b) +:+ c = a +:+ (b +:+ c).
Proof.
induction a as [|x a IH]; [reflexivity|].
change (String x ((a +:+ b) +:+ c) = String x (a +:+ (b +:+ c))).
rewrite IH. reflexivity.
Qed.

Lemma SplitN3_token (u e sig : string) :
nobar u = true -> nobar e = true ->
Auth.SplitN3 ((u +:+ "|" +:+ e) +:+ "|" +:+ sig) = [u; e; sig].
Proof.
intros Hu He. unfold Auth.SplitN3.
rewrite append_assoc.
change (("|" +:+ e) +:+ "|" +:+ sig) with ("|" +:+ (e +:+ "|" +:+ sig)).
rewrite (cut_app u _ Hu), (cut_app e sig He). reflexivity.
Qed.

Lemma SplitN3_three (v p0 p1 sig : string) :
Auth.SplitN3 v = [p0; p1; sig] ->
v = (p0 +:+ "|" +:+ p1) +:+ "|" +:+ sig /\ nobar p0 = true /\ nobar p1 = true.
Proof.
unfold Auth.SplitN3. destruct (Auth.cut v) as [[a r]|] eqn:Hv; [|discriminate].
destruct (Auth.cut r) as [[b c]|] eqn:Hr; [|discriminate].
intros [= <- <- <-].
destruct (cut_Some _ _ _ Hv) as [Ha ->]. destruct (cut_Some _ _ _ Hr) as [Hb ->].
split; [|split; assumption]. rewrite append_assoc. reflexivity.
Qed.

(** What a cookie must be for [validSession] to accept it. *)
Lemma validSession_sound (a : Auth.Auth) (now : Z) (v : string) :
Auth.validSession hmacHex Sscanf_d a now (Some v) = true ->
exists p1 : string,
  v = (Auth.username a +:+ "|" +:+ p1)
      +:+ "|" +:+ hmacHex (Auth.hmacKey a) (Auth.username a +:+ "|" +:+ p1) /\
  now <= Sscanf_d p1 /\ nobar (Auth.username a) = true.
Proof.
unfold Auth.validSession.
destruct (Auth.SplitN3 v) as [|p0 [|p1 [|sig [|]]]] eqn:Hs; try discriminate.
destruct (SplitN3_three _ _ _ _ Hs) as (Hv & H0 & _).
destruct (bool_decide_reflect (sig = hmacHex (Auth.hmacKey a) (p0 +:+ "|" +:+ p1)))
  as [Hsig|]; [|discriminate].
destruct (bool_decide_reflect (p0 = Auth.username a)) as [Hu|]; [|discriminate].
cbn [negb]. destruct (Z.gtb_spec now (Sscanf_d p1)); [discriminate|].
intros _. exists p1. subst p0 sig. repeat split; assumption || lia.
Qed.

(** A token made by [signSession] for the configured user is accepted
    until its expiry. *)
Lemma signed_token_valid (a : Auth.Auth) (now expires : Z) :
nobar (Auth.username a) = true ->
Sscanf_d (pretty expires) = expires ->
Auth.validSession hmacHex Sscanf_d a now
  (Some (Auth.signSession hmacHex a (Auth.username a) expires))
= bool_decide (now <= expires).
Proof.
intros Hu Hscan. unfold Auth.validSession, Auth.signSession.
rewrite SplitN3_token by (exact Hu || apply nobar_pretty_Z).
rewrite !bool_decide_eq_true_2 by reflexivity. cbn [negb]. rewrite Hscan.
destruct (Z.gtb_spec now expires), (bool_decide_reflect (now <= expires));
  reflexivity || lia.
Qed.

End AuthTokens.

(** X22: session tokens of the gateway. A token that [signSession]
    makes for the configured user is accepted by [validSession] exactly
    until its expiry, provided the user name holds no bar and the scanner
    reads the printed expiry back. Every accepted cookie is the configured
    user name, a bar, an expiry field that scans to a time not yet passed,
    a bar, and the keyed hash of what precedes. When the configured user
    name holds a bar, no cookie at all is accepted. *)
Theorem X22_session_token :
  forall (hmacHex : list byte -> string -> string) (Sscanf_d : string -> Z)
         (a : Auth.Auth) (now : Z),
    (forall expires : Z,
        nobar (Auth.username a) = true ->
        Sscanf_d (pretty expires) = expires ->
        Auth.validSession hmacHex Sscanf_d a now
          (Some (Auth.signSession hmacHex a (Auth.username a) expires))
        = bool_decide (now <= expires)) /\
    (forall v : string,
        Auth.validSession hmacHex Sscanf_d a now (Some v) = true ->
        exists p1 : string,
          v = (Auth.username a +:+ "|" +:+ p1)
              +:+ "|" +:+ hmacHex (Auth.hmacKey a) (Auth.username a +:+ "|" +:+ p1) /\
          now <= Sscanf_d p1) /\
    (nobar (Auth.username a) = false ->
     forall cookie : option string,
       Auth.validSession hmacHex Sscanf_d a now cookie = false).
Proof.
  intros hmacHex Sscanf_d a now. split; [|split].
  - intros expires Hu Hscan. apply signed_token_valid; assumption.
  - intros v Hv.
    destruct (validSession_sound hmacHex Sscanf_d a now v Hv) as (p1 & H1 & H2 & _).
    exists p1. split; assumption.
  - intros Hbar [v|]; [|reflexivity].
    destruct (Auth.validSession hmacHex Sscanf_d a now (Some v)) eqn:Hv; [|reflexivity].
    destruct (validSession_sound hmacHex Sscanf_d a now v Hv) as (_ & _ & _ & Hn).
    congruence.
Qed.

Lemma X22_session_token_witness :
  Auth.validSession toy_hmac scan_decimal auth_admin 1000
    (Some (Auth.signSession toy_hmac auth_admin "admin" 2000))
  = true.
Proof.
  refine (eq_trans
            (proj1 (X22_session_token toy_hmac scan_decimal auth_admin 1000)
               2000 _ _) _).
  - reflexivity.
  - vm_compute. reflexivity.
  - reflexivity.
Defined.



Section WSConnStream.
Import WSConn.

(** The bytes that are still to be read. *)
Lemma Read_conserves (n : nat) (w w' : WSConn) (bytes : list byte) :
Read n w = (w', Ok bytes) ->
bytes ++ buf w' ++ concat (incoming w') = buf w ++ concat (incoming w).
Proof.
unfold Read. destruct w as [[|b bf] inc]; cbn [buf incoming].
- destruct inc as [|msg rest]; [discriminate|].
  intros [= <- <-]. cbn [buf incoming concat app].
  destruct (Nat.ltb_spec n (length msg)).
  + rewrite app_assoc, take_drop. reflexivity.
  + rewrite take_ge by lia. reflexivity.
- intros [= <- <-]. cbn [buf incoming]. rewrite app_assoc, take_drop. reflexivity.
Qed.

Lemma reads_conserves (sizes : list nat) (w : WSConn) :
(reads sizes w).2 ++ buf (reads sizes w).1 ++ concat (incoming (reads sizes w).1)
= buf w ++ concat (incoming w).
Proof.
revert w. induction sizes as [|n sizes IH]; intros w; cbn [reads]; [reflexivity|].
destruct (Read n w) as [w1 [bytes|e]] eqn:Hr.
- specialize (IH w1). destruct (reads sizes w1) as [w2 more]. cbn [fst snd] in *.
  rewrite <- app_assoc, IH. exact (Read_conserves n w w1 bytes Hr).
- unfold Read in Hr. destruct w as [[|b bf] [|msg rest]]; cbn in Hr; try discriminate.
  injection Hr as <- _. reflexivity.
Qed.

Lemma Read_progress (n : nat) (w : WSConn) :
(0 < n)%nat -> (0 < pending w)%nat ->
exists w' bytes, Read n w = (w', Ok bytes) /\ (pending w' < pending w)%nat.
Proof.
intros Hn Hp. unfold Read, pending in *. destruct w as [[|b bf] inc]; cbn [buf incoming] in *.
- destruct inc as [|msg rest]; [cbn in Hp; lia|].
  eexists _, _. split; [reflexivity|]. cbn [buf incoming concat length].
  rewrite length_app. destruct (Nat.ltb_spec n (length msg)).
  + rewrite length_drop. cbn. lia.
  + cbn. lia.
- eexists _, _. split; [reflexivity|]. cbn [buf incoming].
  rewrite length_drop. cbn [length]. lia.
Qed.

Lemma reads_drains (sizes : list nat) (w : WSConn) :
Forall (fun n => 0 < n)%nat sizes -> (pending w <= length sizes)%nat ->
pending (reads sizes w).1 = 0%nat.
Proof.
revert w. induction sizes as [|n sizes IH]; intros w Hpos Hlen; cbn [reads].
- cbn in Hlen. cbn [fst]. lia.
- apply Forall_cons in Hpos as [Hn Hpos].
  destruct (decide (pending w = 0)%nat) as [H0|Hne].
  + unfold pending in H0. destruct w as [[|b bf] [|msg rest]]; cbn in H0; try lia.
    reflexivity.
  + destruct (Read_progress n w Hn) as (w1 & bytes & Hr & Hlt); [lia|].
    rewrite Hr. specialize (IH w1 Hpos). destruct (reads sizes w1) as [w2 more].
    cbn [fst] in *. apply IH. cbn [length] in Hlen. lia.
Qed.

End WSConnStream.

(** X24: the WebSocket adapter is a faithful byte stream. Whatever the
    sizes of the read buffers, the bytes returned by successive reads,
    followed by the adapter's leftover and the messages not yet received,
    are the leftover and the messages it started with, in order: nothing
    is lost, duplicated or reordered across message boundaries. When the
    buffers are not empty, one read per pending byte and message is enough
    to return everything, so the chunks one side writes arrive as the same
    byte sequence on the other. *)
Theorem X24_wsconn_byte_stream :
  forall (sizes : list nat) (w : WSConn.WSConn),
    let r := WSConn.reads sizes w in
    r.2 ++ WSConn.buf r.1 ++ concat (WSConn.incoming r.1)
    = WSConn.buf w ++ concat (WSConn.incoming w) /\
    (Forall (fun n => 0 < n)%nat sizes ->
     (length (WSConn.buf w) + length (concat (WSConn.incoming w))
      + length (WSConn.incoming w) <= length sizes)%nat ->
     r.2 = WSConn.buf w ++ concat (WSConn.incoming w)).
Proof.
  intros sizes w r. pose proof (reads_conserves sizes w) as Hc. fold r in Hc.
  split; [exact Hc|]. intros Hpos Hlen.
  pose proof (reads_drains sizes w Hpos Hlen) as Hd. fold r in Hd.
  unfold pending in Hd.
  assert (Hb : WSConn.buf r.1 = []) by (apply length_zero_iff_nil; lia).
  assert (Hi : WSConn.incoming r.1 = []) by (apply length_zero_iff_nil; lia).
  rewrite Hb, Hi in Hc. cbn in Hc. rewrite app_nil_r in Hc. exact Hc.
Qed.

Lemma X24_wsconn_byte_stream_witness :
  (WSConn.reads [2; 2; 2; 2; 2; 2; 2]%nat
     (WSConn.mkWSConn []
        (WSConn.Write [x64; x65] (WSConn.Write [x61; x62; x63] [])))).2
  = [x61; x62; x63; x64; x65].
Proof.
  refine (proj2 (X24_wsconn_byte_stream [2; 2; 2; 2; 2; 2; 2]%nat
                   (WSConn.mkWSConn []
                      (WSConn.Write [x64; x65] (WSConn.Write [x61; x62; x63] []))))
            _ _).
  - repeat constructor.
  - vm_compute. repeat constructor.
Defined.

Section TunnelEndpoint.
Import TunnelHandler.

Lemma closeSession_lookup (p s : positive) (t : Tunnel) (y : Gateway.yamuxSession) :
yamux t !! s = Some y ->
exists y', yamux (closeSession p t) !! s = Some y' /\
           (Gateway.isClosed y = true -> Gateway.isClosed y' = true).
Proof.
intros Hy. unfold closeSession. cbn [yamux]. rewrite lookup_alter.
destruct (decide (p = s)) as [->|Hne].
- rewrite Hy. eexists. split; [reflexivity|]. intros _. reflexivity.
- exists y. split; [exact Hy | exact (fun H => H)].
Qed.

(** One handler changes its place and the tunnel: what is needed for the
    invariant to survive. *)
Lemma tunnel_inv_update (hs : list pc) (i : nat) (p p' : pc) (t t' : Tunnel) :
hs !! i = Some p ->
(forall s y, yamux t !! s = Some y ->
   exists y', yamux t' !! s = Some y' /\
              (Gateway.isClosed y = true -> Gateway.isClosed y' = true)) ->
(session t' = session t \/ session t' = None \/
 exists s, session t' = Some s /\ p' = Blocked s) ->
(forall s, session t' = Some s -> p = Blocked s \/ p = Clearing s ->
           p' = Blocked s \/ p' = Clearing s) ->
(forall s, p' = Clearing s ->
           p = Clearing s \/
           exists y, yamux t' !! s = Some y /\ Gateway.isClosed y = true) ->
tunnel_inv (hs, t) -> tunnel_inv (<[i := p']> hs, t').
Proof.
intros Hi Hy Hs Hown Hclr (I1 & I2). cbn [fst snd] in I1, I2.
pose proof (lookup_lt_Some _ _ _ Hi) as Hlt.
split; cbn [fst snd].
- intros s Hs'. destruct Hs as [Hsame|[Hnone|(s0 & Hs0 & Hp')]].
  + rewrite Hsame in Hs'. destruct (I1 s Hs') as (j & Hj).
    destruct (decide (i = j)) as [<-|Hne].
    * exists i. rewrite list_lookup_insert_eq by exact Hlt.
      rewrite Hi in Hj. rewrite <- Hsame in Hs'.
      destruct (Hown s Hs') as [->| ->]; [|left|right]; try reflexivity.
      destruct Hj as [[= ->]|[= ->]]; [left | right]; reflexivity.
    * exists j. rewrite list_lookup_insert_ne by exact Hne. exact Hj.
  + congruence.
  + rewrite Hs0 in Hs'. injection Hs' as <-. exists i.
    rewrite list_lookup_insert_eq by exact Hlt. left. rewrite Hp'. reflexivity.
- intros k s Hk. apply list_lookup_insert_Some in Hk as [(<- & Hp' & _)|(Hne & Hk)].
  + destruct (Hclr s Hp') as [Hp|Hdone]; [|exact Hdone].
    subst p. destruct (I2 i s Hi) as (y & Hy0 & Hc).
    destruct (Hy s y Hy0) as (y' & Hy' & Hmono). exists y'. split; [exact Hy'|].
    apply Hmono, Hc.
  + destruct (I2 k s Hk) as (y & Hy0 & Hc).
    destruct (Hy s y Hy0) as (y' & Hy' & Hmono). exists y'. split; [exact Hy'|].
    apply Hmono, Hc.
Qed.

Lemma handlerStep_inv (hs : list pc) (i : nat) (ok : bool) (p : pc) (t : Tunnel) :
hs !! i = Some p ->
tunnel_inv (hs, t) ->
tunnel_inv (<[i := (handlerStep ok p t).1]> hs, (handlerStep ok p t).2).
Proof.
intros Hi Hinv.
assert (Hkeep : forall s y, yamux t !! s = Some y ->
          exists y', yamux t !! s = Some y' /\
                     (Gateway.isClosed y = true -> Gateway.isClosed y' = true)).
{ intros s y Hy. exists y. split; [exact Hy | exact (fun H => H)]. }
destruct p as [header| | | |s|s|s|status]; cbn [handlerStep].
- destruct (decide (header = secret t)); cbn [fst snd];
    (eapply (tunnel_inv_update hs i _ _ t); [exact Hi | exact Hkeep | left; reflexivity | | | exact Hinv]);
    intros s0; try discriminate; intros _ [H|H]; discriminate H.
- destruct ok; cbn [fst snd];
    (eapply (tunnel_inv_update hs i _ _ t); [exact Hi | exact Hkeep | left; reflexivity | | | exact Hinv]);
    intros s0; try discriminate; intros _ [H|H]; discriminate H.
- destruct (session t) as [old|] eqn:Hs; cbn [fst snd].
  + eapply (tunnel_inv_update hs i _ _ t); [exact Hi | | left; reflexivity | | | exact Hinv].
    * intros s0 y Hy. apply closeSession_lookup. exact Hy.
    * intros s0 _ [H|H]; discriminate H.
    * intros s0; discriminate.
  + eapply (tunnel_inv_update hs i _ _ t); [exact Hi | exact Hkeep | left; reflexivity | | | exact Hinv].
    * intros s0 _ [H|H]; discriminate H.
    * intros s0; discriminate.
- destruct ok; cbn [fst snd].
  + eapply (tunnel_inv_update hs i _ _ t); [exact Hi | | left; reflexivity | | | exact Hinv].
    * intros s0 y Hy. cbn [yamux]. exists y. split; [|exact (fun H => H)].
      rewrite lookup_insert_ne; [exact Hy|]. intros Heq.
      pose proof (is_fresh (dom (yamux t))) as Hf. rewrite Heq in Hf.
      apply Hf. apply elem_of_dom. eauto.
    * intros s0 _ [H|H]; discriminate H.
    * intros s0; discriminate.
  + eapply (tunnel_inv_update hs i _ _ t); [exact Hi | exact Hkeep | left; reflexivity | | | exact Hinv].
    * intros s0 _ [H|H]; discriminate H.
    * intros s0; discriminate.
- cbn [fst snd].
  eapply (tunnel_inv_update hs i _ _ t); [exact Hi | exact Hkeep | | | | exact Hinv].
  + right. right. exists s. split; reflexivity.
  + intros s0 _ [H|H]; discriminate H.
  + intros s0; discriminate.
- destruct (yamux t !! s) as [y|] eqn:Hy; [destruct (Gateway.isClosed y) eqn:Hc|];
    cbn [fst snd].
  + eapply (tunnel_inv_update hs i _ _ t); [exact Hi | exact Hkeep | left; reflexivity | | | exact Hinv].
    * intros s0 _ [[= ->]|H]; [right; reflexivity | discriminate H].
    * intros s0 [= ->]. right. exists y. split; assumption.
  + eapply (tunnel_inv_update hs i _ _ t); [exact Hi | exact Hkeep | left; reflexivity | | | exact Hinv].
    * intros s0 _ H. exact H.
    * intros s0; discriminate.
  + eapply (tunnel_inv_update hs i _ _ t); [exact Hi | exact Hkeep | left; reflexivity | | | exact Hinv].
    * intros s0 _ H. exact H.
    * intros s0; discriminate.
- destruct (decide (session t = Some s)) as [Hs|Hs]; cbn [fst snd].
  + eapply (tunnel_inv_update hs i _ _ t); [exact Hi | exact Hkeep | right; left; reflexivity | | | exact Hinv].
    * intros s0; discriminate.
    * intros s0; discriminate.
  + eapply (tunnel_inv_update hs i _ _ t); [exact Hi | exact Hkeep | left; reflexivity | | | exact Hinv].
    * intros s0 Hs0 [H|[= ->]]; [discriminate H | contradiction].
    * intros s0; discriminate.
- cbn [fst snd].
  eapply (tunnel_inv_update hs i _ _ t); [exact Hi | exact Hkeep | left; reflexivity | | | exact Hinv].
  + intros s0 _ [H|H]; discriminate H.
  + intros s0; discriminate.
Qed.

Lemma step_tunnel_inv (l : label) (st : list pc * Tunnel) :
tunnel_inv st -> tunnel_inv (step l st).
Proof.
destruct st as [hs t]. destruct l as [header|i ok|s]; cbn [step].
- intros (I1 & I2). cbn [fst snd] in *. split; cbn [fst snd].
  + intros s Hs. destruct (I1 s Hs) as (i & [Hi|Hi]); exists i;
      [left | right]; apply lookup_app_l_Some; exact Hi.
  + intros i s Hi. apply lookup_app_Some in Hi as [Hi|[_ Hi]]; [exact (I2 i s Hi)|].
    destruct (i - length hs)%nat as [|n]; cbn in Hi; [discriminate Hi|].
    destruct n; discriminate Hi.
- destruct (hs !! i) as [p|] eqn:Hi; [|exact (fun H => H)].
  intros Hinv. pose proof (handlerStep_inv hs i ok p t Hi Hinv) as H.
  destruct (handlerStep ok p t). exact H.
- intros (I1 & I2). cbn [fst snd] in *. split; cbn [fst snd].
  + exact I1.
  + intros i s0 Hi. destruct (I2 i s0 Hi) as (y & Hy & Hc).
    destruct (closeSession_lookup s s0 t y Hy) as (y' & Hy' & Hm).
    exists y'. split; [exact Hy' | apply Hm, Hc].
Qed.

Lemma run_tunnel_inv (ls : list label) (st : list pc * Tunnel) :
tunnel_inv st -> tunnel_inv (run ls st).
Proof.
revert st. induction ls as [|l ls IH]; intros st Hinv; [exact Hinv|].
apply IH, step_tunnel_inv, Hinv.
Qed.

End TunnelEndpoint.

(** X25: the tunnel endpoint under concurrent connections. From the
    start of the gateway, whatever the interleaving of connecting peers,
    handler steps and sessions that end: whenever the tunnel is connected,
    the handler that installed the current session is still blocked on it.
    And a reconnecting peer takes over safely: when its handler closes the
    old session, installs a new one and the old handler then wakes up, the
    old handler returns without clearing the tunnel, which stays connected
    on the new session. *)
Theorem X25_tunnel_replacement :
  (forall (secret : string) (ls : list TunnelHandler.label),
      let st := TunnelHandler.run ls ([], TunnelHandler.NewTunnel secret) in
      Gateway.Connected (TunnelHandler.view st.2) = true ->
      exists (i : nat) (s : positive),
        TunnelHandler.session st.2 = Some s /\
        st.1 !! i = Some (TunnelHandler.Blocked s)) /\
  (forall (hs : list TunnelHandler.pc) (t : TunnelHandler.Tunnel)
          (iA iB : nat) (a : positive) (ya : Gateway.yamuxSession),
      hs !! iA = Some (TunnelHandler.Blocked a) ->
      hs !! iB = Some TunnelHandler.ClosingOld ->
      TunnelHandler.session t = Some a ->
      TunnelHandler.yamux t !! a = Some ya ->
      let b := fresh (dom (TunnelHandler.yamux t)) in
      let st := TunnelHandler.run
                  [TunnelHandler.LStep iB true; TunnelHandler.LStep iB true;
                   TunnelHandler.LStep iB true; TunnelHandler.LStep iA true;
                   TunnelHandler.LStep iA true] (hs, t) in
      st.1 !! iA = Some (TunnelHandler.Returned None) /\
      st.1 !! iB = Some (TunnelHandler.Blocked b) /\
      TunnelHandler.session st.2 = Some b /\
      Gateway.Connected (TunnelHandler.view st.2) = true /\
      exists ya', TunnelHandler.yamux st.2 !! a = Some ya' /\
                  Gateway.isClosed ya' = true).
Proof.
  split.
  - intros secret ls st Hc.
    assert (Hinv : tunnel_inv st).
    { apply run_tunnel_inv. split; cbn.
      - intros s H. discriminate H.
      - intros i s H. rewrite lookup_nil in H. discriminate H. }
    destruct Hinv as (I1 & I2). unfold Gateway.Connected, TunnelHandler.view in Hc.
    cbn [Gateway.session] in Hc.
    destruct (TunnelHandler.session st.2) as [s|] eqn:Hs; [|discriminate Hc].
    cbn in Hc. destruct (TunnelHandler.yamux st.2 !! s) as [y|] eqn:Hy; [|discriminate Hc].
    destruct (I1 s eq_refl) as (i & [Hi|Hi]).
    + exists i, s. split; [reflexivity | exact Hi].
    + destruct (I2 i s Hi) as (y' & Hy' & Hcl). rewrite Hy in Hy'.
      injection Hy' as <-. rewrite Hcl in Hc. discriminate Hc.
  - intros hs t iA iB a ya HA HB Hs Ha b st.
    assert (Hne : iA <> iB) by (intros ->; congruence).
    pose proof (lookup_lt_Some _ _ _ HA) as HltA.
    pose proof (lookup_lt_Some _ _ _ HB) as HltB.
    assert (Hba : b <> a).
    { intros Heq. pose proof (is_fresh (dom (TunnelHandler.yamux t))) as Hf.
      fold b in Hf. rewrite Heq in Hf. apply Hf, elem_of_dom. eauto. }
    set (t1 := TunnelHandler.closeSession a t).
    set (hs1 := <[iB := TunnelHandler.StartingYamux]> hs).
    set (t2 := TunnelHandler.mkTunnel (TunnelHandler.secret t1)
                 (<[b := Gateway.mkYamux false 0]> (TunnelHandler.yamux t1))
                 (TunnelHandler.session t1)).
    set (hs2 := <[iB := TunnelHandler.Installing b]> hs1).
    set (t3 := TunnelHandler.mkTunnel (TunnelHandler.secret t2)
                 (TunnelHandler.yamux t2) (Some b)).
    set (hs3 := <[iB := TunnelHandler.Blocked b]> hs2).
    set (hs4 := <[iA := TunnelHandler.Clearing a]> hs3).
    set (hs5 := <[iA := TunnelHandler.Returned None]> hs4).
    assert (Hlen1 : length hs1 = length hs) by apply length_insert.
    assert (Hlen2 : length hs2 = length hs)
      by (unfold hs2; rewrite length_insert; exact Hlen1).
    assert (Hlen3 : length hs3 = length hs)
      by (unfold hs3; rewrite length_insert; exact Hlen2).
    assert (Hlen4 : length hs4 = length hs)
      by (unfold hs4; rewrite length_insert; exact Hlen3).
    assert (H1 : TunnelHandler.step (TunnelHandler.LStep iB true) (hs, t) = (hs1, t1)).
    { cbn [TunnelHandler.step]. rewrite HB. cbn [TunnelHandler.handlerStep].
      rewrite Hs. reflexivity. }
    assert (H2 : TunnelHandler.step (TunnelHandler.LStep iB true) (hs1, t1) = (hs2, t2)).
    { cbn [TunnelHandler.step]. unfold hs1 at 1.
      rewrite list_lookup_insert_eq by exact HltB. cbn [TunnelHandler.handlerStep].
      unfold hs2, t2, t1, TunnelHandler.closeSession. cbn [TunnelHandler.yamux].
      rewrite dom_alter_L. reflexivity. }
    assert (H3 : TunnelHandler.step (TunnelHandler.LStep iB true) (hs2, t2) = (hs3, t3)).
    { cbn [TunnelHandler.step]. unfold hs2 at 1.
      rewrite list_lookup_insert_eq by (rewrite Hlen1; exact HltB). reflexivity. }
    assert (Hya : TunnelHandler.yamux t3 !! a
                  = Some (Gateway.mkYamux true (Gateway.opened ya))).
    { unfold t3, t2, t1, TunnelHandler.closeSession. cbn [TunnelHandler.yamux].
      rewrite lookup_insert_ne by exact Hba. rewrite lookup_alter_eq, Ha. reflexivity. }
    assert (HA3 : hs3 !! iA = Some (TunnelHandler.Blocked a)).
    { unfold hs3, hs2, hs1. rewrite !list_lookup_insert_ne by congruence. exact HA. }
    assert (H4 : TunnelHandler.step (TunnelHandler.LStep iA true) (hs3, t3) = (hs4, t3)).
    { cbn [TunnelHandler.step]. rewrite HA3. cbn [TunnelHandler.handlerStep].
      rewrite Hya. reflexivity. }
    assert (H5 : TunnelHandler.step (TunnelHandler.LStep iA true) (hs4, t3) = (hs5, t3)).
    { cbn [TunnelHandler.step]. unfold hs4 at 1.
      rewrite list_lookup_insert_eq by (rewrite Hlen3; exact HltA).
      cbn [TunnelHandler.handlerStep]. unfold t3 at 1. cbn [TunnelHandler.session].
      destruct (decide (Some b = Some a)) as [Heq|_]; [congruence | reflexivity]. }
    assert (Hst : st = (hs5, t3)).
    { unfold st, TunnelHandler.run. cbn [foldl]. rewrite H1, H2, H3, H4, H5.
      reflexivity. }
    rewrite Hst. cbn [fst snd].
    split; [unfold hs5; apply list_lookup_insert_eq; rewrite Hlen4; exact HltA|].
    split.
    { unfold hs5, hs4. rewrite !list_lookup_insert_ne by exact Hne.
      unfold hs3. apply list_lookup_insert_eq. rewrite Hlen2. exact HltB. }
    split; [reflexivity|]. split.
    + unfold Gateway.Connected, TunnelHandler.view, t3, t2. cbn.
      rewrite lookup_insert_eq. reflexivity.
    + eexists. split; [exact Hya | reflexivity].
Qed.

Lemma X25_tunnel_replacement_witness :
  Gateway.Connected
    (TunnelHandler.view
       (TunnelHandler.run
          [TunnelHandler.LStep 1 true; TunnelHandler.LStep 1 true;
           TunnelHandler.LStep 1 true; TunnelHandler.LStep 0 true;
           TunnelHandler.LStep 0 true]
          ([TunnelHandler.Blocked 1; TunnelHandler.ClosingOld],
           TunnelHandler.mkTunnel "s" {[1%positive := Gateway.mkYamux false 0]}
             (Some 1%positive))).2)
  = true.
Proof.
  apply (proj2 X25_tunnel_replacement
           [TunnelHandler.Blocked 1; TunnelHandler.ClosingOld]
           (TunnelHandler.mkTunnel "s" {[1%positive := Gateway.mkYamux false 0]}
              (Some 1%positive))
           0%nat 1%nat 1%positive (Gateway.mkYamux false 0)).
  - reflexivity.
  - reflexivity.
  - reflexivity.
  - vm_compute. reflexivity.
Defined.

Section SessionsApi.
Context {W H : Type} `{!SessionHandle W H} `{!SessionManager W H}.
Variable os : OS.

(** After the checks, the outcome is that of [Start]. *)
Lemma HandleCreate_checked (out : Api.outside) (body : Api.createBody)
  (a : Api.App W) (repo : Api.repository) (path : string) :
create_checks out body a repo path ->
Api.HandleCreate os out body a
= let wt := (Api.local_path repo, path) in
  let br := (Api.local_path repo, Api.new_branch body) in
  match Start os (Api.newID out) (Api.body_cli_type body) path (Api.manager a) with
  | (m, Err e) =>
      (Api.mkApp m (Api.repositories a) (Api.sessions a)
         (Api.worktrees a ∖ {[wt]}) ({[br]} ∪ Api.branches a),
       Api.WriteErrorOf 500 "start session: " e)
  | (m, Ok (_, child)) =>
      (Api.insertSession (Api.newID out) (running_row body path child)
         (Api.mkApp m (Api.repositories a) (Api.sessions a)
            ({[wt]} ∪ Api.worktrees a) ({[br]} ∪ Api.branches a)),
       Api.Created (Api.newID out) (running_row body path child))
  end.
Proof.
intros (Hd & Hc & Hs & Hn & Hr & Hready & Hp & Hadd & _).
unfold Api.HandleCreate. rewrite Hd. cbn [negb].
rewrite (bool_decide_eq_true_2 _ Hc). cbn [negb].
rewrite (bool_decide_eq_false_2 _ Hs), (bool_decide_eq_false_2 _ Hn).
rewrite Hr, (bool_decide_eq_true_2 _ Hready). cbn [negb]. rewrite Hp, Hadd.
reflexivity.
Qed.

(** A request that is refused with a fixed message has changed nothing. *)
Lemma HandleCreate_refused (out : Api.outside) (body : Api.createBody)
  (a : Api.App W) (code : Z) (msg : string) :
(Api.HandleCreate os out body a).2 = Api.WriteError code msg ->
(Api.HandleCreate os out body a).1 = a.
Proof.
unfold Api.HandleCreate.
repeat match goal with
       | |- context [if ?b then _ else _] => destruct b; [intros _; reflexivity|]
       end.
destruct (Api.repositories a !! Api.body_repo_id body) as [repo|];
  [|intros _; reflexivity].
destruct (negb _); [intros _; reflexivity|].
destruct (Api.worktreePath out) as [path|e]; [|discriminate].
destruct (Api.addWorktree out); [discriminate|].
destruct (Start os _ _ _ _) as [m [[h child]|e]]; discriminate.
Qed.

End SessionsApi.

(** X26: creating a session over HTTP, on both backends (on the
    supervisor client, over a healthy connection). For a request that
    passes every check, the reply follows the spawn: when the command
    starts, the reply is 201 with a row that is running and carries the
    child's pid, the worktree exists, the row is in the table unless the id
    was taken, and the WebSocket endpoint then finds the session instead
    of answering 404; when it does not start, the reply is a 500, the
    worktree has been removed again and the table is unchanged. A request
    refused with a fixed message changes nothing at all. *)
Theorem X26_create_session :
  forall (os : OS) (out : Api.outside) (body : Api.createBody)
         (repo : Api.repository) (path : string),
    let id := Api.newID out in
    let wt := (Api.local_path repo, path) in
    (forall a : Api.App Pty.Manager,
        create_checks out body a repo path ->
        let r := @Api.HandleCreate Pty.Manager positive _ os out body a in
        match startWithSize os (Api.body_cli_type body) path with
        | Ok child =>
            r.2 = Api.Created id (running_row body path child) /\
            wt ∈ Api.worktrees r.1 /\
            (Api.sessions a !! id = None ->
             Api.sessions r.1 !! id = Some (running_row body path child)) /\
            exists h : positive,
              @Ws.attach Pty.Manager positive _ id (Api.manager r.1) = inl h
        | Err e =>
            r.2 = Api.WriteErrorOf 500 "start session: " e /\
            (wt ∉ Api.worktrees r.1) /\ Api.sessions r.1 = Api.sessions a /\
            Api.manager r.1 = Api.manager a
        end) /\
    (forall a : Api.App Client.World,
        create_checks out body a repo path ->
        link_ok (Api.manager a) ->
        let r := @Api.HandleCreate Client.World Client.ProxySession _ os out body a in
        match startWithSize os (Api.body_cli_type body) path with
        | Ok child =>
            r.2 = Api.Created id (running_row body path child) /\
            wt ∈ Api.worktrees r.1 /\
            (Api.sessions a !! id = None ->
             Api.sessions r.1 !! id = Some (running_row body path child)) /\
            exists h : Client.ProxySession,
              @Ws.attach Client.World Client.ProxySession _ id (Api.manager r.1) = inl h
        | Err e =>
            (exists msg, r.2 = Api.WriteErrorOf 500 "start session: " (ErrShepherd msg)) /\
            (wt ∉ Api.worktrees r.1) /\ Api.sessions r.1 = Api.sessions a /\
            @Ws.attach Client.World Client.ProxySession _ id (Api.manager r.1) = inr 404
        end) /\
    (forall (W H : Type) (mgr : SessionManager W H) (a : Api.App W) (code : Z)
            (msg : string),
        (@Api.HandleCreate W H mgr os out body a).2 = Api.WriteError code msg ->
        (@Api.HandleCreate W H mgr os out body a).1 = a).
Proof.
  intros os out body repo path id wt. subst id wt. split; [|split].
  - intros a Hchk r. unfold r. rewrite (HandleCreate_checked os out body a repo path Hchk).
    destruct Hchk as (_ & _ & _ & _ & _ & _ & _ & _ & Hid).
    cbv zeta. cbn [Start Pty.Manager_SessionManager]. unfold Pty.Manager_Start.
    destruct (startWithSize os (Api.body_cli_type body) path) as [child|e].
    + cbn [fst snd]. split; [reflexivity|]. split; [|split].
      * unfold Api.insertSession. cbn [Api.sessions Api.worktrees].
        destruct (Api.sessions a !! Api.newID out); cbn [Api.worktrees];
          apply elem_of_union_l, elem_of_singleton; reflexivity.
      * intros Hnone. unfold Api.insertSession. cbn [Api.sessions]. rewrite Hnone.
        cbn [Api.sessions]. apply lookup_insert_eq.
      * eexists. unfold Ws.attach.
        destruct (decide (Api.newID out = ""%string)) as [He|_]; [contradiction|].
        cbn [Get Pty.Manager_SessionManager]. unfold Pty.Manager_Get, Api.insertSession.
        cbn [Api.sessions].
        destruct (Api.sessions a !! Api.newID out); cbn [Api.manager Pty.sessions
          Pty.set_sessions Pty.set_objs]; rewrite lookup_insert_eq; reflexivity.
    + cbn [fst snd Api.worktrees Api.sessions Api.manager].
      split; [reflexivity|]. split; [|split; reflexivity].
      intros Hin. apply elem_of_difference in Hin as [_ Hn]. apply Hn.
      apply elem_of_singleton. reflexivity.
  - intros a Hchk Hok r. unfold r.
    rewrite (HandleCreate_checked os out body a repo path Hchk).
    destruct Hchk as (_ & _ & _ & _ & _ & _ & _ & _ & Hid).
    cbv zeta. cbn [Start Client.Client_SessionManager].
    pose proof (Client_Start_result os (Api.newID out) (Api.body_cli_type body) path
                  (Api.manager a) Hok) as (_ & Hres).
    destruct (Client.Client_Start os (Api.newID out) (Api.body_cli_type body) path
                (Api.manager a)) as [m res]. cbn [fst snd] in Hres.
    destruct (startWithSize os (Api.body_cli_type body) path) as [child|e].
    + destruct Hres as [-> Hget]. cbn [fst snd]. split; [reflexivity|].
      split; [|split].
      * unfold Api.insertSession. cbn [Api.sessions Api.worktrees].
        destruct (Api.sessions a !! Api.newID out); cbn [Api.worktrees];
          apply elem_of_union_l, elem_of_singleton; reflexivity.
      * intros Hnone. unfold Api.insertSession. cbn [Api.sessions]. rewrite Hnone.
        cbn [Api.sessions]. apply lookup_insert_eq.
      * exists (Api.newID out). unfold Ws.attach.
        destruct (decide (Api.newID out = ""%string)) as [He|_]; [contradiction|].
        cbn [Get Client.Client_SessionManager]. unfold Api.insertSession.
        cbn [Api.sessions].
        destruct (Api.sessions a !! Api.newID out); cbn [Api.manager];
          rewrite Hget; reflexivity.
    + destruct Hres as [-> Hget]. cbn [fst snd Api.worktrees Api.sessions Api.manager].
      split; [eexists; reflexivity|]. split; [|split; [reflexivity|]].
      * intros Hin. apply elem_of_difference in Hin as [_ Hn]. apply Hn.
        apply elem_of_singleton. reflexivity.
      * unfold Ws.attach.
        destruct (decide (Api.newID out = ""%string)) as [He|_]; [contradiction|].
        cbn [Get Client.Client_SessionManager]. rewrite Hget. reflexivity.
  - intros W H mgr a code msg. apply HandleCreate_refused.
Qed.

Lemma X26_create_session_witness :
  (@Api.HandleCreate Pty.Manager positive _ os_ok outside_abc create_abc
     (app_empty Pty.NewManager)).2
  = Api.Created "abc" (running_row create_abc "/wt/abc" 42).
Proof.
  refine (proj1 (proj1 (X26_create_session os_ok outside_abc create_abc
                          (Api.mkRepository "/repos/a.git" "ready") "/wt/abc")
                   (app_empty Pty.NewManager) _)).
  unfold create_checks. repeat split; try reflexivity; try discriminate.
  apply list_elem_of_here.
Defined.

(** X27: deleting a session over HTTP, on both backends (on the
    supervisor client, over a healthy connection). When the row exists and
    [delete_local] is absent or a boolean, the reply is 204, the row is
    gone, the session is stopped and the manager no longer knows it, so
    the WebSocket endpoint answers 404; the worktree and the branch of the
    session are removed unless [delete_local] is false, in which case both
    are kept. Without a row the reply is 404, with a [delete_local] that is
    not a boolean it is 400, and nothing is changed. *)
Theorem X27_delete_session :
  forall (os : OS) (id raw : string),
    id <> ""%string ->
    let parsed := if bool_decide (raw = ""%string) then Some true
                  else Api.ParseBool raw in
    let removed {W : Type} (a : Api.App W) (row : Api.sessionRow) (r : Api.App W) :=
      match parsed with
      | Some true =>
          forall repo : Api.repository,
            Api.repositories a !! Api.repo_id row = Some repo ->
            Api.local_path repo <> ""%string ->
            (Api.worktree_path row <> ""%string ->
             (Api.local_path repo, Api.worktree_path row) ∉ Api.worktrees r) /\
            (Api.branch row <> ""%string ->
             (Api.local_path repo, Api.branch row) ∉ Api.branches r)
      | _ => Api.worktrees r = Api.worktrees a /\ Api.branches r = Api.branches a
      end in
    (forall (a : Api.App Pty.Manager) (row : Api.sessionRow),
        Api.sessions a !! id = Some row -> is_Some parsed ->
        let r := @Api.HandleDelete Pty.Manager positive _ os id raw a in
        r.2 = Api.NoContent /\
        Api.sessions r.1 = delete id (Api.sessions a) /\
        Api.manager r.1 = (Pty.Manager_Stop id (Api.manager a)).1 /\
        @Ws.attach Pty.Manager positive _ id (Api.manager r.1) = inr 404 /\
        removed a row r.1) /\
    (forall (a : Api.App Client.World) (row : Api.sessionRow),
        Api.sessions a !! id = Some row -> is_Some parsed ->
        link_ok (Api.manager a) ->
        let r := @Api.HandleDelete Client.World Client.ProxySession _ os id raw a in
        r.2 = Api.NoContent /\
        Api.sessions r.1 = delete id (Api.sessions a) /\
        Shepherd.sessions (Client.shepherd (Api.manager r.1)) !! id = None /\
        @Ws.attach Client.World Client.ProxySession _ id (Api.manager r.1) = inr 404 /\
        removed a row r.1) /\
    (forall (W H : Type) (mgr : SessionManager W H) (a : Api.App W),
        let r := @Api.HandleDelete W H mgr os id raw a in
        (parsed = None ->
         r = (a, Api.WriteError 400 "delete_local must be true or false")) /\
        (is_Some parsed -> Api.sessions a !! id = None ->
         r = (a, Api.WriteError 404 "session not found"))).
Proof.
  intros os id raw Hid parsed removed.
  assert (Hrem : forall (W : Type) (a : Api.App W) (row : Api.sessionRow) (m : W)
                        (dl : bool),
             parsed = Some dl ->
             let localPath := match Api.repositories a !! Api.repo_id row with
                              | Some repo => Api.local_path repo
                              | None => ""%string
                              end in
             let clean := dl && negb (bool_decide (localPath = ""%string)) in
             removed W a row
               (Api.mkApp m (Api.repositories a) (delete id (Api.sessions a))
                  (if clean && negb (bool_decide (Api.worktree_path row = ""%string))
                   then Api.worktrees a ∖ {[(localPath, Api.worktree_path row)]}
                   else Api.worktrees a)
                  (if clean && negb (bool_decide (Api.branch row = ""%string))
                   then Api.branches a ∖ {[(localPath, Api.branch row)]}
                   else Api.branches a))).
  { intros W a row m dl Hp localPath clean. unfold removed. rewrite Hp.
    destruct dl; cbn [Api.worktrees Api.branches]; [|split; reflexivity].
    intros repo Hrepo Hlp. subst clean localPath. rewrite Hrepo.
    rewrite (bool_decide_eq_false_2 _ Hlp). cbn [andb negb]. split.
    - intros Hw. rewrite (bool_decide_eq_false_2 _ Hw). cbn [negb].
      intros Hin. apply elem_of_difference in Hin as [_ Hn]. apply Hn.
      apply elem_of_singleton. reflexivity.
    - intros Hb. rewrite (bool_decide_eq_false_2 _ Hb). cbn [negb].
      intros Hin. apply elem_of_difference in Hin as [_ Hn]. apply Hn.
      apply elem_of_singleton. reflexivity. }
  split; [|split].
  - intros a row Hrow [dl Hp] r. unfold r, Api.HandleDelete. fold parsed.
    rewrite Hp, Hrow. cbn [fst snd Api.sessions Api.manager].
    split; [reflexivity|]. split; [reflexivity|]. split; [reflexivity|]. split.
    + unfold Ws.attach. destruct (decide (id = ""%string)); [contradiction|].
      cbn [Stop Get Pty.Manager_SessionManager]. unfold Pty.Manager_Get.
      pose proof (Manager_Stop_dom id (Api.manager a)) as Hdom.
      destruct (Pty.sessions (Pty.Manager_Stop id (Api.manager a)).1 !! id) eqn:Hl;
        [|reflexivity].
      exfalso. assert (Hin : id ∈ dom (Pty.sessions (Pty.Manager_Stop id (Api.manager a)).1))
        by (apply elem_of_dom; eauto).
      rewrite Hdom in Hin. apply elem_of_difference in Hin as [_ Hn]. apply Hn.
      apply elem_of_singleton. reflexivity.
    + apply (Hrem Pty.Manager a row _ dl Hp).
  - intros a row Hrow [dl Hp] Hok r. unfold r, Api.HandleDelete. fold parsed.
    rewrite Hp, Hrow. cbn [fst snd Api.sessions Api.manager].
    destruct (Client_Stop_result os id (Api.manager a) Hok) as (_ & Hsh & _ & Hd & _).
    cbn [Stop Client.Client_SessionManager].
    split; [reflexivity|]. split; [reflexivity|]. split; [|split].
    + rewrite Hsh.
      apply (handleStop_sessions _ (Protocol.mkRequest _ Protocol.cmdStop id "" "" 0 0)).
    + unfold Ws.attach. destruct (decide (id = ""%string)); [contradiction|].
      cbn [Get Client.Client_SessionManager]. unfold Client.Client_Get.
      rewrite Hd, lookup_delete_eq. reflexivity.
    + apply (Hrem Client.World a row _ dl Hp).
  - intros W H mgr a r. unfold r, Api.HandleDelete. fold parsed. split.
    + intros ->. reflexivity.
    + intros [dl ->] ->. reflexivity.
Qed.

Lemma X27_delete_session_witness :
  (@Api.HandleDelete Pty.Manager positive _ os_ok "abc" "" app_abc).2 = Api.NoContent /\
  Api.worktrees (@Api.HandleDelete Pty.Manager positive _ os_ok "abc" "" app_abc).1 = ∅.
Proof.
  split.
  - refine (proj1 (proj1 (X27_delete_session os_ok "abc"%string ""%string _)
                     app_abc (running_row create_abc "/wt/abc" 42) _ _)).
    + discriminate.
    + vm_compute. reflexivity.
    + eexists. reflexivity.
  - vm_compute. reflexivity.
Defined.

Section ClientChannels.
Import Protocol Chan.

(** Channels may only change as [heap_evolves] allows, and no done
    channel is added. *)
Lemma client_inv_evolves (c c' : Client.Client) :
(forall sid d, Client.sessionDone c' !! sid = Some d ->
               Client.sessionDone c !! sid = Some d) ->
heap_evolves (is_done c) (Client.heap_ c) (Client.heap_ c') ->
client_inv c -> client_inv c'.
Proof.
intros Hsd Hev (Hd & Ho). split.
- intros sid d Hs. destruct (Hd sid d (Hsd sid d Hs)) as (q & Hq & Hc).
  specialize (Hev d). rewrite Hq in Hev. inversion Hev as [q0 q' [Hcap _] Hq0 Hq'|].
  exists q'. split; [reflexivity | congruence].
- intros ch q' Hq' Hc. specialize (Hev ch). rewrite Hq' in Hev.
  inversion Hev as [q q0 [Hcap Hcl] Hq Hq0|]. symmetry in Hq.
  rewrite Hcl.
  + apply (Ho ch q Hq). congruence.
  + intros (sid & Hs). destruct (Hd sid ch Hs) as (q1 & Hq1 & Hc1).
    rewrite Hq in Hq1. injection Hq1 as <-. rewrite Hcap in Hc. lia.
Qed.

Lemma client_inv_tables (c c' : Client.Client) :
(forall sid d, Client.sessionDone c' !! sid = Some d ->
               Client.sessionDone c !! sid = Some d) ->
Client.heap_ c' = Client.heap_ c ->
client_inv c -> client_inv c'.
Proof.
intros Hsd Hh. apply client_inv_evolves; [exact Hsd|].
rewrite Hh. apply heap_evolves_refl.
Qed.

(** A new done channel. *)
Lemma client_inv_alloc_done (sid : string) (c : Client.Client) :
client_inv c ->
client_inv
  (Client.set_sessionDone
     (<[sid := fresh (dom (Client.heap_ c))]> (Client.sessionDone c))
     (Client.set_heap (<[fresh (dom (Client.heap_ c)) := make 0]> (Client.heap_ c)) c)).
Proof.
intros (Hd & Ho).
assert (Hf : Client.heap_ c !! fresh (dom (Client.heap_ c)) = None)
  by (apply not_elem_of_dom, is_fresh).
set (l := fresh (dom (Client.heap_ c))) in *.
split; cbn [Client.sessionDone Client.set_sessionDone Client.heap_ Client.set_heap].
- intros s d. rewrite lookup_insert. destruct (decide (sid = s)) as [->|Hne].
  + intros [= <-]. exists (make 0). rewrite lookup_insert_eq. split; reflexivity.
  + intros Hs. destruct (Hd s d Hs) as (q & Hq & Hc). exists q.
    rewrite lookup_insert_ne by congruence. split; assumption.
- intros ch q. rewrite lookup_insert. destruct (decide (l = ch)) as [->|Hne].
  + intros [= <-]. cbn. discriminate.
  + apply Ho.
Qed.

(** A new subscriber channel. *)
Lemma client_inv_alloc_sub (c : Client.Client) :
client_inv c ->
client_inv
  (Client.set_heap (<[fresh (dom (Client.heap_ c)) := make 256]> (Client.heap_ c)) c).
Proof.
intros (Hd & Ho).
assert (Hf : Client.heap_ c !! fresh (dom (Client.heap_ c)) = None)
  by (apply not_elem_of_dom, is_fresh).
set (l := fresh (dom (Client.heap_ c))) in *.
split; cbn [Client.sessionDone Client.heap_ Client.set_heap].
- intros s d Hs. destruct (Hd s d Hs) as (q & Hq & Hc). exists q.
  rewrite lookup_insert_ne by congruence. split; assumption.
- intros ch q. rewrite lookup_insert. destruct (decide (l = ch)) as [->|Hne].
  + intros [= <-] _. reflexivity.
  + apply Ho.
Qed.

Lemma sendRequest_inv (os : OS) (req : Request) (w : Client.World) :
client_inv (Client.client w) ->
client_inv (Client.client (Client.sendRequest os req w).1).
Proof.
intros Hinv. destruct (Client.closed (Client.client w)) eqn:Hc.
- rewrite sendRequest_closed by exact Hc. cbn [fst Client.client].
  revert Hinv. apply client_inv_tables; [|reflexivity]. intros sid d H. exact H.
- destruct (sendRequest_open os req w Hc) as (_ & _ & _ & Hsd & _ & _ & _ & Hev).
  cbv zeta in Hsd, Hev. revert Hinv. apply client_inv_evolves; [|exact Hev].
  intros sid d. rewrite Hsd. exact (fun H => H).
Qed.

Lemma client_inv_closeDone (sid : string) (c : Client.Client) :
client_inv c -> client_inv (Client.closeDone sid c).
Proof.
destruct (closeDone_spec sid c) as ((_ & _ & _ & Hsd & _) & _ & Hev).
apply client_inv_evolves; [|exact Hev]. intros s d. rewrite Hsd. exact (fun H => H).
Qed.

Lemma cl_step_inv (os : OS) (op : cl_op) (w : Client.World) :
client_inv (Client.client w) -> client_inv (Client.client (cl_step os op w)).
Proof.
intros Hinv. destruct op; cbn [cl_step].
- (* Start *)
  cbn [Start Client.Client_SessionManager]. unfold Client.Client_Start, alloc.
  match goal with
  | |- context [Client.sendRequest os ?r ?w0] =>
      assert (H0 : client_inv (Client.client w0))
        by (apply client_inv_alloc_done; exact Hinv);
      pose proof (sendRequest_inv os r w0 H0) as H1;
      destruct (Client.sendRequest os r w0) as [w1 [resp|e]]
  end; cbn [fst] in H1.
  + destruct (decide _); cbn [fst]; [|exact H1].
    revert H1. apply client_inv_tables; [|reflexivity].
    intros sid d. cbn. rewrite lookup_delete. destruct (decide _); [discriminate|].
    exact (fun H => H).
  + cbn [fst]. revert H1. apply client_inv_tables; [|reflexivity].
    intros sid d. cbn. rewrite lookup_delete. destruct (decide _); [discriminate|].
    exact (fun H => H).
- (* Stop *)
  cbn [Stop Client.Client_SessionManager]. unfold Client.Client_Stop.
  match goal with
  | |- context [Client.sendRequest os ?r ?w0] =>
      pose proof (sendRequest_inv os r w0 Hinv) as H1;
      destruct (Client.sendRequest os r w0) as [w1 [resp|e]]
  end; cbn [fst] in H1; [|exact H1].
  destruct (decide _); cbn [fst]; [exact H1|].
  apply (client_inv_closeDone id) in H1. revert H1.
  apply client_inv_tables; [|reflexivity].
  intros sid d. cbn. rewrite lookup_delete. destruct (decide _); [discriminate|].
  exact (fun H => H).
- (* Resize *)
  cbn [Resize Client.Client_SessionManager]. unfold Client.Client_Resize.
  match goal with
  | |- context [Client.sendRequest os ?r ?w0] =>
      pose proof (sendRequest_inv os r w0 Hinv) as H1;
      destruct (Client.sendRequest os r w0) as [w1 [resp|e]]
  end; cbn [fst] in H1; [|exact H1].
  destruct (decide _); exact H1.
- (* StopAll *)
  cbn [StopAll Client.Client_SessionManager]. unfold Client.Client_StopAll.
  apply sendRequest_inv, Hinv.
- (* Replay *)
  cbn [Replay Client.ProxySession_SessionHandle]. unfold Client.replay.
  match goal with
  | |- context [Client.sendRequest os ?r ?w0] =>
      pose proof (sendRequest_inv os r w0 Hinv) as H1;
      destruct (Client.sendRequest os r w0) as [w1 [resp|e]]
  end; exact H1.
- (* Subscribe *)
  cbn [Subscribe Client.ProxySession_SessionHandle]. unfold Client.subscribe, alloc.
  cbn [fst].
  match goal with
  | |- client_inv (Client.client (if ?b then (Client.sendRequest os ?r ?w0).1 else ?w1)) =>
      assert (H0 : client_inv (Client.client w0)); [|destruct b;
        [apply sendRequest_inv; exact H0 | exact H0]]
  end.
  cbn [Client.set_client Client.client].
  match goal with
  | |- client_inv (if ?b then _ else _) => destruct b
  end;
    (eapply client_inv_tables;
     [| |apply (client_inv_alloc_sub (Client.client w)); exact Hinv];
     [intros s d H; exact H | reflexivity]).
- (* Unsub *)
  cbn [Unsub Client.ProxySession_SessionHandle Client.set_client Client.client].
  unfold Client.unsub. destruct (Client.sessionSubs _ !! sid); [|exact Hinv].
  destruct (decide _); [|exact Hinv].
  revert Hinv. apply client_inv_tables; [|reflexivity]. intros s d H. exact H.
- (* Done *)
  cbn [Done Client.ProxySession_SessionHandle]. unfold Client.Client_Done.
  destruct (Client.sessionDone (Client.client w) !! sid); cbn [fst Client.set_client
    Client.client]; [exact Hinv|].
  unfold alloc. apply client_inv_alloc_done. exact Hinv.
- (* Write *)
  cbn [Write Client.ProxySession_SessionHandle]. unfold Client.writeInput.
  destruct (Client.closed (Client.client w)); cbn [fst Client.set_client Client.client];
    [exact Hinv|].
  revert Hinv. apply client_inv_tables; [|reflexivity]. intros s d H. exact H.
- (* Next *)
  cbn [Next Client.ProxySession_SessionHandle]. unfold Client.chanNext.
  destruct (Client.heap_ (Client.client w) !! ch) as [q|] eqn:Hq; [|exact Hinv].
  destruct (recv q) as [q' r] eqn:Hr. cbn [fst Client.set_client Client.client].
  revert Hinv. apply client_inv_evolves; [intros s d H; exact H|].
  cbn [Client.heap_ Client.set_heap]. intros l. rewrite lookup_insert.
  destruct (decide (ch = l)) as [<-|Hne].
  + rewrite Hq. constructor. unfold recv in Hr.
    destruct (buf q); injection Hr as <- _; split; reflexivity.
  + destruct (Client.heap_ (Client.client w) !! l); constructor. split; reflexivity.
- (* readLoop *)
  unfold Client.readLoop. cbn [Client.set_client Client.client].
  match goal with
  | |- client_inv (foldl Client.dispatch ?c ?l) =>
      destruct (foldl_dispatch_spec l c) as ((_ & _ & _ & Hsd & _) & _ & Hev)
  end.
  revert Hinv. apply client_inv_evolves; [|exact Hev].
  intros s d. rewrite Hsd. exact (fun H => H).
- (* Ping *)
  unfold Client.Ping.
  match goal with
  | |- context [Client.sendRequest os ?r ?w0] =>
      pose proof (sendRequest_inv os r w0 Hinv) as H1;
      destruct (Client.sendRequest os r w0) as [w1 [resp|e]]
  end; cbn [fst] in H1; [|exact H1].
  destruct (decide _); exact H1.
- (* ListSessions *)
  unfold Client.ListSessions.
  match goal with
  | |- context [Client.sendRequest os ?r ?w0] =>
      pose proof (sendRequest_inv os r w0 Hinv) as H1;
      destruct (Client.sendRequest os r w0) as [w1 [resp|e]]
  end; exact H1.
- (* Close *)
  cbn [Client.set_client Client.client]. revert Hinv.
  apply client_inv_tables; [|reflexivity]. intros s d H. exact H.
- (* a step of the supervisor *)
  exact Hinv.
Qed.

Lemma cl_run_inv (os : OS) (ops : list cl_op) (w : Client.World) :
client_inv (Client.client w) -> client_inv (Client.client (cl_run os ops w)).
Proof.
revert w. induction ops as [|op ops IH]; intros w Hinv; [exact Hinv|].
apply IH, cl_step_inv, Hinv.
Qed.

End ClientChannels.

(** X28: the supervisor client never closes a subscription channel.
    Whatever the server does with a client after connecting ([Start],
    [Stop], [Resize], [StopAll], replay, subscribe and unsubscribe, [Done],
    input, reads, [Ping], [ListSessions], [Close]) and whatever the
    supervisor does meanwhile (sessions end, children are reaped), every
    channel of capacity 256, which is what [Subscribe] returns, stays
    open, so a consumer that ranges over it never reaches the end of the
    stream: the output pump of the WebSocket handler on a proxied session
    ends only when a write to the browser fails. *)
Theorem X28_proxied_subscription_never_ends :
  forall (os : OS) (ops : list cl_op) (s : Shepherd.Shepherd),
    let w := cl_run os ops (Client.NewClient s) in
    forall (ch : positive) (q : Chan.chan),
      Client.heap_ (Client.client w) !! ch = Some q ->
      Chan.cap q = 256 ->
      Chan.closed q = false /\
      (@Next Client.World Client.ProxySession _ ch w).2 <> Chan.EndOfStream.
Proof.
  intros os ops s w ch q Hq Hcap.
  assert (Hinv : client_inv (Client.client w)).
  { apply cl_run_inv. unfold Client.NewClient, Shepherd.accept.
    cbn [Client.client]. split.
    - intros sid d H. cbn [Client.sessionDone] in H. rewrite lookup_empty in H.
      discriminate H.
    - intros l q0 H. cbn [Client.heap_] in H. rewrite lookup_empty in H.
      discriminate H. }
  destruct Hinv as (_ & Ho). pose proof (Ho ch q Hq Hcap) as Hopen.
  split; [exact Hopen|].
  cbn [Next Client.ProxySession_SessionHandle]. unfold Client.chanNext.
  rewrite Hq. unfold Chan.recv. rewrite Hopen. destruct (Chan.buf q); discriminate.
Qed.

Lemma X28_proxied_subscription_never_ends_witness :
  Client.heap_
    (Client.client
       (cl_run os_ok
          [CStart "abc" "claude" "/tmp"; CSubscribe "abc"; CSup (SPtyEOF 1);
           CSup (SReap 1 "abc"); CReadLoop; CStop "abc"]
          (Client.NewClient Shepherd.new))) !! 2%positive
  = Some (Chan.make 256) /\
  Chan.closed (Chan.make 256) = false.
Proof.
  assert (H : Client.heap_
                (Client.client
                   (cl_run os_ok
                      [CStart "abc" "claude" "/tmp"; CSubscribe "abc"; CSup (SPtyEOF 1);
                       CSup (SReap 1 "abc"); CReadLoop; CStop "abc"]
                      (Client.NewClient Shepherd.new))) !! 2%positive
              = Some (Chan.make 256)) by (vm_compute; reflexivity).
  split; [exact H|].
  exact (proj1 (X28_proxied_subscription_never_ends os_ok _ Shepherd.new
                  2%positive (Chan.make 256) H eq_refl)).
Defined.

Section EndOfOutput.
Import Protocol Chan.

(** A forwarder on a closed channel that still holds chunks: one chunk
    per step goes to the connection, in order. *)
Lemma forward_drains (cw sess : positive) (sid : string) (ch : positive)
  (l : list chunk) (n : Z) (s : Shepherd.Shepherd) (c : Shepherd.connWriter) :
Shepherd.heap_ s !! ch = Some (mkChan l n true) ->
Shepherd.conns s !! cw = Some c -> Shepherd.connClosed c = false ->
let s' := Nat.iter (length l) (Shepherd.forward cw sess sid ch) s in
Shepherd.heap_ s' !! ch = Some (mkChan [] n true) /\
Shepherd.conns s' !! cw
= Some (Shepherd.mkConn
          (Shepherd.sent c
             ++ ((fun d => Shepherd.FBytes frameData (dataFramePayload sid d)) <$> l))
          false) /\
Shepherd.objs s' = Shepherd.objs s /\ Shepherd.sessions s' = Shepherd.sessions s.
Proof.
revert s c. induction l as [|v l IH]; intros s c Hq Hc Hcl; cbn [length].
- cbn. rewrite app_nil_r. destruct c as [snt cl]. cbn in Hcl. subst cl.
  repeat split; assumption.
- rewrite Nat.iter_succ_r.
  set (s1 := Shepherd.forward cw sess sid ch s).
  assert (H1 : Shepherd.heap_ s1 !! ch = Some (mkChan l n true) /\
               Shepherd.conns s1 !! cw
               = Some (Shepherd.mkConn
                         (Shepherd.sent c
                            ++ [Shepherd.FBytes frameData (dataFramePayload sid v)])
                         false) /\
               Shepherd.objs s1 = Shepherd.objs s /\
               Shepherd.sessions s1 = Shepherd.sessions s).
  { unfold s1, Shepherd.forward. rewrite Hq. unfold recv. cbn [buf cap closed].
    cbn [Shepherd.conns Shepherd.set_heap]. rewrite Hc.
    destruct c as [snt cl]. cbn in Hcl. subst cl.
    unfold Shepherd.writeDataFrame.
    cbn [Shepherd.heap_ Shepherd.conns Shepherd.objs Shepherd.sessions
         Shepherd.set_conns Shepherd.set_heap Shepherd.sent].
    rewrite lookup_insert_eq, lookup_alter_eq, Hc. repeat split. }
  destruct H1 as (Hq1 & Hc1 & Ho1 & Hs1).
  destruct (IH s1 _ Hq1 Hc1 eq_refl) as (Hq2 & Hc2 & Ho2 & Hs2).
  cbv zeta in Hq2, Hc2, Ho2, Hs2. cbn [Shepherd.sent] in Hc2.
  split; [exact Hq2|]. split; [|split; congruence].
  rewrite Hc2, <- app_assoc. reflexivity.
Qed.

End EndOfOutput.

(** X29: no output is lost when the PTY of a supervised session ends.
    The reader closes the subscriber channels with their queues intact;
    the forwarder of a connected client then writes every chunk that was
    queued for it to the connection, in order, each as a data frame tagged
    with the session id, and only then ends and unsubscribes. The session
    table is not touched. *)
Theorem X29_output_delivered_at_eof :
  forall (s : Shepherd.Shepherd) (sess ch cw : positive) (sid : string)
         (o : Shepherd.session) (q : Chan.chan) (c : Shepherd.connWriter),
    Shepherd.objs s !! sess = Some o ->
    ch ∈ Shepherd.subscribers o ->
    Shepherd.heap_ s !! ch = Some q ->
    Shepherd.conns s !! cw = Some c ->
    Shepherd.connClosed c = false ->
    let s' := Nat.iter (S (length (Chan.buf q))) (Shepherd.forward cw sess sid ch)
                (Shepherd.ptyEOF sess s) in
    Shepherd.conns s' !! cw
    = Some (Shepherd.mkConn
              (Shepherd.sent c
                 ++ ((fun d => Shepherd.FBytes Protocol.frameData
                                 (Protocol.dataFramePayload sid d)) <$> Chan.buf q))
              false) /\
    Shepherd.heap_ s' !! ch = Some (Chan.mkChan [] (Chan.cap q) true) /\
    (Shepherd.subscribers <$> Shepherd.objs s' !! sess) = Some ∅ /\
    Shepherd.sessions s' = Shepherd.sessions s.
Proof.
  intros s sess ch cw sid o q c Ho Hin Hq Hc Hcl s'.
  set (s1 := Shepherd.ptyEOF sess s).
  assert (H1 : Shepherd.heap_ s1 !! ch = Some (Chan.mkChan (Chan.buf q) (Chan.cap q) true)
               /\ Shepherd.conns s1 = Shepherd.conns s
               /\ Shepherd.objs s1 = <[sess := Shepherd.set_subscribers ∅ o]> (Shepherd.objs s)
               /\ Shepherd.sessions s1 = Shepherd.sessions s).
  { unfold s1, Shepherd.ptyEOF. rewrite Ho.
    cbn [Shepherd.heap_ Shepherd.conns Shepherd.objs Shepherd.sessions
         Shepherd.set_heap Shepherd.set_objs].
    split; [|repeat split].
    rewrite (fold_alter_lookup Chan.close).
    destruct (decide (ch ∈ Shepherd.subscribers o)) as [_|?]; [|contradiction].
    rewrite Hq. reflexivity. }
  destruct H1 as (Hq1 & Hc1 & Ho1 & Hs1).
  assert (Hc1' : Shepherd.conns s1 !! cw = Some c) by (rewrite Hc1; exact Hc).
  destruct (forward_drains cw sess sid ch (Chan.buf q) (Chan.cap q) s1 c Hq1 Hc1' Hcl)
    as (Hq2 & Hc2 & Ho2 & Hs2).
  cbv zeta in Hq2, Hc2, Ho2, Hs2.
  unfold s'. rewrite Nat.iter_succ. fold s1.
  set (s2 := Nat.iter (length (Chan.buf q)) (Shepherd.forward cw sess sid ch) s1) in *.
  assert (Hf : Shepherd.forward cw sess sid ch s2
               = Shepherd.set_objs
                   (alter (Shepherd.unsub ch) sess (Shepherd.objs s2)) s2).
  { unfold Shepherd.forward. rewrite Hq2. reflexivity. }
  rewrite Hf.
  cbn [Shepherd.conns Shepherd.heap_ Shepherd.objs Shepherd.sessions Shepherd.set_objs].
  split; [exact Hc2|]. split; [exact Hq2|]. split; [|congruence].
  rewrite lookup_alter_eq, Ho2, Ho1, lookup_insert_eq. cbn. f_equal.
  apply set_eq. intros x. rewrite elem_of_difference. split.
  - intros [Hx _]. exact Hx.
  - intros Hx. exfalso. exact (not_elem_of_empty x Hx).
Qed.

Lemma X29_output_delivered_at_eof_witness :
  Shepherd.sent
    <$> Shepherd.conns
          (Nat.iter 2 (Shepherd.forward 1 1 "abc" 1)
             (Shepherd.ptyEOF 1
                (Shepherd.ptyRead 1 [x68; x69] (Client.shepherd client_subscribed))))
        !! 1%positive
  = Some [Shepherd.FControl
            (Protocol.mkResponse "r1" Protocol.evtStarted 42 "" "abc" [] []);
          Shepherd.FControl (Protocol.mkResponse "r2" "subscribed" 0 "" "abc" [] []);
          Shepherd.FBytes Protocol.frameData
            (Protocol.dataFramePayload "abc" [x68; x69])].
Proof.
  pose proof (X29_output_delivered_at_eof
                (Shepherd.ptyRead 1 [x68; x69] (Client.shepherd client_subscribed))
                1%positive 1%positive 1%positive "abc"%string
                (Shepherd.mkSession "abc" 42 false false false false [x68; x69]
                   {[1%positive]})
                (Chan.mkChan [[x68; x69]] 256 false)
                (Shepherd.mkConn
                   [Shepherd.FControl
                      (Protocol.mkResponse "r1" Protocol.evtStarted 42 "" "abc" [] []);
                    Shepherd.FControl
                      (Protocol.mkResponse "r2" "subscribed" 0 "" "abc" [] [])]
                   false)) as H.
  cbv zeta in H.
  destruct H as (Hc & _).
  - vm_compute. reflexivity.
  - vm_compute. reflexivity.
  - vm_compute. reflexivity.
  - vm_compute. reflexivity.
  - reflexivity.
  - cbn [Chan.buf length] in Hc. rewrite Hc. reflexivity.
Defined.

Section LocalEndOfOutput.
Import Chan.

(** The output pump on a local channel that is closed and still holds
    chunks: one message per step, in order. *)
Lemma pump_drains (ch : positive) (l : list chunk) (n : Z) (m : Pty.Manager)
  (b : Ws.bridge) :
Pty.heap_ m !! ch = Some (mkChan l n true) ->
Ws.subscription b = Some ch -> Ws.pumpRunning b = true ->
let st := Nat.iter (length l)
            (fun st : Pty.Manager * Ws.bridge =>
               @Ws.pumpStep Pty.Manager positive _ true st.1 st.2) (m, b) in
Pty.heap_ st.1 !! ch = Some (mkChan [] n true) /\
Ws.trace st.2 = Ws.trace b ++ (Ws.WriteOutput <$> l) /\
Ws.subscription st.2 = Some ch /\ Ws.pumpRunning st.2 = true /\
Pty.objs st.1 = Pty.objs m /\ Pty.sessions st.1 = Pty.sessions m.
Proof.
revert m b. induction l as [|v l IH]; intros m b Hq Hs Hp; cbn [length].
- cbn. rewrite app_nil_r. repeat split; assumption.
- rewrite Nat.iter_succ_r. cbn [fst snd].
  assert (H1 : @Ws.pumpStep Pty.Manager positive _ true m b
               = (Pty.set_heap (<[ch := mkChan l n true]> (Pty.heap_ m)) m,
                  Ws.log (Ws.WriteOutput v) b)).
  { unfold Ws.pumpStep. rewrite Hs, Hp.
    cbn [Next Pty.Session_SessionHandle]. unfold Pty.chanNext. rewrite Hq.
    reflexivity. }
  rewrite H1.
  destruct (IH (Pty.set_heap (<[ch := mkChan l n true]> (Pty.heap_ m)) m)
              (Ws.log (Ws.WriteOutput v) b)) as (Hq2 & Ht2 & Hs2 & Hp2 & Ho2 & Hss2).
  + cbn [Pty.heap_ Pty.set_heap]. apply lookup_insert_eq.
  + unfold Ws.subscription in *. cbn [Ws.log Ws.at_]. exact Hs.
  + exact Hp.
  + cbv zeta in Hq2, Ht2, Hs2, Hp2, Ho2, Hss2.
    split; [exact Hq2|]. split; [|split; [exact Hs2|split; [exact Hp2|]]].
    * rewrite Ht2. cbn [Ws.log Ws.trace fmap list_fmap]. rewrite <- app_assoc.
      reflexivity.
    * split; [rewrite Ho2 | rewrite Hss2]; reflexivity.
Qed.

End LocalEndOfOutput.

(** X30: on the local backend the output pump of the WebSocket handler
    ends with the PTY. When the reader of a local session ends, it closes
    the subscriber channels with their queues intact; the pump of an
    attached handler then sends every queued chunk to the browser, in
    order (the writes succeeding), and on its next step finds the end of
    the stream and stops without writing anything more. *)
Theorem X30_local_pump_ends_with_pty :
  forall (m : Pty.Manager) (sess ch : positive) (o : Pty.Session) (q : Chan.chan)
         (b : Ws.bridge),
    Pty.objs m !! sess = Some o ->
    ch ∈ Pty.subscribers o ->
    Pty.heap_ m !! ch = Some q ->
    Ws.subscription b = Some ch ->
    Ws.pumpRunning b = true ->
    let pump := fun st : Pty.Manager * Ws.bridge =>
                  @Ws.pumpStep Pty.Manager positive _ true st.1 st.2 in
    let st := Nat.iter (length (Chan.buf q)) pump (Pty.ptyEOF sess m, b) in
    Ws.trace st.2 = Ws.trace b ++ (Ws.WriteOutput <$> Chan.buf q) /\
    Ws.pumpRunning st.2 = true /\
    Ws.pumpRunning (pump st).2 = false /\
    Ws.trace (pump st).2 = Ws.trace st.2 /\
    (@Next Pty.Manager positive _ ch st.1).2 = Chan.EndOfStream.
Proof.
  intros m sess ch o q b Ho Hin Hq Hs Hp pump st.
  assert (Hq1 : Pty.heap_ (Pty.ptyEOF sess m) !! ch
                = Some (Chan.mkChan (Chan.buf q) (Chan.cap q) true)).
  { unfold Pty.ptyEOF. rewrite Ho. cbn [Pty.heap_ Pty.set_heap Pty.set_objs].
    rewrite (fold_alter_lookup Chan.close).
    destruct (decide (ch ∈ Pty.subscribers o)) as [_|?]; [|contradiction].
    rewrite Hq. reflexivity. }
  destruct (pump_drains ch (Chan.buf q) (Chan.cap q) (Pty.ptyEOF sess m) b Hq1 Hs Hp)
    as (Hq2 & Ht2 & Hs2 & Hp2 & _).
  cbv zeta in Hq2, Ht2, Hs2, Hp2. fold pump in Hq2, Ht2, Hs2, Hp2. fold st in Hq2, Ht2, Hs2, Hp2.
  assert (Hpump : (pump st).2 = Ws.stopPump st.2).
  { unfold pump, Ws.pumpStep. rewrite Hs2, Hp2.
    cbn [Next Pty.Session_SessionHandle]. unfold Pty.chanNext. rewrite Hq2.
    reflexivity. }
  split; [exact Ht2|]. split; [exact Hp2|]. rewrite Hpump.
  split; [reflexivity|]. split; [reflexivity|].
  cbn [Next Pty.Session_SessionHandle]. unfold Pty.chanNext. rewrite Hq2. reflexivity.
Qed.

Lemma X30_local_pump_ends_with_pty_witness :
  Ws.trace
    (Nat.iter 1
       (fun st : Pty.Manager * Ws.bridge =>
          @Ws.pumpStep Pty.Manager positive _ true st.1 st.2)
       (Pty.ptyEOF 1 pty_gh_queued, Ws.mkBridge (Ws.Serving 1) true true true [])).2
  = [Ws.WriteOutput [x67; x68]].
Proof.
  refine (proj1 (X30_local_pump_ends_with_pty pty_gh_queued 1%positive 1%positive
                   (Pty.mkSession "abc" 42 false false [] false false
                      [x61; x62; x63; x64; x65; x66; x67; x68] {[1%positive]})
                   (Chan.mkChan [[x67; x68]] 256 false)
                   (Ws.mkBridge (Ws.Serving 1) true true true []) _ _ _ _ _)).
  - vm_compute. reflexivity.
  - vm_compute. reflexivity.
  - vm_compute. reflexivity.
  - reflexivity.
  - reflexivity.
Defined.
